(** * MyBlog: a shallow embedding of the blog's models and request handlers

    The development follows the Python sources:
    - [app/models.py]      : [User], [Post], [Tag], [SiteSettings] and their methods;
    - [app/blog/forms.py]  : the validators of [PostForm];
    - [app/blog/routes.py] : [allowed_file], [save_image] and the post handlers;
    - [app/auth/routes.py] : [login];
    - [config.py]          : the upload settings.

    Python [str] values are modelled as [string], the text in its UTF-8
    encoding; the operations of [PyStr] are the ASCII ones, and the two calls
    whose result depends on the rest of Unicode, [name.lower()] and [.strip()]
    in [Tag.get_or_create], are taken from the runtime. Python [int] as [Z] (or [nat] for the slug counter, which only counts up
    from one); [None]-able values as [option]; [datetime] values as a number
    of seconds. The relational store is a record of tables, each table a list
    of rows in insertion order, a query's [.first()] being [find]. A
    [Tag] added to the SQLAlchemy session stays pending until the next flush,
    which the next query or the commit brings; the constraints declared on
    the columns are checked when the row is written, so a refused tag raises
    at that flush and not in the call that added it. A handler that raises
    leaves the store as it found it (the transaction is rolled back). *)

From Stdlib Require Import String Ascii List ZArith Lia Bool Arith.
From Stdlib Require Import DecimalString DecimalNat FinFun.
From Stdlib Require Import Permutation Sorted.
Import ListNotations.

Open Scope string_scope.
Open Scope list_scope.

(* ------------------------------------------------------------------ *)
(** ** Python string operations used by the sources *)
(* ------------------------------------------------------------------ *)

Module PyStr.

(** [c.isspace()] on ASCII: tab, newline, vertical tab, form feed, carriage
    return, the four separators 28..31 and the space. *)
Definition isspace (c : ascii) : bool :=
  let n := nat_of_ascii c in
  (Nat.leb 9 n && Nat.leb n 13) || (Nat.leb 28 n && Nat.leb n 32).

Definition lower_char (c : ascii) : ascii :=
  let n := nat_of_ascii c in
  if Nat.leb 65 n && Nat.leb n 90 then ascii_of_nat (n + 32) else c.

(** [s.lower()] *)
Fixpoint lower (s : string) : string :=
  match s with
  | EmptyString => EmptyString
  | String c r => String (lower_char c) (lower r)
  end.

(** [s.lstrip()] *)
Fixpoint lstrip (s : string) : string :=
  match s with
  | EmptyString => EmptyString
  | String c r => if isspace c then lstrip r else s
  end.

(** [s.rstrip()] *)
Fixpoint rstrip (s : string) : string :=
  match s with
  | EmptyString => EmptyString
  | String c r =>
      match rstrip r with
      | EmptyString => if isspace c then EmptyString else String c EmptyString
      | r' => String c r'
      end
  end.

(** [s.strip()] *)
Definition strip (s : string) : string := rstrip (lstrip s).

(** [c in s] for a one-character [c] *)
Fixpoint contains (c : ascii) (s : string) : bool :=
  match s with
  | EmptyString => false
  | String d r => Ascii.eqb d c || contains c r
  end.

(** [s.split(sep)] for a one-character separator: never the empty list. *)
Fixpoint split (sep : ascii) (s : string) : list string :=
  match s with
  | EmptyString => [EmptyString]
  | String c r =>
      if Ascii.eqb c sep then EmptyString :: split sep r
      else match split sep r with
           | h :: t => String c h :: t
           | [] => [String c EmptyString]
           end
  end.

(** [s.rsplit(sep, 1)] for a one-character separator: the text before the
    last separator and the text after it, or the whole string alone. *)
Fixpoint rsplit1 (sep : ascii) (s : string) : list string :=
  match s with
  | EmptyString => [EmptyString]
  | String c r =>
      match rsplit1 sep r with
      | [h; t] => [String c h; t]
      | _ => if Ascii.eqb c sep then [EmptyString; r] else [s]
      end
  end.

(** [s.endswith(suffix)] *)
Fixpoint endswith (s suffix : string) : bool :=
  String.eqb s suffix ||
  match s with
  | EmptyString => false
  | String _ r => endswith r suffix
  end.

(** [str(n)] for a non-negative integer, as [f"{n}"] prints it. *)
Definition str_of_nat (n : nat) : string :=
  NilEmpty.string_of_uint (Nat.to_uint n).

(** Truth value of a string, and of a string that may be [None]. *)
Definition truthy (s : string) : bool := negb (String.eqb s "").

Definition truthy_opt (s : option string) : bool :=
  match s with
  | Some t => truthy t
  | None => false
  end.

End PyStr.

(* ------------------------------------------------------------------ *)
(** ** Library functions the sources import *)
(* ------------------------------------------------------------------ *)

(** [slugify] comes from the python-slugify package and the two password
    functions from [werkzeug.security]; [str_lower] and [str_strip] are
    [str.lower()] and [str.strip()] of the Python runtime on any text, with
    the case mapping and the white space of Unicode. The handlers are written
    against any implementation of them. *)
Class External := {
  slugify : string -> string;
  generate_password_hash : string -> string;
  check_password_hash : string -> string -> bool;
  str_lower : string -> string;
  str_strip : string -> string
}.

(* ------------------------------------------------------------------ *)
(** ** models.py: the tables *)
(* ------------------------------------------------------------------ *)

Definition datetime := Z.
Bind Scope Z_scope with datetime.

Record User := mkUser {
  user_id : Z;
  username : string;
  email : string;
  password_hash : string;
  is_admin : bool;
  user_created_at : datetime
}.

Record Post := mkPost {
  post_id : Z;
  title : string;
  slug : string;
  excerpt : option string;
  content : option string;
  cover_image : option string;
  is_published : bool;
  is_featured : bool;
  views : option Z;
  created_at : datetime;
  updated_at : datetime;
  published_at : option datetime;
  author_id : Z
}.

Record Tag := mkTag {
  tag_id : Z;
  tag_name : string;
  tag_slug : string
}.

Record SiteSettings := mkSiteSettings {
  setting_id : Z;
  key : string;
  value : option string;
  setting_updated_at : datetime
}.

(** The database: one list of rows per table; [post_tags] is the association
    table of [(post_id, tag_id)] pairs. *)
Record DB := mkDB {
  users : list User;
  posts : list Post;
  tags : list Tag;
  post_tags : list (Z * Z);
  site_settings : list SiteSettings
}.

Definition empty_db : DB := mkDB [] [] [] [] [].

(** The integer primary key given to a new row: one more than the largest. *)
Definition next_id (ids : list Z) : Z := fold_right Z.max 0%Z ids + 1.

(* ------------------------------------------------------------------ *)
(** ** models.py: Post *)
(* ------------------------------------------------------------------ *)

(** [Post.query.filter_by(slug=slug).first()] *)
Definition Post_query_filter_by_slug (d : DB) (s : string) : option Post :=
  find (fun p => String.eqb (slug p) s) (posts d).

(** [Post.query.get(id)] *)
Definition Post_query_get (d : DB) (id : Z) : option Post :=
  find (fun p => Z.eqb (post_id p) id) (posts d).

Definition set_slug (p : Post) (s : string) : Post :=
  mkPost (post_id p) (title p) s (excerpt p) (content p) (cover_image p)
         (is_published p) (is_featured p) (views p) (created_at p)
         (updated_at p) (published_at p) (author_id p).

(** The [while] loop of [Post.generate_slug]: [slug] is the candidate under
    test and [counter] the suffix of the next one. Each unit of [fuel] pays
    for one evaluation of the loop condition. *)
Fixpoint generate_slug_loop (fuel : nat) (d : DB) (base_slug slug : string)
    (counter : nat) : option string :=
  match fuel with
  | O => None
  | S fuel' =>
      match Post_query_filter_by_slug d slug with
      | Some _ =>
          generate_slug_loop fuel' d base_slug
            (base_slug ++ "-" ++ PyStr.str_of_nat counter) (counter + 1)
      | None => Some slug
      end
  end.

(** The slug [Post.generate_slug] computes; the fuel is one more than the
    number of posts, which [generate_slug_loop_total] shows is enough. *)
Definition generate_slug_value `{External} (d : DB) (ttl : string) : option string :=
  let base_slug := slugify ttl in
  generate_slug_loop (S (length (posts d))) d base_slug base_slug 1.

(** [post.generate_slug()] *)
Definition Post_generate_slug `{External} (d : DB) (p : Post) : option Post :=
  match generate_slug_value d (title p) with
  | Some s => Some (set_slug p s)
  | None => None
  end.

(** The candidates the loop tests, in order: the base slug, then the base
    slug with [-1], [-2], ... appended. *)
Definition slug_candidate (base_slug : string) (k : nat) : string :=
  match k with
  | O => base_slug
  | S _ => base_slug ++ "-" ++ PyStr.str_of_nat k
  end.

Definition set_views (p : Post) (v : option Z) : Post :=
  mkPost (post_id p) (title p) (slug p) (excerpt p) (content p) (cover_image p)
         (is_published p) (is_featured p) v (created_at p)
         (updated_at p) (published_at p) (author_id p).

Definition set_cover_image (p : Post) (name : option string) : Post :=
  mkPost (post_id p) (title p) (slug p) (excerpt p) (content p) name
         (is_published p) (is_featured p) (views p) (created_at p)
         (updated_at p) (published_at p) (author_id p).

Definition set_published_at (p : Post) (t : option datetime) : Post :=
  mkPost (post_id p) (title p) (slug p) (excerpt p) (content p) (cover_image p)
         (is_published p) (is_featured p) (views p) (created_at p)
         (updated_at p) t (author_id p).

Definition set_updated_at (p : Post) (t : datetime) : Post :=
  mkPost (post_id p) (title p) (slug p) (excerpt p) (content p) (cover_image p)
         (is_published p) (is_featured p) (views p) (created_at p)
         t (published_at p) (author_id p).

Definition option_eq_dec {A : Type} (dec : forall a b : A, {a = b} + {a <> b})
    (x y : option A) : {x = y} + {x <> y}.
Proof. decide equality. Defined.

Definition Post_eq_dec (p q : Post) : {p = q} + {p <> q}.
Proof.
  decide equality;
    first [ apply Z.eq_dec | apply string_dec | apply bool_dec
          | apply (option_eq_dec Z.eq_dec) | apply (option_eq_dec string_dec) ].
Defined.

(** The row an UPDATE leaves: [r] is the stored row and [p] the session's
    object. A statement is emitted only when some column differs, and then
    [onupdate] stamps [updated_at]. *)
Definition updated_row (now : datetime) (r p : Post) : Post :=
  if Post_eq_dec r p then r else set_updated_at p now.

(** UPDATE of the row whose primary key is [p]'s. *)
Fixpoint update_post_row (now : datetime) (p : Post) (rows : list Post) : list Post :=
  match rows with
  | [] => []
  | r :: rest =>
      if Z.eqb (post_id r) (post_id p)
      then updated_row now r p :: rest
      else r :: update_post_row now p rest
  end.

(** [db.session.commit()] with the object [p] of the session modified. *)
Definition commit_post (now : datetime) (d : DB) (p : Post) : DB :=
  mkDB (users d) (update_post_row now p (posts d))
       (tags d) (post_tags d) (site_settings d).

(** [x or 0] for an integer that may be [None]. *)
Definition or_0 (x : option Z) : Z :=
  match x with
  | Some n => if Z.eqb n 0 then 0%Z else n
  | None => 0%Z
  end.

(** [post.increment_views()]: the updated object and the committed store. *)
Definition Post_increment_views (now : datetime) (d : DB) (p : Post) : Post * DB :=
  let p' := set_views p (Some (or_0 (views p) + 1)%Z) in
  (p', commit_post now d p').

(* ------------------------------------------------------------------ *)
(** ** Storage errors *)
(* ------------------------------------------------------------------ *)

(** A write the storage layer refuses raises [IntegrityError]. *)
Inductive Result (A : Type) : Type :=
| Ok (a : A)
| IntegrityError (constraint : string).

Arguments Ok {A} a.
Arguments IntegrityError {A} constraint.

Definition bind {A B : Type} (r : Result A) (k : A -> Result B) : Result B :=
  match r with
  | Ok a => k a
  | IntegrityError c => IntegrityError c
  end.

Notation "x <- r ;; k" := (bind r (fun x => k))
  (at level 61, r at next level, right associativity).

(* ------------------------------------------------------------------ *)
(** ** models.py: Tag *)
(* ------------------------------------------------------------------ *)

(** [Tag.query.filter_by(name=n).first()] *)
Definition Tag_query_filter_by_name (d : DB) (n : string) : option Tag :=
  find (fun t => String.eqb (tag_name t) n) (tags d).

(** The INSERT of a tag when the session is flushed: both [name] and [slug]
    are declared [unique=True]. *)
Definition session_add_tag (d : DB) (t : Tag) : Result DB :=
  if existsb (fun r => String.eqb (tag_name r) (tag_name t)) (tags d)
  then IntegrityError "UNIQUE constraint failed: tags.name"
  else if existsb (fun r => String.eqb (tag_slug r) (tag_slug t)) (tags d)
  then IntegrityError "UNIQUE constraint failed: tags.slug"
  else Ok (mkDB (users d) (posts d) (tags d ++ [t]) (post_tags d) (site_settings d)).

(** The session as [Tag.get_or_create] sees it: the rows written so far in
    the transaction, and the tags passed to [db.session.add] that no flush
    has written yet, oldest first. *)
Record Session := mkSession {
  stored : DB;
  pending_tags : list Tag
}.

(** [db.session.flush()]: the pending tags are inserted in the order they
    were added; the first refused row raises. *)
Fixpoint flush_tags (pending : list Tag) (d : DB) : Result DB :=
  match pending with
  | [] => Ok d
  | t :: rest =>
      d' <- session_add_tag d t ;;
      flush_tags rest d'
  end.

(** [Tag.get_or_create(name)]: the tag the call returns and the session after
    it. The query autoflushes, so a pending tag the store refuses raises
    here; a tag the call creates is only added to the session, and is
    returned whatever the store holds. The new [Tag] object carries from the
    start the id its INSERT will give it. *)
Definition Tag_get_or_create `{External} (name : string) (s : Session)
    : Result (Tag * Session) :=
  d <- flush_tags (pending_tags s) (stored s) ;;
  match Tag_query_filter_by_name d (str_strip (str_lower name)) with
  | Some tag => Ok (tag, mkSession d [])
  | None =>
      let tag := mkTag (next_id (map tag_id (tags d)))
                       (str_strip (str_lower name)) (slugify name) in
      Ok (tag, mkSession d [tag])
  end.

(* ------------------------------------------------------------------ *)
(** ** models.py: SiteSettings *)
(* ------------------------------------------------------------------ *)

(** [SiteSettings.query.filter_by(key=key).first()] *)
Definition SiteSettings_query_filter_by_key (d : DB) (k : string) : option SiteSettings :=
  find (fun s => String.eqb (key s) k) (site_settings d).

(** [SiteSettings.get(key, default)] *)
Definition SiteSettings_get (d : DB) (k : string) (default : option string)
    : option string :=
  match SiteSettings_query_filter_by_key d k with
  | Some setting => value setting
  | None => default
  end.

(** Assigning [setting.value] on the first row with key [k]; [onupdate]
    stamps the row when the value differs. *)
Fixpoint update_first_setting (now : datetime) (k : string) (v : option string)
    (rows : list SiteSettings) : list SiteSettings :=
  match rows with
  | [] => []
  | r :: rest =>
      if String.eqb (key r) k
      then mkSiteSettings (setting_id r) (key r) v
             (if option_eq_dec string_dec (value r) v
              then setting_updated_at r else now) :: rest
      else r :: update_first_setting now k v rest
  end.

(** [SiteSettings.set(key, value)]: the setting returned and the committed
    store. *)
Definition SiteSettings_set (now : datetime) (d : DB) (k : string) (v : option string)
    : SiteSettings * DB :=
  match SiteSettings_query_filter_by_key d k with
  | Some setting =>
      let rows := update_first_setting now k v (site_settings d) in
      (mkSiteSettings (setting_id setting) (key setting) v
         (if option_eq_dec string_dec (value setting) v
          then setting_updated_at setting else now),
       mkDB (users d) (posts d) (tags d) (post_tags d) rows)
  | None =>
      let setting := mkSiteSettings (next_id (map setting_id (site_settings d)))
                                    k v now in
      (setting,
       mkDB (users d) (posts d) (tags d) (post_tags d) (site_settings d ++ [setting]))
  end.

(* ------------------------------------------------------------------ *)
(** ** config.py *)
(* ------------------------------------------------------------------ *)

Record Config := mkConfig {
  UPLOAD_FOLDER : string;
  MAX_CONTENT_LENGTH : Z;
  ALLOWED_EXTENSIONS : list string;
  POSTS_PER_PAGE : Z
}.

(** [os.path.join(a, b)] for a relative [b] *)
Definition os_path_join (a b : string) : string :=
  if String.eqb a "" || PyStr.endswith a "/" then (a ++ b)%string else (a ++ "/" ++ b)%string.

(** The settings of class [Config], which every configuration inherits;
    [basedir] is the directory of [config.py]. *)
Definition base_config (basedir : string) : Config :=
  mkConfig (os_path_join (os_path_join (os_path_join basedir "app") "static") "uploads")
           (16 * 1024 * 1024)
           ["png"; "jpg"; "jpeg"; "gif"; "webp"]
           10.

(* ------------------------------------------------------------------ *)
(** ** Uploaded files and the upload directory *)
(* ------------------------------------------------------------------ *)

(** A werkzeug [FileStorage]: the client's file name and the bytes sent. *)
Record FileStorage := mkFileStorage {
  filename : string;
  stream : string
}.

(** [bool(file)] for a [FileStorage] that may be [None]: a file without a
    name is false. *)
Definition file_truthy (file : option FileStorage) : bool :=
  match file with
  | Some f => PyStr.truthy (filename f)
  | None => false
  end.

(** The file system: paths and their contents. *)
Definition FileSystem := list (string * string).

Definition os_path_exists (fs : FileSystem) (path : string) : bool :=
  existsb (fun e => String.eqb (fst e) path) fs.

Definition os_remove (fs : FileSystem) (path : string) : FileSystem :=
  filter (fun e => negb (String.eqb (fst e) path)) fs.

(** [file.save(path)] *)
Definition file_save (fs : FileSystem) (path : string) (f : FileStorage) : FileSystem :=
  (path, stream f) :: os_remove fs path.

(** [allowed_file(filename)] *)
Definition allowed_file (cfg : Config) (fname : string) : bool :=
  PyStr.contains "."%char fname &&
  match nth_error (PyStr.rsplit1 "."%char fname) 1 with
  | Some ext => existsb (String.eqb (PyStr.lower ext)) (ALLOWED_EXTENSIONS cfg)
  | None => false
  end.

(** [save_image(file)]: [uuid_hex] is the value of [uuid.uuid4().hex] drawn
    by the call. The result is the returned name, or [None], and the file
    system after the call. *)
Definition save_image (cfg : Config) (uuid_hex : string) (file : option FileStorage)
    (fs : FileSystem) : option string * FileSystem :=
  match file with
  | Some f =>
      if file_truthy file && allowed_file cfg (filename f) then
        match nth_error (PyStr.rsplit1 "."%char (filename f)) 1 with
        | Some e =>
            let ext := PyStr.lower e in
            let fname := (uuid_hex ++ "." ++ ext)%string in
            let filepath := os_path_join (UPLOAD_FOLDER cfg) fname in
            (Some fname, file_save fs filepath f)
        | None => (None, fs)
        end
      else (None, fs)
  | None => (None, fs)
  end.

(* ------------------------------------------------------------------ *)
(** ** forms.py: PostForm *)
(* ------------------------------------------------------------------ *)

(** A [PostForm] bound to a request: the [data] of each field, whether the
    request is a submission (POST) and whether its CSRF token is valid. A
    text field the request does not carry has [data = None]. *)
Record PostForm := mkPostForm {
  form_title : option string;
  form_excerpt : option string;
  form_content : option string;
  form_cover_image : option FileStorage;
  form_tags : option string;
  form_is_published : bool;
  form_is_featured : bool;
  is_submitted : bool;
  csrf_valid : bool
}.

(** [DataRequired]: the data is true and, for a string, not blank. *)
Definition DataRequired (data : option string) : bool :=
  match data with
  | Some s => PyStr.truthy s && PyStr.truthy (PyStr.strip s)
  | None => false
  end.

(** [Length(min, max)]; [None] stands for the default [-1] (no bound). *)
Definition Length (min max : option nat) (data : option string) : bool :=
  let length := match data with
                | Some s => String.length s
                | None => 0
                end in
  match min with Some m => Nat.leb m length | None => true end &&
  match max with Some m => Nat.leb length m | None => true end.

(** [FileAllowed(upload_set)] *)
Definition FileAllowed (upload_set : list string) (data : option FileStorage) : bool :=
  match data with
  | Some f =>
      if file_truthy data
      then existsb (fun x => PyStr.endswith (PyStr.lower (filename f)) ("." ++ x))
                   upload_set
      else true
  | None => true
  end.

(** [form.validate()] for [PostForm]: [title], [excerpt] and [cover_image]
    carry validators; [content], [tags] and the two check boxes carry none. *)
Definition PostForm_validate (form : PostForm) : bool :=
  csrf_valid form &&
  (DataRequired (form_title form) && Length (Some 1) (Some 200) (form_title form)) &&
  Length None (Some 500) (form_excerpt form) &&
  FileAllowed ["jpg"; "jpeg"; "png"; "gif"; "webp"] (form_cover_image form).

(** [form.validate_on_submit()] *)
Definition validate_on_submit (form : PostForm) : bool :=
  is_submitted form && PostForm_validate form.

(* ------------------------------------------------------------------ *)
(** ** Requests, responses and the state a handler runs in *)
(* ------------------------------------------------------------------ *)

(** What a handler works on: the database, the file system, the user id the
    login session holds, and the messages flashed so far (oldest first). *)
Record World := mkWorld {
  db : DB;
  files : FileSystem;
  session_user_id : option Z;
  flashes : list (string * string)
}.

Inductive Response : Type :=
| Redirect (endpoint : string)       (* redirect(url_for(endpoint)) *)
| RedirectUrl (url : string)         (* redirect(url) *)
| Render (template : string)         (* render_template(template, ...) *)
| Abort (code : Z)                   (* abort(code) / first_or_404 *)
| InternalServerError (exc : string) (* an exception no handler catches *)
| NoResponse.                        (* the handler does not return *)

Definition flash (message category : string) (w : World) : World :=
  mkWorld (db w) (files w) (session_user_id w) (flashes w ++ [(message, category)]).

Definition with_db (w : World) (d : DB) : World :=
  mkWorld d (files w) (session_user_id w) (flashes w).

Definition with_files (w : World) (fs : FileSystem) : World :=
  mkWorld (db w) fs (session_user_id w) (flashes w).

(** [load_user]: [User.query.get(int(id))] *)
Definition load_user (d : DB) (id : Z) : option User :=
  find (fun u => Z.eqb (user_id u) id) (users d).

(** [current_user]: [None] is the anonymous user. *)
Definition current_user (w : World) : option User :=
  match session_user_id w with
  | Some id => load_user (db w) id
  | None => None
  end.

(** What [@login_required] answers to an anonymous user. *)
Definition unauthorized (w : World) : Response * World :=
  (Redirect "auth.login", flash "Please log in to access this page." "info" w).

(** The guard common to the admin handlers: [@login_required], then
    [if not current_user.is_admin: abort(403)]. *)
Definition admin_required (w : World) (k : User -> Response * World)
    : Response * World :=
  match current_user w with
  | None => unauthorized w
  | Some user => if negb (is_admin user) then (Abort 403, w) else k user
  end.

(* ------------------------------------------------------------------ *)
(** ** The tags of a post *)
(* ------------------------------------------------------------------ *)

(** [[t.strip() for t in data.split(',') if t.strip()]] *)
Definition parse_tag_names (data : string) : list string :=
  map PyStr.strip
      (filter (fun t => PyStr.truthy (PyStr.strip t)) (PyStr.split ","%char data)).

(** [for tag_name in tag_names: tag = Tag.get_or_create(tag_name);
    post.tags.append(tag)]: the tags appended, in order. *)
Fixpoint get_or_create_all `{External} (tag_names : list string) (s : Session)
    : Result (list Tag * Session) :=
  match tag_names with
  | [] => Ok ([], s)
  | tag_name :: rest =>
      r <- Tag_get_or_create tag_name s ;;
      r' <- get_or_create_all rest (snd r) ;;
      Ok (fst r :: fst r', snd r')
  end.

(** [post.tags]: the tag ids associated with post [pid]. *)
Definition post_tag_ids (d : DB) (pid : Z) : list Z :=
  map snd (filter (fun r => Z.eqb (fst r) pid) (post_tags d)).

Definition mem_Z (x : Z) (l : list Z) : bool := existsb (Z.eqb x) l.

Fixpoint has_dup (l : list Z) : bool :=
  match l with
  | [] => false
  | x :: r => mem_Z x r || has_dup r
  end.

(** The unit of work on the [post_tags] relationship of post [pid]: [old] is
    the collection as the store holds it, [new] the collection now. Rows of
    tags no longer in the collection are deleted, a row is inserted for every
    element that was not in it, and the table's primary key
    [(post_id, tag_id)] rejects a row inserted twice. *)
Definition flush_post_tags (pid : Z) (old new : list Z) (rows : list (Z * Z))
    : Result (list (Z * Z)) :=
  let added := filter (fun t => negb (mem_Z t old)) new in
  let removed := filter (fun t => negb (mem_Z t new)) old in
  if has_dup added
  then IntegrityError "UNIQUE constraint failed: post_tags.post_id, post_tags.tag_id"
  else Ok (filter (fun r => negb (Z.eqb (fst r) pid && mem_Z (snd r) removed)) rows
           ++ map (pair pid) added).

(** A [nullable=False] column refuses [None]. *)
Definition not_null {A : Type} (column : string) (x : option A) : Result A :=
  match x with
  | Some a => Ok a
  | None => IntegrityError ("NOT NULL constraint failed: " ++ column)
  end.

(** [db.session.add(post)] for a new post: [content] is declared
    [nullable=False] and [slug] [unique=True]. *)
Definition session_add_post (d : DB) (p : Post) : Result DB :=
  match content p with
  | None => IntegrityError "NOT NULL constraint failed: posts.content"
  | Some _ =>
      if existsb (fun r => String.eqb (slug r) (slug p)) (posts d)
      then IntegrityError "UNIQUE constraint failed: posts.slug"
      else Ok (mkDB (users d) (posts d ++ [p]) (tags d) (post_tags d) (site_settings d))
  end.

(** [db.session.delete(post)]: the row goes, and with it the rows of the
    [secondary] table that belong to the post; no cascade reaches [tags]. *)
Definition session_delete_post (d : DB) (p : Post) : DB :=
  mkDB (users d)
       (filter (fun r => negb (Z.eqb (post_id r) (post_id p))) (posts d))
       (tags d)
       (filter (fun r => negb (Z.eqb (fst r) (post_id p))) (post_tags d))
       (site_settings d).

(* ------------------------------------------------------------------ *)
(** ** blog/routes.py: the handlers *)
(* ------------------------------------------------------------------ *)

(** [Post.query.filter_by(slug=slug, is_published=True).first()] *)
Definition Post_query_published_by_slug (d : DB) (s : string) : option Post :=
  find (fun p => String.eqb (slug p) s && Bool.eqb (is_published p) true) (posts d).

(** [view_post(slug)]; the related posts are read, not written. *)
Definition view_post (now : datetime) (s : string) (w : World) : Response * World :=
  match Post_query_published_by_slug (db w) s with
  | None => (Abort 404, w)
  | Some post =>
      let '(_, d') := Post_increment_views now (db w) post in
      (Render "post.html", with_db w d')
  end.

(** The cover image step of [create_post]: the stored name, if any. *)
Definition create_cover_image (cfg : Config) (uuid_hex : string) (form : PostForm)
    (fs : FileSystem) : option string * FileSystem :=
  if file_truthy (form_cover_image form)
  then save_image cfg uuid_hex (form_cover_image form) fs
  else (None, fs).

(** The tag step shared by [create_post] and [edit_post], from the first
    [Tag.get_or_create] to the flush of the last pending tag at
    [db.session.commit()]: the tags appended to [post.tags] and the store
    with every one of them written. *)
Definition form_tag_objects `{External} (form : PostForm) (d : DB)
    : Result (list Tag * DB) :=
  r <- (if PyStr.truthy_opt (form_tags form)
        then match form_tags form with
             | Some data => get_or_create_all (parse_tag_names data) (mkSession d [])
             | None => Ok ([], mkSession d [])
             end
        else Ok ([], mkSession d [])) ;;
  d' <- flush_tags (pending_tags (snd r)) (stored (snd r)) ;;
  Ok (fst r, d').

(** [create_post()]. The new [Post] object carries from the start what the
    INSERT fills in: its id, [views = 0] and the two creation timestamps. A
    title of [None] cannot pass [DataRequired]. *)
Definition create_post `{External} (cfg : Config) (now : datetime) (uuid_hex : string)
    (form : PostForm) (w : World) : Response * World :=
  admin_required w (fun user =>
    if validate_on_submit form then
      match form_title form with
      | None => (InternalServerError "TypeError", w)
      | Some ttl =>
          let post := mkPost (next_id (map post_id (posts (db w))))
                             ttl "" (form_excerpt form) (form_content form) None
                             (form_is_published form) (form_is_featured form)
                             (Some 0%Z) now now None (user_id user) in
          match Post_generate_slug (db w) post with
          | None => (NoResponse, w)
          | Some post =>
              let '(image, fs) := create_cover_image cfg uuid_hex form (files w) in
              let post := if PyStr.truthy_opt image
                          then set_cover_image post image else post in
              let post := if form_is_published form
                          then set_published_at post (Some now) else post in
              let committed :=
                r <- form_tag_objects form (db w) ;;
                d1 <- session_add_post (snd r) post ;;
                rows <- flush_post_tags (post_id post) [] (map tag_id (fst r))
                                        (post_tags d1) ;;
                Ok (mkDB (users d1) (posts d1) (tags d1) rows (site_settings d1)) in
              match committed with
              | Ok d' =>
                  (Redirect "blog.admin_posts",
                   flash "Post created successfully!" "success"
                         (mkWorld d' fs (session_user_id w) (flashes w)))
              | IntegrityError e => (InternalServerError e, with_files w fs)
              end
          end
      end
    else (Render "admin/post_form.html", w)).

(** [form.cover_image.data] in [edit_post]. The form is [PostForm(obj=post)]:
    the field is first filled from [post.cover_image], and the request
    replaces that value only when it carries a file with a name. *)
Inductive CoverData : Type :=
| CoverNone                        (* None *)
| CoverUpload (file : FileStorage) (* the uploaded file *)
| CoverStored (name : string).     (* post.cover_image, a str *)

Definition edit_cover_data (form : PostForm) (post : Post) : CoverData :=
  match form_cover_image form with
  | Some file =>
      if file_truthy (Some file) then CoverUpload file
      else match cover_image post with
           | Some name => CoverStored name
           | None => CoverNone
           end
  | None =>
      match cover_image post with
      | Some name => CoverStored name
      | None => CoverNone
      end
  end.

(** A step that returns or raises an exception no handler catches. *)
Inductive Try (A : Type) : Type :=
| Returns (a : A)
| Raises (exc : string).

Arguments Returns {A} a.
Arguments Raises {A} exc.

(** The cover image step of [edit_post]: the post's image name after it. When
    the field still holds the stored name, a non-empty [str], the test
    [if form.cover_image.data] passes and [save_image] reads [file.filename]
    of a [str], which raises [AttributeError]. *)
Definition edit_cover_image (cfg : Config) (uuid_hex : string) (form : PostForm)
    (post : Post) (fs : FileSystem) : Try (option string * FileSystem) :=
  match edit_cover_data form post with
  | CoverUpload file =>
      match save_image cfg uuid_hex (Some file) fs with
      | (Some fname, fs1) =>
          let fs2 :=
            match cover_image post with
            | Some old =>
                if PyStr.truthy old then
                  let old_path := os_path_join (UPLOAD_FOLDER cfg) old in
                  if os_path_exists fs1 old_path then os_remove fs1 old_path else fs1
                else fs1
            | None => fs1
            end in
          Returns (Some fname, fs2)
      | (None, fs1) => Returns (cover_image post, fs1)
      end
  | CoverStored name =>
      if PyStr.truthy name then Raises "AttributeError"
      else Returns (cover_image post, fs)
  | CoverNone => Returns (cover_image post, fs)
  end.

(** [post.tags.clear()] once flushed: the post's rows of [post_tags] are
    deleted. The first [Tag.query] of the tag loop autoflushes the session,
    and without one the commit does; either way the rows are gone before a
    row is inserted for a tag appended after the [clear()]. *)
Definition clear_post_tags (pid : Z) (rows : list (Z * Z)) : list (Z * Z) :=
  filter (fun r => negb (Z.eqb (fst r) pid)) rows.

(** [edit_post(id)]. A title of [None] cannot pass [DataRequired]. The tags
    the post had are cleared before any is appended, so every tag of the form
    is a row to insert. *)
Definition edit_post `{External} (cfg : Config) (now : datetime) (uuid_hex : string)
    (id : Z) (form : PostForm) (w : World) : Response * World :=
  admin_required w (fun _ =>
    match Post_query_get (db w) id with
    | None => (Abort 404, w)
    | Some post =>
        if validate_on_submit form then
          match form_title form with
          | None => (InternalServerError "TypeError", w)
          | Some ttl =>
              let was_published := is_published post in
              let edited :=
                mkPost (post_id post) ttl (slug post) (form_excerpt form)
                       (form_content form) (cover_image post)
                       (form_is_published form) (form_is_featured form)
                       (views post) (created_at post) (updated_at post)
                       (published_at post) (author_id post) in
              let edited := if negb was_published && form_is_published form
                            then set_published_at edited (Some now) else edited in
              match edit_cover_image cfg uuid_hex form post (files w) with
              | Raises exc => (InternalServerError exc, w)
              | Returns (image, fs) =>
                  let edited := set_cover_image edited image in
                  let committed :=
                    r <- form_tag_objects form (db w) ;;
                    _ <- not_null "posts.content" (content edited) ;;
                    rows <- flush_post_tags (post_id post) [] (map tag_id (fst r))
                              (clear_post_tags (post_id post) (post_tags (snd r))) ;;
                    let d1 := commit_post now (snd r) edited in
                    Ok (mkDB (users d1) (posts d1) (tags d1) rows (site_settings d1)) in
                  match committed with
                  | Ok d' =>
                      (Redirect "blog.admin_posts",
                       flash "Post updated successfully!" "success"
                             (mkWorld d' fs (session_user_id w) (flashes w)))
                  | IntegrityError e => (InternalServerError e, with_files w fs)
                  end
              end
          end
        else (Render "admin/post_form.html", w)
    end).

(** [delete_post(id)] *)
Definition delete_post (cfg : Config) (id : Z) (w : World) : Response * World :=
  admin_required w (fun _ =>
    match Post_query_get (db w) id with
    | None => (Abort 404, w)
    | Some post =>
        let fs :=
          if PyStr.truthy_opt (cover_image post) then
            match cover_image post with
            | Some name =>
                let image_path := os_path_join (UPLOAD_FOLDER cfg) name in
                if os_path_exists (files w) image_path
                then os_remove (files w) image_path else files w
            | None => files w
            end
          else files w in
        (Redirect "blog.admin_posts",
         flash "Post deleted successfully!" "success"
               (mkWorld (session_delete_post (db w) post) fs
                        (session_user_id w) (flashes w)))
    end).

(** Truth value of a [datetime] that may be [None]: every [datetime] is
    true. *)
Definition is_set (t : option datetime) : bool :=
  match t with
  | Some _ => true
  | None => false
  end.

(** [toggle_publish(id)] *)
Definition toggle_publish (now : datetime) (id : Z) (w : World) : Response * World :=
  admin_required w (fun _ =>
    match Post_query_get (db w) id with
    | None => (Abort 404, w)
    | Some post =>
        let is_published_ := negb (is_published post) in
        let published_at_ :=
          if is_published_ && negb (is_set (published_at post))
          then Some now else published_at post in
        let post' := mkPost (post_id post) (title post) (slug post) (excerpt post)
                            (content post) (cover_image post) is_published_
                            (is_featured post) (views post) (created_at post)
                            (updated_at post) published_at_ (author_id post) in
        let status := if is_published_ then "published" else "unpublished" in
        (Redirect "blog.admin_posts",
         flash ("Post " ++ status ++ " successfully!") "success"
               (with_db w (commit_post now (db w) post')))
    end).

(** [nows] public views of the post at [s], one after the other, the i-th at
    time [nows[i]]. *)
Fixpoint view_post_times (nows : list datetime) (s : string) (w : World) : World :=
  match nows with
  | [] => w
  | now :: rest => view_post_times rest s (snd (view_post now s w))
  end.

(** The primary key of [posts]: no two rows share an id. *)
Definition posts_primary_key (d : DB) : Prop := NoDup (map post_id (posts d)).

(* ------------------------------------------------------------------ *)
(** ** auth/routes.py: login *)
(* ------------------------------------------------------------------ *)

(** A [LoginForm] bound to a request. The form class is declared in
    [app/auth/forms.py]; the handler reads the three fields below, and
    [login_validate_on_submit] is what [form.validate_on_submit()] answers
    for the request. *)
Record LoginForm := mkLoginForm {
  login_username : string;
  login_password : string;
  remember_me : bool;
  login_validate_on_submit : bool
}.

(** [user.set_password(password)] *)
Definition User_set_password `{External} (u : User) (password : string) : User :=
  mkUser (user_id u) (username u) (email u) (generate_password_hash password)
         (is_admin u) (user_created_at u).

(** [User.query.filter_by(username=name).first()] *)
Definition User_query_filter_by_username (d : DB) (name : string) : option User :=
  find (fun u => String.eqb (username u) name) (users d).

(** [user.check_password(password)] *)
Definition User_check_password `{External} (u : User) (password : string) : bool :=
  check_password_hash (password_hash u) password.

(** [login_user(user, remember)]: the session now holds the user's id. *)
Definition login_user (u : User) (w : World) : World :=
  mkWorld (db w) (files w) (Some (user_id u)) (flashes w).

(** [s.startswith('/')] *)
Definition startswith_slash (s : string) : bool :=
  match s with
  | String c _ => Ascii.eqb c "/"%char
  | EmptyString => false
  end.

(** [login()]; [next] is [request.args.get('next')]. *)
Definition login `{External} (form : LoginForm) (next : option string) (w : World)
    : Response * World :=
  match current_user w with
  | Some _ => (Redirect "blog.admin_dashboard", w)
  | None =>
      if login_validate_on_submit form then
        match User_query_filter_by_username (db w) (login_username form) with
        | None =>
            (Redirect "auth.login", flash "Invalid username or password" "error" w)
        | Some user =>
            if negb (User_check_password user (login_password form)) then
              (Redirect "auth.login", flash "Invalid username or password" "error" w)
            else if negb (is_admin user) then
              (Redirect "auth.login",
               flash "Access denied. Admin privileges required." "error" w)
            else
              let w' := flash "Welcome back!" "success" (login_user user w) in
              match next with
              | Some next_page =>
                  if negb (PyStr.truthy next_page) || negb (startswith_slash next_page)
                  then (Redirect "blog.admin_dashboard", w')
                  else (RedirectUrl next_page, w')
              | None => (Redirect "blog.admin_dashboard", w')
              end
        end
      else (Render "auth/login.html", w)
  end.

(* ------------------------------------------------------------------ *)
(** ** auth/routes.py: logout and change_password *)
(* ------------------------------------------------------------------ *)

(** [@login_required] alone. *)
Definition login_required (w : World) (k : User -> Response * World)
    : Response * World :=
  match current_user w with
  | None => unauthorized w
  | Some user => k user
  end.

(** [logout_user()] *)
Definition logout_user (w : World) : World :=
  mkWorld (db w) (files w) None (flashes w).

(** [logout()] *)
Definition logout (w : World) : Response * World :=
  login_required w (fun _ =>
    (Redirect "blog.index", flash "You have been logged out." "info" (logout_user w))).

(** A [ChangePasswordForm] bound to a request; as for [LoginForm], the class
    is declared in [app/auth/forms.py] and [change_validate_on_submit] is
    what [form.validate_on_submit()] answers. *)
Record ChangePasswordForm := mkChangePasswordForm {
  current_password : string;
  new_password : string;
  confirm_password : string;
  change_validate_on_submit : bool
}.

(** UPDATE of the row whose primary key is [u]'s. *)
Fixpoint update_user_row (u : User) (rows : list User) : list User :=
  match rows with
  | [] => []
  | r :: rest =>
      if Z.eqb (user_id r) (user_id u) then u :: rest
      else r :: update_user_row u rest
  end.

(** [db.session.commit()] with the user object [u] modified. *)
Definition commit_user (d : DB) (u : User) : DB :=
  mkDB (update_user_row u (users d)) (posts d) (tags d) (post_tags d)
       (site_settings d).

(** [change_password()] *)
Definition change_password `{External} (form : ChangePasswordForm) (w : World)
    : Response * World :=
  login_required w (fun user =>
    if change_validate_on_submit form then
      if negb (User_check_password user (current_password form)) then
        (Redirect "auth.change_password",
         flash "Current password is incorrect." "error" w)
      else if negb (String.eqb (new_password form) (confirm_password form)) then
        (Redirect "auth.change_password",
         flash "New passwords do not match." "error" w)
      else
        let user' := User_set_password user (new_password form) in
        (Redirect "blog.admin_dashboard",
         flash "Your password has been updated." "success"
               (with_db w (commit_user (db w) user')))
    else (Render "auth/change_password.html", w)).

(* ------------------------------------------------------------------ *)
(** ** forms.py: AboutForm; blog/routes.py: about and admin_about *)
(* ------------------------------------------------------------------ *)

Record AboutForm := mkAboutForm {
  form_about_title : option string;
  form_about_intro : option string;
  form_about_content : option string;
  form_twitter_url : option string;
  form_github_url : option string;
  form_linkedin_url : option string;
  about_is_submitted : bool;
  about_csrf_valid : bool
}.

(** [form.validate_on_submit()] for [AboutForm]: the title is at most 200
    characters long and the introduction at most 500. *)
Definition AboutForm_validate_on_submit (form : AboutForm) : bool :=
  about_is_submitted form &&
  (about_csrf_valid form &&
   Length None (Some 200) (form_about_title form) &&
   Length None (Some 500) (form_about_intro form)).

(** [x or ''] for a string that may be [None]. *)
Definition or_empty (x : option string) : string :=
  match x with
  | Some s => s
  | None => ""
  end.

(** The [about_data] dictionary of [about()], as its items in order. *)
Definition about_data (d : DB) : list (string * option string) :=
  [ ("about_title", SiteSettings_get d "about_title" (Some "Welcome to my blog"));
    ("about_intro", SiteSettings_get d "about_intro"
                      (Some "Sharing thoughts, stories, and ideas with the world."));
    ("about_content", SiteSettings_get d "about_content" (Some ""));
    ("twitter_url", SiteSettings_get d "twitter_url" (Some ""));
    ("github_url", SiteSettings_get d "github_url" (Some ""));
    ("linkedin_url", SiteSettings_get d "linkedin_url" (Some "")) ].

(** [about()] *)
Definition about (w : World) : Response * World := (Render "about.html", w).

(** The six [SiteSettings.set] calls of [admin_about], in order; [clock k]
    is the time at which the setting [k] is committed. *)
Definition save_about_settings (clock : string -> datetime) (form : AboutForm)
    (d : DB) : DB :=
  let d := snd (SiteSettings_set (clock "about_title") d "about_title"
                  (Some (or_empty (form_about_title form)))) in
  let d := snd (SiteSettings_set (clock "about_intro") d "about_intro"
                  (Some (or_empty (form_about_intro form)))) in
  let d := snd (SiteSettings_set (clock "about_content") d "about_content"
                  (Some (or_empty (form_about_content form)))) in
  let d := snd (SiteSettings_set (clock "twitter_url") d "twitter_url"
                  (Some (or_empty (form_twitter_url form)))) in
  let d := snd (SiteSettings_set (clock "github_url") d "github_url"
                  (Some (or_empty (form_github_url form)))) in
  snd (SiteSettings_set (clock "linkedin_url") d "linkedin_url"
         (Some (or_empty (form_linkedin_url form)))).

(** [admin_about()] *)
Definition admin_about (clock : string -> datetime) (form : AboutForm) (w : World)
    : Response * World :=
  admin_required w (fun _ =>
    if AboutForm_validate_on_submit form then
      (Redirect "blog.admin_about",
       flash "About page updated successfully!" "success"
             (with_db w (save_about_settings clock form (db w))))
    else (Render "admin/about_form.html", w)).

(* ------------------------------------------------------------------ *)
(** ** blog/routes.py: the statistics of admin_dashboard *)
(* ------------------------------------------------------------------ *)

(** [Post.query.count()] *)
Definition total_posts (d : DB) : Z := Z.of_nat (length (posts d)).

(** [Post.query.filter_by(is_published=True).count()] *)
Definition published_posts (d : DB) : Z :=
  Z.of_nat (length (filter (fun p => Bool.eqb (is_published p) true) (posts d))).

(** [Post.query.filter_by(is_published=False).count()] *)
Definition draft_posts (d : DB) : Z :=
  Z.of_nat (length (filter (fun p => Bool.eqb (is_published p) false) (posts d))).

(** SQL [SUM] over a column: [NULL]s are skipped, and the sum of no value at
    all is [NULL]. *)
Fixpoint sql_sum (column : list (option Z)) : option Z :=
  match column with
  | [] => None
  | None :: rest => sql_sum rest
  | Some v :: rest =>
      match sql_sum rest with
      | Some s => Some (v + s)%Z
      | None => Some v
      end
  end.

(** [db.session.query(db.func.sum(Post.views)).scalar() or 0] *)
Definition total_views (d : DB) : Z := or_0 (sql_sum (map views (posts d))).

(* ------------------------------------------------------------------ *)
(** ** app/__init__.py: the bootstrap administrator *)
(* ------------------------------------------------------------------ *)

(** [db.session.add(user)] for a new user: [username] and [email] are
    declared [unique=True]. *)
Definition session_add_user (d : DB) (u : User) : Result DB :=
  if existsb (fun r => String.eqb (username r) (username u)) (users d)
  then IntegrityError "UNIQUE constraint failed: users.username"
  else if existsb (fun r => String.eqb (email r) (email u)) (users d)
  then IntegrityError "UNIQUE constraint failed: users.email"
  else Ok (mkDB (users d ++ [u]) (posts d) (tags d) (post_tags d) (site_settings d)).

(** The last step of [create_app]: create the admin user if not exists. *)
Definition create_admin_if_absent `{External} (now : datetime) (d : DB) : Result DB :=
  match User_query_filter_by_username d "admin" with
  | Some _ => Ok d
  | None =>
      let admin := mkUser (next_id (map user_id (users d))) "admin"
                          "admin@example.com" "" true now in
      session_add_user d (User_set_password admin "admin123")
  end.

(* ------------------------------------------------------------------ *)
(** ** models.py: Post.reading_time *)
(* ------------------------------------------------------------------ *)

(** [\w] on ASCII: a letter, a digit or the underscore. *)
Definition is_word_char (c : ascii) : bool :=
  let n := nat_of_ascii c in
  (Nat.leb 48 n && Nat.leb n 57) || (Nat.leb 65 n && Nat.leb n 90) ||
  (Nat.leb 97 n && Nat.leb n 122) || Nat.eqb n 95.

(** [len(re.findall(r'\w+', s))]: the number of maximal runs of word
    characters; [in_word] tells that the previous character was one. *)
Fixpoint count_words (in_word : bool) (s : string) : nat :=
  match s with
  | EmptyString => 0
  | String c r =>
      if is_word_char c
      then (if in_word then 0 else 1) + count_words true r
      else count_words false r
  end.

(** [round(n / d)] for integers [n >= 0] and [d > 0]: the nearest integer to
    the quotient, the even one of the two when the quotient lies half way.
    The float quotient is within 2^-10 of the exact one for [n] below
    [200 * 2^44], and a half is a float, so the rounding is that of the
    exact quotient. *)
Definition round_div (n d : Z) : Z :=
  let q := (n / d)%Z in
  let r := (n mod d)%Z in
  if (2 * r <? d)%Z then q
  else if (d <? 2 * r)%Z then (q + 1)%Z
  else if Z.even q then q else (q + 1)%Z.

(** [post.reading_time] *)
Definition Post_reading_time (p : Post) : Z :=
  let word_count := Z.of_nat (count_words false (or_empty (content p))) in
  Z.max 1 (round_div word_count 200).

(* ------------------------------------------------------------------ *)
(** ** blog/routes.py: the public listings *)
(* ------------------------------------------------------------------ *)

(** SQL [text LIKE pattern] as SQLite evaluates it: [%] stands for any run
    of characters, [_] for any one character, and letters match without
    regard to case. *)
Fixpoint sql_like (pattern : string) : string -> bool :=
  match pattern with
  | EmptyString => fun text => String.eqb text ""
  | String c rest =>
      if Ascii.eqb c "%"%char then
        fix any (text : string) : bool :=
          sql_like rest text ||
          match text with
          | EmptyString => false
          | String _ text' => any text'
          end
      else if Ascii.eqb c "_"%char then
        fun text =>
          match text with
          | EmptyString => false
          | String _ text' => sql_like rest text'
          end
      else
        fun text =>
          match text with
          | EmptyString => false
          | String d text' =>
              Ascii.eqb (PyStr.lower_char c) (PyStr.lower_char d) && sql_like rest text'
          end
  end.

(** [column.ilike(pattern)], which is [lower(column) LIKE lower(pattern)];
    on a [NULL] column the comparison is not true. *)
Definition ilike (column : option string) (pattern : string) : bool :=
  match column with
  | Some text => sql_like (PyStr.lower pattern) (PyStr.lower text)
  | None => false
  end.


(** [a <= b] on the values of a nullable DateTime column as SQLite orders
    them: [NULL] is below every time. *)
Definition null_first_le (a b : option datetime) : Prop :=
  match a, b with
  | None, _ => True
  | Some _, None => False
  | Some x, Some y => (x <= y)%Z
  end.


(** [query.order_by(Post.published_at.desc())]: the rows [sorted] can be
    returned for [rows]; rows with the same time come in an order SQL does
    not fix. *)
Definition order_by_published_at_desc (rows sorted : list Post) : Prop :=
  Permutation rows sorted /\
  StronglySorted (fun a b => null_first_le (published_at b) (published_at a)) sorted.



(** [query.paginate(page=page, per_page=per_page, error_out=False).items]
    on the ordered rows: a page number below one counts as one. *)
Definition paginate {A : Type} (page per_page : Z) (sorted : list A) : list A :=
  let page := if (page <? 1)%Z then 1%Z else page in
  firstn (Z.to_nat per_page) (skipn (Z.to_nat ((page - 1) * per_page)) sorted).


(** [index()]: the featured post and the page of recent posts that the
    template gets. *)
Definition index (cfg : Config) (page : Z) (d : DB)
    (featured_post : option Post) (posts_ : list Post) : Prop :=
  exists featured sorted,
    order_by_published_at_desc
      (filter (fun p => Bool.eqb (is_published p) true && Bool.eqb (is_featured p) true)
              (posts d)) featured /\
    featured_post = hd_error featured /\
    order_by_published_at_desc
      (filter (fun p => Bool.eqb (is_published p) true &&
                        match featured_post with
                        | Some f => negb (Z.eqb (post_id p) (post_id f))
                        | None => true
                        end)
              (posts d)) sorted /\
    posts_ = paginate page (POSTS_PER_PAGE cfg) sorted.

(* ------------------------------------------------------------------ *)
(** ** What the schema promises about a database *)
(* ------------------------------------------------------------------ *)

(** The primary keys and [unique=True] columns of [posts], [tags] and
    [post_tags]. *)
Definition keys_unique (d : DB) : Prop :=
  NoDup (map post_id (posts d)) /\
  NoDup (map slug (posts d)) /\
  NoDup (map tag_id (tags d)) /\
  NoDup (map tag_name (tags d)) /\
  NoDup (map tag_slug (tags d)) /\
  NoDup (post_tags d).

(** The part of it that concerns [tags]. *)
Definition tags_unique (d : DB) : Prop :=
  NoDup (map tag_id (tags d)) /\ NoDup (map tag_name (tags d)) /\
  NoDup (map tag_slug (tags d)).

(** The sessions [Tag.get_or_create] leaves behind: at most one tag is
    pending, and it carries the id that follows those of the store. *)
Definition pending_is_new (s : Session) : Prop :=
  pending_tags s = [] \/
  exists t, pending_tags s = [t] /\ tag_id t = next_id (map tag_id (tags (stored s))).

(** The foreign keys of [post_tags]: every row names a post and a tag. *)
Definition references_exist (d : DB) : Prop :=
  forall a, In a (post_tags d) ->
            In (fst a) (map post_id (posts d)) /\ In (snd a) (map tag_id (tags d)).

(** Keys and references together. *)
Definition schema_holds (d : DB) : Prop := keys_unique d /\ references_exist d.

(** Every published post carries the time of its publication. *)
Definition published_stamped (d : DB) : Prop :=
  forall p, In p (posts d) -> is_published p = true -> is_set (published_at p) = true.

(** The unique columns of [site_settings] and [users]. *)
Definition setting_keys_unique (d : DB) : Prop := NoDup (map key (site_settings d)).

Definition users_unique (d : DB) : Prop :=
  NoDup (map user_id (users d)) /\ NoDup (map username (users d)) /\
  NoDup (map email (users d)).

(* ------------------------------------------------------------------ *)
(** ** An implementation of the imported functions, to run the model *)
(* ------------------------------------------------------------------ *)

Module Sample.

Definition is_alnum (c : ascii) : bool :=
  let n := nat_of_ascii c in
  (Nat.leb 48 n && Nat.leb n 57) || (Nat.leb 97 n && Nat.leb n 122).

(** Runs of characters other than letters and digits become one hyphen. *)
Fixpoint hyphenate (s : string) : string :=
  match s with
  | EmptyString => EmptyString
  | String c r =>
      if is_alnum c then String c (hyphenate r)
      else match hyphenate r with
           | String "-"%char _ as r' => r'
           | r' => String "-"%char r'
           end
  end.

Definition drop_hyphen (s : string) : string :=
  match s with
  | String "-"%char r => r
  | _ => s
  end.

Fixpoint drop_last_hyphen (s : string) : string :=
  match s with
  | EmptyString => EmptyString
  | String c r =>
      match r with
      | EmptyString => if Ascii.eqb c "-"%char then EmptyString else s
      | _ => String c (drop_last_hyphen r)
      end
  end.

(** What python-slugify answers on ASCII letters, digits, blanks and
    punctuation: lower case, words joined by single hyphens. *)
Definition ascii_slugify (s : string) : string :=
  drop_last_hyphen (drop_hyphen (hyphenate (PyStr.lower s))).

(** A stand-in for werkzeug's salted hashes: the password behind a tag. *)
Definition tagged_hash (password : string) : string := "plain$" ++ password.

#[export] Instance external : External := {
  slugify := ascii_slugify;
  generate_password_hash := tagged_hash;
  check_password_hash := fun pwhash password => String.eqb pwhash (tagged_hash password);
  str_lower := PyStr.lower;
  str_strip := PyStr.strip
}.

(** A small site: an administrator, a reader without admin rights, one
    published post carrying one tag. *)
Definition admin : User :=
  mkUser 1 "admin" "admin@example.com" (tagged_hash "admin123") true 0.

Definition reader : User :=
  mkUser 2 "reader" "reader@example.com" (tagged_hash "secret") false 0.

Definition hello : Post :=
  mkPost 1 "Hello World" "hello-world" None (Some "Body") None true false
         (Some 0%Z) 10 10 (Some 10%Z) 1.

Definition python : Tag := mkTag 1 "python" "python".

Definition site : DB := mkDB [admin; reader] [hello] [python] [(1%Z, 1%Z)] [].

Definition cfg : Config := base_config "/srv/blog".

(** The site with the administrator logged in, and with nobody logged in. *)
Definition as_admin : World := mkWorld site [] (Some 1%Z) [].

Definition as_anonymous : World := mkWorld site [] None [].

(** A submitted form that passes validation. *)
Definition submission (ttl body : string) (publish : bool) : PostForm :=
  mkPostForm (Some ttl) (Some "") (Some body) None None publish false true true.

(** A post object not stored yet. *)
Definition draft : Post :=
  mkPost 2 "Fresh Post" "" None (Some "Text") None false false (Some 0%Z) 20 20 None 1.

Definition photo : FileStorage := mkFileStorage "photo.PNG" "bytes".

(** The site with the reader logged in. *)
Definition as_reader : World := mkWorld site [] (Some 2%Z) [].

(** A post with a cover image, its file in the upload folder, and the
    administrator logged in. *)
Definition illustrated : Post :=
  mkPost 1 "Hello World" "hello-world" None (Some "Body") (Some "old.png") true false
         (Some 0%Z) 10 10 (Some 10%Z) 1.

Definition gallery : World :=
  mkWorld (mkDB [admin; reader] [illustrated] [python] [(1%Z, 1%Z)] [])
          [("/srv/blog/app/static/uploads/old.png", "old bytes")] (Some 1%Z) [].

(** A valid submission with a cover image, and one with tags. *)
Definition with_photo : PostForm :=
  mkPostForm (Some "Hello World") (Some "") (Some "Body") (Some photo) None
             true false true true.

Definition with_tags : PostForm :=
  mkPostForm (Some "Hello World") (Some "") (Some "Body") None
             (Some " Python, web ,, ") true false true true.

Definition about_form : AboutForm :=
  mkAboutForm (Some "About me") (Some "Hi") None (Some "") None None true true.

Definition clock (k : string) : datetime := 100.




(** A valid submission that names one tag twice. *)
Definition with_repeated_tag : PostForm :=
  mkPostForm (Some "Hello World") (Some "") (Some "Body") None
             (Some "python, Python") true false true true.

End Sample.

(* ================================================================== *)
(** * Properties *)
(* ================================================================== *)

(* ------------------------------------------------------------------ *)
(** ** Strings *)
(* ------------------------------------------------------------------ *)

Lemma append_inv_head (a x y : string) : (a ++ x)%string = (a ++ y)%string -> x = y.
Proof.
  induction a as [|c a IH]; simpl; intros E.
  - exact E.
  - injection E as E. auto.
Qed.

Lemma append_length (a b : string) :
  String.length (a ++ b) = String.length a + String.length b.
Proof. induction a as [|c a IH]; simpl; [reflexivity | now rewrite IH]. Qed.

Lemma str_of_nat_inj (a b : nat) : PyStr.str_of_nat a = PyStr.str_of_nat b -> a = b.
Proof.
  unfold PyStr.str_of_nat. intros E.
  apply Unsigned.to_uint_inj.
  apply (f_equal NilEmpty.uint_of_string) in E.
  rewrite !NilEmpty.usu in E. now injection E.
Qed.

Lemma slug_candidate_inj (base : string) (i j : nat) :
  slug_candidate base i = slug_candidate base j -> i = j.
Proof.
  destruct i as [|i], j as [|j]; simpl; intros E.
  - reflexivity.
  - apply (f_equal String.length) in E. rewrite append_length in E. simpl in E. lia.
  - apply (f_equal String.length) in E. rewrite append_length in E. simpl in E. lia.
  - apply append_inv_head in E. injection E as E. now apply str_of_nat_inj.
Qed.

(* ------------------------------------------------------------------ *)
(** ** Queries *)
(* ------------------------------------------------------------------ *)

Lemma query_slug_None (d : DB) (s : string) :
  Post_query_filter_by_slug d s = None <->
  forall q, In q (posts d) -> slug q <> s.
Proof.
  unfold Post_query_filter_by_slug. split.
  - intros E q Hq Hs.
    apply (find_none _ _ E) in Hq. simpl in Hq.
    apply String.eqb_neq in Hq. contradiction.
  - intros Hall. destruct (find _ _) as [q|] eqn:E; [|reflexivity].
    apply find_some in E. destruct E as [Hq Hs].
    apply String.eqb_eq in Hs. exfalso. exact (Hall q Hq Hs).
Qed.

Lemma query_slug_Some (d : DB) (s : string) :
  Post_query_filter_by_slug d s <> None ->
  In s (map slug (posts d)).
Proof.
  unfold Post_query_filter_by_slug. destruct (find _ _) as [q|] eqn:E; [|congruence].
  intros _. apply find_some in E. destruct E as [Hq Hs].
  apply String.eqb_eq in Hs. subst s. now apply in_map.
Qed.

(* ------------------------------------------------------------------ *)
(** ** The slug loop *)
(* ------------------------------------------------------------------ *)

Section SlugLoop.

Variable d : DB.
Variable base : string.

Let cand := slug_candidate base.
Let used (k : nat) : Prop := Post_query_filter_by_slug d (cand k) <> None.

Lemma generate_slug_loop_step (fuel k : nat) :
  generate_slug_loop (S fuel) d base (cand k) (S k) =
  match Post_query_filter_by_slug d (cand k) with
  | Some _ => generate_slug_loop fuel d base (cand (S k)) (S (S k))
  | None => Some (cand k)
  end.
Proof.
  simpl. destruct (Post_query_filter_by_slug d (cand k)); [|reflexivity].
  replace (k + 1) with (S k) by lia. reflexivity.
Qed.

(** A result of the loop is the first unused candidate from [k] on. *)
Lemma generate_slug_loop_result (fuel : nat) :
  forall k s,
    generate_slug_loop fuel d base (cand k) (S k) = Some s ->
    exists j, k <= j /\ s = cand j /\
              Post_query_filter_by_slug d (cand j) = None /\
              forall i, k <= i < j -> used i.
Proof.
  induction fuel as [|fuel IH]; intros k s E.
  - discriminate.
  - rewrite generate_slug_loop_step in E.
    destruct (Post_query_filter_by_slug d (cand k)) as [q|] eqn:Q.
    + destruct (IH _ _ E) as (j & Hj & Hs & Hn & Hu).
      exists j. repeat split; [lia | assumption | assumption |].
      intros i Hi. destruct (Nat.eq_dec i k) as [->|Hik].
      * unfold used. rewrite Q. discriminate.
      * apply Hu. lia.
    + injection E as <-. exists k. repeat split; [lia | assumption |].
      intros i Hi. lia.
Qed.

(** The loop runs out of fuel only on candidates that are all in use. *)
Lemma generate_slug_loop_None (fuel : nat) :
  forall k,
    generate_slug_loop fuel d base (cand k) (S k) = None ->
    forall i, k <= i < k + fuel -> used i.
Proof.
  induction fuel as [|fuel IH]; intros k E i Hi.
  - lia.
  - rewrite generate_slug_loop_step in E.
    destruct (Post_query_filter_by_slug d (cand k)) as [q|] eqn:Q; [|discriminate].
    destruct (Nat.eq_dec i k) as [->|Hik].
    + unfold used. rewrite Q. discriminate.
    + apply (IH _ E). lia.
Qed.

(** Distinct candidates in use are distinct rows: at most as many as posts. *)
Lemma used_candidates_bounded (n : nat) :
  (forall i, i < n -> used i) -> n <= length (posts d).
Proof.
  intros Hall.
  assert (Hnd : NoDup (map cand (seq 0 n))).
  { apply Injective_map_NoDup; [|apply seq_NoDup].
    intros i j. apply slug_candidate_inj. }
  assert (Hin : incl (map cand (seq 0 n)) (map slug (posts d))).
  { intros s Hs. apply in_map_iff in Hs. destruct Hs as (i & <- & Hi).
    apply in_seq in Hi. apply query_slug_Some. apply Hall. lia. }
  pose proof (NoDup_incl_length Hnd Hin) as L.
  rewrite !length_map, length_seq in L. exact L.
Qed.

(** With one unit of fuel more than there are posts, the loop returns. *)
Lemma generate_slug_loop_total :
  exists s, generate_slug_loop (S (length (posts d))) d base (cand 0) 1 = Some s.
Proof.
  destruct (generate_slug_loop (S (length (posts d))) d base (cand 0) 1) as [s|] eqn:E.
  - now exists s.
  - exfalso.
    pose proof (generate_slug_loop_None _ _ E) as Hall.
    assert (B : S (length (posts d)) <= length (posts d)).
    { apply used_candidates_bounded. intros i Hi. apply Hall. lia. }
    lia.
Qed.

End SlugLoop.

(** The value [Post.generate_slug] assigns: the first candidate no post uses. *)
Lemma generate_slug_value_spec `{External} (d : DB) (ttl : string) :
  exists k,
    generate_slug_value d ttl = Some (slug_candidate (slugify ttl) k) /\
    (forall q, In q (posts d) -> slug q <> slug_candidate (slugify ttl) k) /\
    (forall i, i < k ->
       exists q, In q (posts d) /\ slug q = slug_candidate (slugify ttl) i).
Proof.
  unfold generate_slug_value.
  destruct (generate_slug_loop_total d (slugify ttl)) as [s E].
  destruct (generate_slug_loop_result d (slugify ttl) _ 0 s E) as (j & _ & -> & Hn & Hu).
  exists j. split; [exact E | split].
  - now apply query_slug_None.
  - intros i Hi.
    assert (U : In (slug_candidate (slugify ttl) i) (map slug (posts d))).
    { apply query_slug_Some. apply Hu. lia. }
    apply in_map_iff in U. destruct U as (q & Hs & Hq). now exists q.
Qed.

Lemma session_add_post_unused (d : DB) (p : Post) :
  content p <> None ->
  (forall q, In q (posts d) -> slug q <> slug p) ->
  session_add_post d p =
  Ok (mkDB (users d) (posts d ++ [p]) (tags d) (post_tags d) (site_settings d)).
Proof.
  intros C U. unfold session_add_post.
  destruct (content p); [|congruence].
  destruct (existsb _ _) eqn:E; [|reflexivity].
  apply existsb_exists in E. destruct E as (q & Hq & Hs).
  apply String.eqb_eq in Hs. exfalso. exact (U q Hq Hs).
Qed.

Lemma session_add_post_Ok (d d1 : DB) (p : Post) :
  session_add_post d p = Ok d1 ->
  d1 = mkDB (users d) (posts d ++ [p]) (tags d) (post_tags d) (site_settings d).
Proof.
  unfold session_add_post. destruct (content p); [|discriminate].
  destruct (existsb _ _); [discriminate|]. intros E. now injection E.
Qed.

(** C2. [Post.generate_slug] always returns, and assigns the first candidate
    of the sequence base, base-1, base-2, ... that no existing post uses: the
    slugified title itself when it is free. The assigned slug differs from
    every existing post's slug; two posts created one after the other with
    the same title never share a slug, and get [s] and [s-1] when neither
    is taken beforehand. *)
Theorem generate_slug_first_unused_candidate `{External} (d : DB) (p : Post) :
  let base := slugify (title p) in
  (exists k,
      Post_generate_slug d p = Some (set_slug p (slug_candidate base k)) /\
      (forall q, In q (posts d) -> slug q <> slug_candidate base k) /\
      (forall i, i < k -> exists q, In q (posts d) /\ slug q = slug_candidate base i) /\
      ((forall q, In q (posts d) -> slug q <> base) -> k = 0)) /\
  (forall p1 d1 p2 p2',
      Post_generate_slug d p = Some p1 ->
      session_add_post d p1 = Ok d1 ->
      Post_generate_slug d1 p2 = Some p2' ->
      slug p2' <> slug p1) /\
  (forall p2,
      title p2 = title p ->
      content p <> None ->
      (forall q, In q (posts d) -> slug q <> base) ->
      (forall q, In q (posts d) -> slug q <> (base ++ "-1")%string) ->
      exists p1 d1 p2',
        Post_generate_slug d p = Some p1 /\ slug p1 = base /\
        session_add_post d p1 = Ok d1 /\
        Post_generate_slug d1 p2 = Some p2' /\ slug p2' = (base ++ "-1")%string).
Proof.
  intros base.
  assert (First : forall d0 p0, exists k,
             Post_generate_slug d0 p0
             = Some (set_slug p0 (slug_candidate (slugify (title p0)) k)) /\
             (forall q, In q (posts d0) ->
                        slug q <> slug_candidate (slugify (title p0)) k) /\
             (forall i, i < k -> exists q, In q (posts d0) /\
                        slug q = slug_candidate (slugify (title p0)) i) /\
             ((forall q, In q (posts d0) -> slug q <> slugify (title p0)) -> k = 0)).
  { intros d0 p0.
    destruct (generate_slug_value_spec d0 (title p0)) as (k & E & Hn & Hu).
    exists k. unfold Post_generate_slug. rewrite E.
    repeat split; try assumption.
    intros Hfree. destruct k as [|k]; [reflexivity|].
    destruct (Hu 0) as (q & Hq & Hs); [lia|].
    exfalso. exact (Hfree q Hq Hs). }
  split; [apply First | split].
  - intros p1 d1 p2 p2' E1 A E2.
    destruct (First d p) as (k & E & Hn & _). rewrite E in E1. injection E1 as <-.
    change (slugify (title p)) with base in A, Hn.
    apply session_add_post_Ok in A. subst d1.
    destruct (First (mkDB (users d) (posts d ++ [set_slug p (slug_candidate base k)])
                          (tags d) (post_tags d) (site_settings d)) p2)
      as (k2 & E' & Hn2 & _).
    rewrite E' in E2. injection E2 as <-.
    intros Heq. apply (Hn2 (set_slug p (slug_candidate base k))).
    + simpl. apply in_or_app. right. now left.
    + symmetry. exact Heq.
  - intros p2 Ht Hc Hfree Hfree1.
    destruct (First d p) as (k & E & Hn & _ & Hk).
    rewrite (Hk Hfree) in *. simpl in E, Hn.
    set (p1 := set_slug p base) in *.
    set (d1 := mkDB (users d) (posts d ++ [p1]) (tags d) (post_tags d) (site_settings d)).
    destruct (First d1 p2) as (k2 & E2 & Hn2 & Hu2 & _).
    rewrite Ht in E2, Hn2, Hu2. fold base in E2, Hn2, Hu2.
    assert (K : k2 = 1).
    { destruct k2 as [|[|k2]].
      - exfalso. apply (Hn2 p1); [|reflexivity].
        simpl. apply in_or_app. right. now left.
      - reflexivity.
      - exfalso. destruct (Hu2 1) as (q & Hq & Hs); [lia|].
        simpl in Hq. apply in_app_or in Hq. destruct Hq as [Hq|[<-|[]]].
        + exact (Hfree1 q Hq Hs).
        + simpl in Hs. apply (f_equal String.length) in Hs.
          rewrite append_length in Hs. simpl in Hs. lia. }
    subst k2.
    exists p1, d1, (set_slug p2 (slug_candidate base 1)).
    repeat split; try assumption.
    apply (session_add_post_unused d p1); [exact Hc | exact Hn].
Qed.

(* ------------------------------------------------------------------ *)
(** ** Updating a post row *)
(* ------------------------------------------------------------------ *)

(** The row written differs from the session's object in [updated_at] at
    most. *)
Lemma updated_row_fields (now : datetime) (r p : Post) :
  let u := updated_row now r p in
  post_id u = post_id p /\ title u = title p /\ slug u = slug p /\
  content u = content p /\ is_published u = is_published p /\
  views u = views p /\ published_at u = published_at p.
Proof.
  unfold updated_row. destruct (Post_eq_dec r p) as [->|_]; simpl; repeat split.
Qed.

Lemma find_update_post_row (now : datetime) (p p0 : Post) (rows : list Post) :
  find (fun r => Z.eqb (post_id r) (post_id p)) rows = Some p0 ->
  find (fun r => Z.eqb (post_id r) (post_id p)) (update_post_row now p rows)
  = Some (updated_row now p0 p).
Proof.
  induction rows as [|r rest IH]; simpl; intros F.
  - discriminate.
  - destruct (Z.eqb (post_id r) (post_id p)) eqn:E.
    + injection F as ->. simpl.
      destruct (updated_row_fields now p0 p) as (-> & _).
      now rewrite Z.eqb_refl.
    + simpl. rewrite E. auto.
Qed.

Lemma update_post_row_keys (now : datetime) (p p0 : Post) (rows : list Post) :
  find (fun r => Z.eqb (post_id r) (post_id p)) rows = Some p0 ->
  slug p = slug p0 ->
  map (fun r => (post_id r, slug r)) (update_post_row now p rows)
  = map (fun r => (post_id r, slug r)) rows.
Proof.
  induction rows as [|r rest IH]; simpl; intros F S.
  - reflexivity.
  - destruct (Z.eqb (post_id r) (post_id p)) eqn:E.
    + injection F as ->. simpl.
      destruct (updated_row_fields now p0 p) as (-> & _ & -> & _).
      apply Z.eqb_eq in E. now rewrite E, S.
    + simpl. f_equal. auto.
Qed.

Lemma update_post_row_ids (now : datetime) (p : Post) (rows : list Post) :
  map post_id (update_post_row now p rows) = map post_id rows.
Proof.
  induction rows as [|r rest IH]; simpl.
  - reflexivity.
  - destruct (Z.eqb (post_id r) (post_id p)) eqn:E; simpl.
    + destruct (updated_row_fields now r p) as (-> & _).
      apply Z.eqb_eq in E. now rewrite E.
    + now rewrite IH.
Qed.

Lemma Post_query_get_id (d : DB) (id : Z) (p : Post) :
  Post_query_get d id = Some p -> post_id p = id.
Proof.
  unfold Post_query_get. intros F. apply find_some in F.
  destruct F as [_ E]. now apply Z.eqb_eq in E.
Qed.

(* ------------------------------------------------------------------ *)
(** ** Tags leave the other tables alone *)
(* ------------------------------------------------------------------ *)

Lemma session_add_tag_frame (d d' : DB) (t : Tag) :
  session_add_tag d t = Ok d' ->
  users d' = users d /\ posts d' = posts d /\ post_tags d' = post_tags d /\
  site_settings d' = site_settings d.
Proof.
  unfold session_add_tag.
  destruct (existsb _ _); [discriminate|].
  destruct (existsb _ _); [discriminate|].
  intros E. injection E as <-. repeat split.
Qed.

Lemma flush_tags_frame (pending : list Tag) :
  forall d d',
    flush_tags pending d = Ok d' ->
    users d' = users d /\ posts d' = posts d /\ post_tags d' = post_tags d /\
    site_settings d' = site_settings d.
Proof.
  induction pending as [|t pending IH]; cbn [flush_tags]; intros d d' E.
  - injection E as <-. repeat split.
  - destruct (session_add_tag d t) as [d1|] eqn:A; cbn [bind] in E; [|discriminate].
    pose proof (session_add_tag_frame _ _ _ A) as F1.
    pose proof (IH _ _ E) as F2.
    intuition congruence.
Qed.

Lemma Tag_get_or_create_frame `{External} (name : string) (s s' : Session) (t : Tag) :
  Tag_get_or_create name s = Ok (t, s') ->
  users (stored s') = users (stored s) /\ posts (stored s') = posts (stored s) /\
  post_tags (stored s') = post_tags (stored s) /\
  site_settings (stored s') = site_settings (stored s).
Proof.
  unfold Tag_get_or_create.
  destruct (flush_tags (pending_tags s) (stored s)) as [d|] eqn:F; cbn [bind];
    [|discriminate].
  pose proof (flush_tags_frame _ _ _ F) as Fr.
  destruct (Tag_query_filter_by_name d _); intros E; injection E as _ <-; exact Fr.
Qed.

Lemma get_or_create_all_frame `{External} (names : list string) :
  forall s s' ts,
    get_or_create_all names s = Ok (ts, s') ->
    users (stored s') = users (stored s) /\ posts (stored s') = posts (stored s) /\
    post_tags (stored s') = post_tags (stored s) /\
    site_settings (stored s') = site_settings (stored s).
Proof.
  induction names as [|n names IH]; cbn [get_or_create_all]; intros s s' ts E.
  - injection E as _ <-. repeat split.
  - destruct (Tag_get_or_create n s) as [[t s1]|] eqn:G; cbn [bind fst snd] in E;
      [|discriminate].
    destruct (get_or_create_all names s1) as [[ts' s2]|] eqn:A; cbn [bind fst snd] in E;
      [|discriminate].
    injection E as _ <-.
    pose proof (Tag_get_or_create_frame _ _ _ _ G) as F1.
    pose proof (IH _ _ _ A) as F2.
    intuition congruence.
Qed.

(** The tag loop and the flush that ends it, taken apart. *)
Lemma form_tag_objects_inv `{External} (form : PostForm) (d d' : DB) (ts : list Tag) :
  form_tag_objects form d = Ok (ts, d') ->
  exists names s,
    get_or_create_all names (mkSession d []) = Ok (ts, s) /\
    flush_tags (pending_tags s) (stored s) = Ok d'.
Proof.
  unfold form_tag_objects.
  assert (Empty : forall r : Result (list Tag * Session),
             r = Ok ([], mkSession d []) ->
             (r0 <- r ;;
              d0 <- flush_tags (pending_tags (snd r0)) (stored (snd r0)) ;;
              Ok (fst r0, d0)) = Ok (ts, d') ->
             exists names s,
               get_or_create_all names (mkSession d []) = Ok (ts, s) /\
               flush_tags (pending_tags s) (stored s) = Ok d').
  { intros r -> E. cbn in E. injection E as <- <-.
    exists [], (mkSession d []). split; reflexivity. }
  destruct (PyStr.truthy_opt (form_tags form)); [destruct (form_tags form) as [data|]|];
    try (apply Empty; reflexivity).
  destruct (get_or_create_all (parse_tag_names data) (mkSession d [])) as [[ts0 s]|] eqn:G;
    cbn [bind fst snd]; [|discriminate].
  destruct (flush_tags (pending_tags s) (stored s)) as [d0|] eqn:F; cbn [bind];
    [|discriminate].
  intros E. injection E as <- <-.
  exists (parse_tag_names data), s. split; [exact G | exact F].
Qed.

Lemma form_tag_objects_frame `{External} (form : PostForm) (d d' : DB) (ts : list Tag) :
  form_tag_objects form d = Ok (ts, d') ->
  users d' = users d /\ posts d' = posts d /\ post_tags d' = post_tags d /\
  site_settings d' = site_settings d.
Proof.
  intros E. destruct (form_tag_objects_inv _ _ _ _ E) as (names & s & G & F).
  pose proof (get_or_create_all_frame _ _ _ _ G) as F1. cbn [stored] in F1.
  pose proof (flush_tags_frame _ _ _ F) as F2.
  intuition congruence.
Qed.

(** Through the handler: the administrator submits the same title twice on
    the sample site, and the two new posts get the slug and the slug with
    [-1]. *)
Lemma create_post_twice_same_title :
  let form := Sample.submission "Fresh Post" "Text" false in
  let w1 := snd (@create_post Sample.external Sample.cfg 20 "a" form Sample.as_admin) in
  let w2 := snd (@create_post Sample.external Sample.cfg 21 "b" form w1) in
  map slug (posts (db w2)) = ["hello-world"; "fresh-post"; "fresh-post-1"].
Proof. vm_compute. reflexivity. Qed.

(* ------------------------------------------------------------------ *)
(** ** Editing *)
(* ------------------------------------------------------------------ *)

(** C3. [edit_post] never modifies a slug: whatever the request, every post
    keeps its id and slug, and after an accepted submission the edited post
    carries the submitted title under the slug it had. *)
Theorem edit_post_keeps_slug `{External} (cfg : Config) (now : datetime)
    (uuid_hex : string) (id : Z) (form : PostForm) (w : World) :
  let r := edit_post cfg now uuid_hex id form w in
  map (fun p => (post_id p, slug p)) (posts (db (snd r)))
  = map (fun p => (post_id p, slug p)) (posts (db w)) /\
  (forall post,
      Post_query_get (db w) id = Some post ->
      fst r = Redirect "blog.admin_posts" ->
      exists post',
        Post_query_get (db (snd r)) id = Some post' /\
        slug post' = slug post /\
        Some (title post') = form_title form).
Proof.
  unfold edit_post, admin_required.
  destruct (current_user w) as [u|]; [|split; [reflexivity | discriminate]].
  destruct (is_admin u); cbn [negb]; [|split; [reflexivity | discriminate]].
  destruct (Post_query_get (db w) id) as [post|] eqn:Q;
    [|split; [reflexivity | discriminate]].
  destruct (validate_on_submit form); [|split; [reflexivity | discriminate]].
  destruct (form_title form) as [ttl|]; [|split; [reflexivity | discriminate]].
  destruct (edit_cover_image cfg uuid_hex form post (files w)) as [[image fs]|exc];
    [|split; [reflexivity | discriminate]].
  set (edited := set_cover_image _ image).
  assert (Fields : post_id edited = post_id post /\ slug edited = slug post /\
                   title edited = ttl /\ content edited = form_content form)
    by (subst edited; destruct (_ && _); repeat split).
  destruct Fields as (Ei & Es & Et & Ec).
  destruct (form_tag_objects form (db w)) as [[ts d1]|] eqn:T; cbn [bind fst snd];
    [|split; [reflexivity | discriminate]].
  rewrite Ec.
  destruct (form_content form) as [body|]; cbn [not_null bind];
    [|split; [reflexivity | discriminate]].
  destruct (flush_post_tags _ _ _ _) as [rows|]; cbn [bind fst snd db posts commit_post];
    [|split; [reflexivity | discriminate]].
  destruct (form_tag_objects_frame _ _ _ _ T) as (_ & P & _ & _).
  rewrite P.
  assert (F : find (fun r => Z.eqb (post_id r) (post_id edited)) (posts (db w)) = Some post).
  { rewrite Ei. rewrite <- (Post_query_get_id _ _ _ Q) in Q. exact Q. }
  split.
  - now apply (update_post_row_keys now edited post).
  - intros p0 E _. injection E as <-.
    exists (updated_row now post edited).
    destruct (updated_row_fields now post edited) as (_ & Ht & Hs & _).
    split; [|split; [congruence | now rewrite Ht, Et]].
    unfold Post_query_get.
    rewrite <- (Post_query_get_id _ _ _ Q), <- Ei.
    exact (find_update_post_row now edited post _ F).
Qed.

(* ------------------------------------------------------------------ *)
(** ** Publishing *)
(* ------------------------------------------------------------------ *)

(** [toggle_publish] stamps [published_at] only while it is unset: a
    timestamp once set survives every later toggle. *)
Lemma toggle_publish_keeps_published_at (now : datetime) (id : Z) (w : World)
    (post : Post) (t : datetime) :
  Post_query_get (db w) id = Some post ->
  published_at post = Some t ->
  exists post',
    Post_query_get (db (snd (toggle_publish now id w))) id = Some post' /\
    published_at post' = Some t.
Proof.
  intros Q Pt. unfold toggle_publish, admin_required.
  destruct (current_user w) as [u|]; [|now exists post].
  destruct (is_admin u); simpl; [|now exists post].
  rewrite Q. simpl. rewrite Pt. simpl. rewrite andb_false_r.
  set (post' := mkPost (post_id post) _ _ _ _ _ _ _ _ _ _ _ _).
  exists (updated_row now post post').
  destruct (updated_row_fields now post post') as (_ & _ & _ & _ & _ & _ & Hp).
  split; [|exact Hp].
  unfold Post_query_get. rewrite <- (Post_query_get_id _ _ _ Q).
  apply (find_update_post_row now post' post).
  simpl. rewrite <- (Post_query_get_id _ _ _ Q) in Q. exact Q.
Qed.

(** [edit_post] stamps [published_at] on every edge from unpublished to
    published, whether or not the post carries a timestamp already. *)
Lemma edit_post_stamps_every_publish_edge `{External} (cfg : Config) (now : datetime)
    (uuid_hex : string) (id : Z) (form : PostForm) (w : World) (post : Post) :
  Post_query_get (db w) id = Some post ->
  fst (edit_post cfg now uuid_hex id form w) = Redirect "blog.admin_posts" ->
  is_published post = false ->
  form_is_published form = true ->
  exists post',
    Post_query_get (db (snd (edit_post cfg now uuid_hex id form w))) id = Some post' /\
    published_at post' = Some now.
Proof.
  intros Q. unfold edit_post, admin_required.
  destruct (current_user w) as [u|]; [|discriminate].
  destruct (is_admin u); cbn [negb]; [|discriminate].
  rewrite Q.
  destruct (validate_on_submit form); [|discriminate].
  destruct (form_title form) as [ttl|]; [|discriminate].
  destruct (edit_cover_image cfg uuid_hex form post (files w)) as [[image fs]|exc];
    [|discriminate].
  intros R Hu Hf. revert R. rewrite Hu, Hf. cbn [negb andb].
  set (edited := set_cover_image _ image).
  destruct (form_tag_objects form (db w)) as [[ts d1]|] eqn:T; cbn [bind fst snd];
    [|discriminate].
  change (content edited) with (form_content form).
  destruct (form_content form) as [body|]; cbn [not_null bind]; [|discriminate].
  destruct (flush_post_tags _ _ _ _) as [rows|]; cbn [bind fst snd db posts commit_post];
    [|discriminate].
  intros _.
  destruct (form_tag_objects_frame _ _ _ _ T) as (_ & P & _ & _). rewrite P.
  exists (updated_row now post edited).
  destruct (updated_row_fields now post edited) as (_ & _ & _ & _ & _ & _ & Hp).
  split; [|exact Hp].
  unfold Post_query_get. rewrite <- (Post_query_get_id _ _ _ Q).
  apply (find_update_post_row now edited post).
  cbn [post_id edited set_cover_image set_published_at].
  rewrite <- (Post_query_get_id _ _ _ Q) in Q. exact Q.
Qed.

(** C1. The sample post was published at time 10. Unpublishing it at time 60
    keeps the timestamp, but publishing it again through [edit_post] at
    time 70 replaces the timestamp, where [toggle_publish] at the same point
    keeps it. *)
Theorem edit_post_republish_overwrites_published_at :
  let w0 := Sample.as_admin in
  let w1 := snd (toggle_publish 60 1 w0) in
  let edited := snd (@edit_post Sample.external Sample.cfg 70 "u" 1
                       (Sample.submission "Hello World" "Body" true) w1) in
  let toggled := snd (toggle_publish 70 1 w1) in
  option_map published_at (Post_query_get (db w0) 1) = Some (Some 10%Z) /\
  option_map is_published (Post_query_get (db w1) 1) = Some false /\
  option_map published_at (Post_query_get (db w1) 1) = Some (Some 10%Z) /\
  option_map is_published (Post_query_get (db edited) 1) = Some true /\
  option_map published_at (Post_query_get (db edited) 1) = Some (Some 70%Z) /\
  option_map published_at (Post_query_get (db toggled) 1) = Some (Some 10%Z).
Proof. vm_compute. repeat split. Qed.

(* ------------------------------------------------------------------ *)
(** ** Counting views *)
(* ------------------------------------------------------------------ *)

Lemma or_0_Some (n : Z) : or_0 (Some n) = n.
Proof.
  unfold or_0. destruct (Z.eqb n 0) eqn:E; [|reflexivity].
  apply Z.eqb_eq in E. now subst.
Qed.

Lemma find_published_update (now : datetime) (s : string) (p p0 : Post)
    (rows : list Post) :
  NoDup (map post_id rows) ->
  find (fun r => String.eqb (slug r) s && Bool.eqb (is_published r) true) rows = Some p0 ->
  post_id p = post_id p0 -> slug p = slug p0 -> is_published p = is_published p0 ->
  find (fun r => String.eqb (slug r) s && Bool.eqb (is_published r) true)
       (update_post_row now p rows) = Some (updated_row now p0 p).
Proof.
  intros ND F Hi Hs Hp. induction rows as [|r rest IH]; simpl in *.
  - discriminate.
  - inversion ND as [|? ? Hnotin ND']; subst.
    destruct (String.eqb (slug r) s && Bool.eqb (is_published r) true) eqn:Pr.
    + injection F as ->. rewrite Hi, Z.eqb_refl. simpl.
      destruct (updated_row_fields now p0 p) as (_ & _ & -> & _ & -> & _).
      now rewrite Hs, Hp, Pr.
    + destruct (Z.eqb (post_id r) (post_id p)) eqn:E.
      * exfalso. apply Z.eqb_eq in E. apply Hnotin.
        apply find_some in F. destruct F as [Hin _].
        rewrite E, Hi. now apply in_map.
      * simpl. rewrite Pr. auto.
Qed.

(** One public view of a published post. *)
Lemma view_post_once (now : datetime) (s : string) (w : World) (post : Post) :
  posts_primary_key (db w) ->
  Post_query_published_by_slug (db w) s = Some post ->
  let r := view_post now s w in
  fst r = Render "post.html" /\
  posts_primary_key (db (snd r)) /\
  exists post',
    Post_query_published_by_slug (db (snd r)) s = Some post' /\
    post_id post' = post_id post /\
    views post' = Some (or_0 (views post) + 1)%Z.
Proof.
  intros PK Q. unfold view_post. rewrite Q. simpl.
  set (p := set_views post _).
  split; [reflexivity | split].
  - unfold posts_primary_key. simpl. now rewrite update_post_row_ids.
  - exists (updated_row now post p).
    destruct (updated_row_fields now post p) as (Hi & _ & _ & _ & _ & Hv & _).
    split; [|split; [exact Hi | exact Hv]].
    unfold Post_query_published_by_slug. simpl.
    now apply find_published_update.
Qed.

(** C6. [increment_views] sets the counter to one more than its value, an
    unset counter counting as 0, so it never decreases; and [N] public views
    of a published post, one after the other, leave its counter [N] above
    where it started. *)
Theorem view_post_increments_views :
  (forall now d p,
      let p' := fst (Post_increment_views now d p) in
      views p' = Some (or_0 (views p) + 1)%Z /\
      (or_0 (views p) < or_0 (views p'))%Z) /\
  (forall nows s w post,
      posts_primary_key (db w) ->
      Post_query_published_by_slug (db w) s = Some post ->
      exists post',
        Post_query_published_by_slug (db (view_post_times nows s w)) s = Some post' /\
        post_id post' = post_id post /\
        or_0 (views post') = (or_0 (views post) + Z.of_nat (length nows))%Z /\
        (nows <> [] ->
         views post' = Some (or_0 (views post) + Z.of_nat (length nows))%Z)).
Proof.
  split.
  - intros now d p. unfold Post_increment_views, set_views. cbn [fst views].
    split; [reflexivity|]. rewrite or_0_Some. lia.
  - intros nows. induction nows as [|now rest IH]; intros s w post PK Q.
    + exists post. simpl. repeat split; [assumption | lia | congruence].
    + destruct (view_post_once now s w post PK Q) as (_ & PK' & p1 & Q1 & I1 & V1).
      destruct (IH s _ p1 PK' Q1) as (p2 & Q2 & I2 & V2 & V2').
      exists p2. cbn [view_post_times length].
      rewrite V1, or_0_Some in V2, V2'.
      split; [exact Q2 | split; [congruence | split]].
      * lia.
      * intros _. destruct rest as [|now' rest'].
        -- simpl in Q2. rewrite Q1 in Q2. injection Q2 as <-.
           rewrite V1. f_equal.
        -- rewrite V2' by discriminate. f_equal. lia.
Qed.

(* ------------------------------------------------------------------ *)
(** ** Deleting *)
(* ------------------------------------------------------------------ *)

(** C7. [delete_post] never touches the [tags] table, whatever the request;
    and when an administrator deletes an existing post, exactly the rows of
    that post leave [posts] and [post_tags]. *)
Theorem delete_post_keeps_tags (cfg : Config) (id : Z) (w : World) :
  let r := delete_post cfg id w in
  tags (db (snd r)) = tags (db w) /\
  (forall user post,
      current_user w = Some user -> is_admin user = true ->
      Post_query_get (db w) id = Some post ->
      fst r = Redirect "blog.admin_posts" /\
      Post_query_get (db (snd r)) id = None /\
      (forall p, In p (posts (db (snd r))) <-> In p (posts (db w)) /\ post_id p <> id) /\
      (forall a, In a (post_tags (db (snd r))) <->
                 In a (post_tags (db w)) /\ fst a <> id)).
Proof.
  unfold delete_post, admin_required. split.
  - destruct (current_user w) as [u|]; [|reflexivity].
    destruct (is_admin u); simpl; [|reflexivity].
    destruct (Post_query_get (db w) id); reflexivity.
  - intros user post -> A Q. rewrite A, Q. simpl.
    pose proof (Post_query_get_id _ _ _ Q) as I. rewrite I.
    split; [reflexivity | split; [|split]].
    + unfold Post_query_get. simpl.
      destruct (find _ (filter _ _)) as [q|] eqn:F; [|reflexivity].
      apply find_some in F. destruct F as [Hin E].
      apply filter_In in Hin. destruct Hin as [_ N].
      simpl in E, N. rewrite I, E in N. discriminate.
    + intros p. rewrite filter_In, negb_true_iff, Z.eqb_neq. reflexivity.
    + intros a. rewrite filter_In, negb_true_iff, Z.eqb_neq. reflexivity.
Qed.

(* ------------------------------------------------------------------ *)
(** ** Site settings *)
(* ------------------------------------------------------------------ *)

Lemma find_update_first_setting (now : datetime) (k : string) (v : option string)
    (rows : list SiteSettings) (s0 : SiteSettings) :
  find (fun s => String.eqb (key s) k) rows = Some s0 ->
  exists s1,
    find (fun s => String.eqb (key s) k) (update_first_setting now k v rows) = Some s1 /\
    value s1 = v.
Proof.
  induction rows as [|r rest IH]; simpl; intros F.
  - discriminate.
  - destruct (String.eqb (key r) k) eqn:E.
    + eexists. simpl. rewrite E. split; reflexivity.
    + simpl. rewrite E. auto.
Qed.

Lemma find_app_new {A : Type} (f : A -> bool) (l : list A) (x : A) :
  find f l = None -> f x = true -> find f (l ++ [x]) = Some x.
Proof.
  induction l as [|a l IH]; simpl; intros N T.
  - now rewrite T.
  - destruct (f a); [discriminate | auto].
Qed.

(** C9. [SiteSettings.get] right after [SiteSettings.set] returns the value
    set, whether the key had a row or not; on a key without a row it returns
    the default. *)
Theorem SiteSettings_get_after_set (now : datetime) (d : DB) (k : string)
    (v default : option string) :
  SiteSettings_get (snd (SiteSettings_set now d k v)) k default = v /\
  (SiteSettings_query_filter_by_key d k = None ->
   SiteSettings_get d k default = default).
Proof.
  split.
  - unfold SiteSettings_set, SiteSettings_get.
    destruct (SiteSettings_query_filter_by_key d k) as [s0|] eqn:Q;
      unfold SiteSettings_query_filter_by_key in *; simpl.
    + destruct (find_update_first_setting now k v _ _ Q) as (s1 & -> & V).
      exact V.
    + rewrite (find_app_new _ _ _ Q); [reflexivity|].
      simpl. apply String.eqb_refl.
  - intros Q. unfold SiteSettings_get. now rewrite Q.
Qed.

(* ------------------------------------------------------------------ *)
(** ** Logging in *)
(* ------------------------------------------------------------------ *)

(** C10. [login] opens a session for administrators only: the session after
    the call is the one before it or that of an administrator. A visitor who
    is not logged in and submits the user name and password of a user without
    admin rights is sent back to the login page with the access-denied
    message, and stays logged out. *)
Theorem login_refuses_non_admin `{External} (form : LoginForm) (next : option string)
    (w : World) :
  let r := login form next w in
  (session_user_id (snd r) = session_user_id w \/
   exists u, In u (users (db w)) /\ is_admin u = true /\
             session_user_id (snd r) = Some (user_id u)) /\
  (forall u,
      current_user w = None ->
      login_validate_on_submit form = true ->
      User_query_filter_by_username (db w) (login_username form) = Some u ->
      User_check_password u (login_password form) = true ->
      is_admin u = false ->
      r = (Redirect "auth.login",
           flash "Access denied. Admin privileges required." "error" w) /\
      current_user (snd r) = None).
Proof.
  unfold login. split.
  - destruct (current_user w); [now left|].
    destruct (login_validate_on_submit form); [|now left].
    destruct (User_query_filter_by_username (db w) _) as [u|] eqn:Q; [|now left].
    destruct (User_check_password u _); simpl; [|now left].
    destruct (is_admin u) eqn:A; simpl; [|now left].
    right. exists u. apply find_some in Q. destruct Q as [Hin _].
    split; [exact Hin | split; [exact A|]].
    destruct next as [n|]; [destruct (_ || _)|]; reflexivity.
  - intros u C V Q P A. rewrite C, V, Q, P, A. simpl. split; [reflexivity|].
    exact C.
Qed.

(* ------------------------------------------------------------------ *)
(** ** Tags *)
(* ------------------------------------------------------------------ *)

Lemma find_None_existsb {A : Type} (f : A -> bool) (l : list A) :
  find f l = None -> existsb f l = false.
Proof.
  induction l as [|a l IH]; simpl; [reflexivity|].
  destruct (f a); [discriminate | exact IH].
Qed.



(* ------------------------------------------------------------------ *)
(** ** Uploads *)
(* ------------------------------------------------------------------ *)

Lemma contains_app (c : ascii) (a b : string) :
  PyStr.contains c (a ++ String c b) = true.
Proof.
  induction a as [|x a IH]; simpl.
  - now rewrite Ascii.eqb_refl.
  - rewrite IH. apply orb_true_r.
Qed.

Lemma rsplit1_without (sep : ascii) (s : string) :
  PyStr.contains sep s = false -> PyStr.rsplit1 sep s = [s].
Proof.
  induction s as [|c r IH]; simpl; intros N.
  - reflexivity.
  - apply orb_false_iff in N. destruct N as [Nc Nr].
    rewrite (IH Nr), Nc. reflexivity.
Qed.

Lemma rsplit1_last (sep : ascii) (stem ext : string) :
  PyStr.contains sep ext = false ->
  PyStr.rsplit1 sep (stem ++ String sep ext) = [stem; ext].
Proof.
  intros N. induction stem as [|c r IH]; simpl.
  - rewrite (rsplit1_without _ _ N), Ascii.eqb_refl. reflexivity.
  - rewrite IH. reflexivity.
Qed.

Lemma endswith_app (a b : string) : PyStr.endswith (a ++ b) b = true.
Proof.
  induction a as [|c a IH]; simpl.
  - destruct b as [|c b]; [reflexivity|].
    cbn [PyStr.endswith String.append]. rewrite String.eqb_refl. reflexivity.
  - rewrite IH. apply orb_true_r.
Qed.

Lemma truthy_app_dot (stem ext : string) :
  PyStr.truthy (stem ++ String "."%char ext) = true.
Proof. destruct stem; reflexivity. Qed.

Lemma existsb_eqb_In (x : string) (l : list string) :
  existsb (String.eqb x) l = true <-> In x l.
Proof.
  rewrite existsb_exists. split.
  - intros (y & Hin & E). apply String.eqb_eq in E. now subst.
  - intros Hin. exists x. split; [exact Hin | apply String.eqb_refl].
Qed.

(** C5. [save_image] returns [None] when there is no file, when the file
    name has no dot, and when the text after the last dot, lower-cased, is
    not one of png, jpg, jpeg, gif, webp; otherwise it returns the generated
    name, which ends in a dot and the lower-cased extension, and saves the
    file under it. So [evil.exe] gives [None] and [photo.PNG] a name ending
    in [.png]. *)
Theorem save_image_checks_extension (basedir uuid_hex : string)
    (file : option FileStorage) (fs : FileSystem) :
  let cfg := base_config basedir in
  let r := save_image cfg uuid_hex file fs in
  let allowed := ["png"; "jpg"; "jpeg"; "gif"; "webp"] in
  (file = None -> r = (None, fs)) /\
  (forall f, file = Some f -> PyStr.contains "."%char (filename f) = false ->
             r = (None, fs)) /\
  (forall f stem ext,
      file = Some f -> filename f = (stem ++ "." ++ ext)%string ->
      PyStr.contains "."%char ext = false ->
      ~ In (PyStr.lower ext) allowed ->
      r = (None, fs)) /\
  (forall f stem ext,
      file = Some f -> filename f = (stem ++ "." ++ ext)%string ->
      PyStr.contains "."%char ext = false ->
      In (PyStr.lower ext) allowed ->
      let name := (uuid_hex ++ "." ++ PyStr.lower ext)%string in
      r = (Some name, file_save fs (os_path_join (UPLOAD_FOLDER cfg) name) f) /\
      PyStr.endswith name ("." ++ PyStr.lower ext) = true) /\
  (forall data,
      fst (save_image cfg uuid_hex (Some (mkFileStorage "evil.exe" data)) fs) = None /\
      fst (save_image cfg uuid_hex (Some (mkFileStorage "photo.PNG" data)) fs)
      = Some (uuid_hex ++ ".png")%string).
Proof.
  intros cfg r allowed. subst r. unfold save_image, allowed_file.
  split; [|split; [|split; [|split]]].
  - intros ->. reflexivity.
  - intros f -> N. rewrite N. simpl. now rewrite andb_false_r.
  - intros [fname data] stem ext -> Fn N Out. cbn [filename] in *. subst fname.
    cbn [String.append]. rewrite contains_app, (rsplit1_last _ _ _ N).
    cbn [nth_error ALLOWED_EXTENSIONS cfg base_config].
    destruct (existsb _ _) eqn:X.
    + apply existsb_eqb_In in X. contradiction.
    + now rewrite andb_false_r.
  - intros [fname data] stem ext -> Fn N Inn. cbn [filename] in *. subst fname.
    cbn [String.append]. rewrite contains_app, (rsplit1_last _ _ _ N).
    cbn [nth_error ALLOWED_EXTENSIONS cfg base_config file_truthy filename].
    rewrite truthy_app_dot. apply existsb_eqb_In in Inn. unfold allowed in Inn.
    rewrite Inn. cbn [andb].
    split; [reflexivity|]. apply endswith_app.
  - intros data. split; reflexivity.
Qed.

(* ------------------------------------------------------------------ *)
(** ** Creating *)
(* ------------------------------------------------------------------ *)

Lemma validate_on_submit_title (form : PostForm) :
  validate_on_submit form = true -> exists ttl, form_title form = Some ttl.
Proof.
  unfold validate_on_submit, PostForm_validate, DataRequired.
  destruct (form_title form) as [ttl|]; [now exists ttl|].
  destruct (is_submitted form), (csrf_valid form); simpl; discriminate.
Qed.

Lemma filter_not_mem_nil (l : list Z) :
  filter (fun t => negb (mem_Z t [])) l = l.
Proof.
  induction l as [|x l IH]; [reflexivity|].
  cbn [filter]. change (mem_Z x []) with false. cbn [negb]. now rewrite IH.
Qed.

(** A submission with an empty body passes validation and is stored: the
    sample administrator creates a second post whose content is empty. *)
Lemma create_post_empty_body_is_stored :
  let form := Sample.submission "Hello World" "" true in
  let r := @create_post Sample.external Sample.cfg 50 "u" form Sample.as_admin in
  form_content form = Some "" /\
  validate_on_submit form = true /\
  fst r = Redirect "blog.admin_posts" /\
  map content (posts (db (snd r))) = [Some "Body"; Some ""] /\
  length (posts (db (snd r))) = S (length (posts (db Sample.as_admin))).
Proof. vm_compute. repeat split. Qed.

(** C8, as the code has it. [PostForm] validates the title, the excerpt and
    the cover image, never the body: the body does not enter
    [validate_on_submit], and an administrator's valid submission with an
    empty body, whose tags the store accepts, is itself accepted, adding one
    post whose content is the empty string. *)
Theorem create_post_accepts_empty_body `{External} (cfg : Config) (now : datetime)
    (uuid_hex : string) (form : PostForm) (w : World) (user : User)
    (ts : list Tag) (d1 : DB) :
  current_user w = Some user ->
  is_admin user = true ->
  validate_on_submit form = true ->
  form_content form = Some "" ->
  form_tag_objects form (db w) = Ok (ts, d1) ->
  has_dup (map tag_id ts) = false ->
  let r := create_post cfg now uuid_hex form w in
  (forall body,
      validate_on_submit
        (mkPostForm (form_title form) (form_excerpt form) body
                    (form_cover_image form) (form_tags form)
                    (form_is_published form) (form_is_featured form)
                    (is_submitted form) (csrf_valid form)) = true) /\
  exists post,
    fst r = Redirect "blog.admin_posts" /\
    posts (db (snd r)) = posts (db w) ++ [post] /\
    content post = Some "" /\
    Some (title post) = form_title form.
Proof.
  intros C A V B T D r. split; [intros body; exact V|].
  subst r. unfold create_post, admin_required. rewrite C, A, V. cbn [negb].
  destruct (validate_on_submit_title form V) as [ttl Ht]. rewrite Ht.
  unfold Post_generate_slug. cbn [title].
  destruct (generate_slug_value_spec (db w) ttl) as (k & -> & Free & _).
  destruct (create_cover_image cfg uuid_hex form (files w)) as [image fs].
  rewrite T. cbn [bind fst snd].
  set (post := if form_is_published form then _ else _).
  assert (Fields : content post = Some "" /\ title post = ttl /\
                   slug post = slug_candidate (slugify ttl) k).
  { subst post. rewrite B.
    destruct (form_is_published form), (PyStr.truthy_opt image); repeat split. }
  destruct Fields as (Fc & Ft & Fs).
  destruct (form_tag_objects_frame _ _ _ _ T) as (_ & P & _ & _).
  rewrite (session_add_post_unused d1 post).
  - cbn [bind]. unfold flush_post_tags.
    rewrite filter_not_mem_nil, D. cbn [bind fst snd db posts].
    exists post. rewrite P, Ft. repeat split. exact Fc.
  - congruence.
  - rewrite P, Fs. exact Free.
Qed.

(* ------------------------------------------------------------------ *)
(** ** The theorems at work on the sample site *)
(* ------------------------------------------------------------------ *)

Lemma generate_slug_first_unused_candidate_witness :
  exists p1 d1 p2,
    @Post_generate_slug Sample.external Sample.site Sample.draft = Some p1 /\
    slug p1 = "fresh-post" /\
    session_add_post Sample.site p1 = Ok d1 /\
    @Post_generate_slug Sample.external d1 Sample.draft = Some p2 /\
    slug p2 = "fresh-post-1".
Proof.
  destruct (@generate_slug_first_unused_candidate Sample.external Sample.site Sample.draft)
    as (_ & _ & Two).
  apply (Two Sample.draft).
  - reflexivity.
  - discriminate.
  - intros q [<-|[]]. discriminate.
  - intros q [<-|[]]. discriminate.
Defined.

Lemma edit_post_keeps_slug_witness :
  let r := @edit_post Sample.external Sample.cfg 50 "u" 1
             (Sample.submission "New title" "B" true) Sample.as_admin in
  exists post',
    Post_query_get (db (snd r)) 1 = Some post' /\
    slug post' = "hello-world" /\
    Some (title post') = Some "New title".
Proof.
  destruct (@edit_post_keeps_slug Sample.external Sample.cfg 50 "u" 1
              (Sample.submission "New title" "B" true) Sample.as_admin) as [_ E].
  apply (E Sample.hello); reflexivity.
Defined.


Lemma save_image_checks_extension_witness :
  fst (save_image (base_config "/srv/blog") "0123abcd" (Some Sample.photo) [])
  = Some "0123abcd.png" /\
  PyStr.endswith "0123abcd.png" ".png" = true.
Proof.
  destruct (save_image_checks_extension "/srv/blog" "0123abcd" (Some Sample.photo) [])
    as (_ & _ & _ & Accept & _).
  destruct (Accept Sample.photo "photo" "PNG" eq_refl eq_refl eq_refl) as [R E].
  - simpl. auto.
  - split; [now rewrite R | exact E].
Defined.

Lemma view_post_increments_views_witness :
  exists post',
    Post_query_published_by_slug
      (db (view_post_times [1; 2; 3]%Z "hello-world" Sample.as_admin)) "hello-world"
    = Some post' /\
    views post' = Some 3%Z.
Proof.
  destruct view_post_increments_views as [_ Many].
  destruct (Many [1; 2; 3]%Z "hello-world" Sample.as_admin Sample.hello)
    as (post' & Q & _ & _ & V).
  - unfold posts_primary_key. simpl. constructor; [intros [] | constructor].
  - reflexivity.
  - exists post'. split; [exact Q | apply V; discriminate].
Defined.

Lemma delete_post_keeps_tags_witness :
  let r := delete_post Sample.cfg 1 Sample.as_admin in
  tags (db (snd r)) = [Sample.python] /\
  Post_query_get (db (snd r)) 1 = None /\
  (forall a, In a (post_tags (db (snd r))) <->
             In a (post_tags (db Sample.as_admin)) /\ fst a <> 1%Z).
Proof.
  destruct (delete_post_keeps_tags Sample.cfg 1 Sample.as_admin) as [Keep Gone].
  destruct (Gone Sample.admin Sample.hello eq_refl eq_refl eq_refl) as (_ & G & _ & A).
  split; [exact Keep | split; [exact G | exact A]].
Defined.

Lemma create_post_accepts_empty_body_witness :
  let form := Sample.submission "Untitled" "" false in
  let r := @create_post Sample.external Sample.cfg 50 "u" form Sample.as_admin in
  exists post,
    fst r = Redirect "blog.admin_posts" /\
    posts (db (snd r)) = posts (db Sample.as_admin) ++ [post] /\
    content post = Some "" /\
    Some (title post) = Some "Untitled".
Proof.
  exact (proj2 (@create_post_accepts_empty_body Sample.external Sample.cfg 50 "u"
                  (Sample.submission "Untitled" "" false) Sample.as_admin Sample.admin
                  [] Sample.site eq_refl eq_refl eq_refl eq_refl eq_refl eq_refl)).
Defined.

Lemma SiteSettings_get_after_set_witness :
  SiteSettings_get (snd (SiteSettings_set 5 Sample.site "about_title" (Some "Hi")))
                   "about_title" None = Some "Hi" /\
  SiteSettings_get Sample.site "about_title" (Some "Welcome to my blog")
  = Some "Welcome to my blog".
Proof.
  split.
  - exact (proj1 (SiteSettings_get_after_set 5 Sample.site "about_title" (Some "Hi") None)).
  - exact (proj2 (SiteSettings_get_after_set 5 Sample.site "about_title" None
                    (Some "Welcome to my blog")) eq_refl).
Defined.

Lemma login_refuses_non_admin_witness :
  let form := mkLoginForm "reader" "secret" false true in
  let r := @login Sample.external form None Sample.as_anonymous in
  r = (Redirect "auth.login",
       flash "Access denied. Admin privileges required." "error" Sample.as_anonymous) /\
  current_user (snd r) = None.
Proof.
  destruct (@login_refuses_non_admin Sample.external
              (mkLoginForm "reader" "secret" false true) None Sample.as_anonymous)
    as [_ Denied].
  exact (Denied Sample.reader eq_refl eq_refl eq_refl eq_refl eq_refl).
Defined.

(* ================================================================== *)
(** * Further properties of the handlers *)
(* ================================================================== *)

(* ------------------------------------------------------------------ *)
(** ** Who may use the admin handlers *)
(* ------------------------------------------------------------------ *)

(** X1. A logged-in user without admin rights gets 403 from every admin
    handler that writes, and an anonymous visitor is sent to the login page;
    in both cases the database and the files are as before. *)
Theorem admin_handlers_reject_others `{External} (cfg : Config) (now : datetime)
    (clock : string -> datetime) (uuid_hex : string) (id : Z) (form : PostForm)
    (aform : AboutForm) (w : World) :
  (forall user,
      current_user w = Some user -> is_admin user = false ->
      create_post cfg now uuid_hex form w = (Abort 403, w) /\
      edit_post cfg now uuid_hex id form w = (Abort 403, w) /\
      delete_post cfg id w = (Abort 403, w) /\
      toggle_publish now id w = (Abort 403, w) /\
      admin_about clock aform w = (Abort 403, w)) /\
  (current_user w = None ->
   let denied := (Redirect "auth.login",
                  flash "Please log in to access this page." "info" w) in
   create_post cfg now uuid_hex form w = denied /\
   edit_post cfg now uuid_hex id form w = denied /\
   delete_post cfg id w = denied /\
   toggle_publish now id w = denied /\
   admin_about clock aform w = denied /\
   db (snd denied) = db w /\ files (snd denied) = files w).
Proof.
  split.
  - intros user C A.
    unfold create_post, edit_post, delete_post, toggle_publish, admin_about,
      admin_required.
    rewrite C, A. repeat split.
  - intros C.
    unfold create_post, edit_post, delete_post, toggle_publish, admin_about,
      admin_required.
    rewrite C. repeat split.
Qed.

(* ------------------------------------------------------------------ *)
(** ** Sessions *)
(* ------------------------------------------------------------------ *)

(** X2. An anonymous visitor who submits a valid form with an
    administrator's user name and password is logged in as that user and
    welcomed; the redirect goes to the dashboard, or to the [next] argument
    when that starts with a slash. *)
Theorem login_admin_opens_session `{External} (form : LoginForm)
    (next : option string) (w : World) (u : User) :
  current_user w = None ->
  login_validate_on_submit form = true ->
  User_query_filter_by_username (db w) (login_username form) = Some u ->
  User_check_password u (login_password form) = true ->
  is_admin u = true ->
  let r := login form next w in
  snd r = flash "Welcome back!" "success" (login_user u w) /\
  session_user_id (snd r) = Some (user_id u) /\
  fst r = match next with
          | Some url => if startswith_slash url then RedirectUrl url
                        else Redirect "blog.admin_dashboard"
          | None => Redirect "blog.admin_dashboard"
          end.
Proof.
  intros C V Q P A. unfold login. rewrite C, V, Q, P, A. cbn [negb].
  destruct next as [url|]; [|repeat split].
  destruct url as [|c url]; [repeat split|].
  cbn [PyStr.truthy String.eqb negb orb].
  destruct (startswith_slash (String c url)); repeat split.
Qed.

(** X3. [login] never redirects to an address outside the site's own
    endpoints other than a [next] argument that starts with a slash. *)
Theorem login_redirect_is_local `{External} (form : LoginForm)
    (next : option string) (w : World) (url : string) :
  fst (login form next w) = RedirectUrl url ->
  next = Some url /\ startswith_slash url = true.
Proof.
  unfold login.
  destruct (current_user w); [discriminate|].
  destruct (login_validate_on_submit form); [|discriminate].
  destruct (User_query_filter_by_username (db w) _) as [u|]; [|discriminate].
  destruct (User_check_password u _); cbn [negb]; [|discriminate].
  destruct (is_admin u); cbn [negb]; [|discriminate].
  destruct next as [n|]; [|discriminate].
  destruct (negb (PyStr.truthy n) || negb (startswith_slash n)) eqn:E;
    [discriminate|].
  cbn [fst]. intros R. injection R as ->.
  apply orb_false_iff in E. destruct E as [_ E].
  apply negb_false_iff in E. now split.
Qed.

(** X4. An unknown user name and a wrong password get the very same answer,
    and neither opens a session. *)
Theorem login_bad_credentials_alike `{External} (form : LoginForm)
    (next : option string) (w : World) :
  current_user w = None ->
  login_validate_on_submit form = true ->
  (User_query_filter_by_username (db w) (login_username form) = None \/
   exists u, User_query_filter_by_username (db w) (login_username form) = Some u /\
             User_check_password u (login_password form) = false) ->
  login form next w
  = (Redirect "auth.login", flash "Invalid username or password" "error" w) /\
  current_user (snd (login form next w)) = None.
Proof.
  intros C V Bad. unfold login. rewrite C, V.
  destruct Bad as [-> | (u & -> & ->)]; cbn [negb snd]; split;
    try reflexivity; exact C.
Qed.

(** X5. [logout] ends the session of whoever is logged in and touches
    neither the database nor the files; after it every admin handler that
    writes sends the visitor to the login page. *)
Theorem logout_closes_session `{External} (cfg : Config) (now : datetime)
    (uuid_hex : string) (id : Z) (form : PostForm) (w : World) (user : User) :
  current_user w = Some user ->
  let w' := snd (logout w) in
  fst (logout w) = Redirect "blog.index" /\
  current_user w' = None /\
  db w' = db w /\ files w' = files w /\
  fst (create_post cfg now uuid_hex form w') = Redirect "auth.login" /\
  fst (edit_post cfg now uuid_hex id form w') = Redirect "auth.login" /\
  fst (delete_post cfg id w') = Redirect "auth.login" /\
  fst (toggle_publish now id w') = Redirect "auth.login" /\
  db (snd (delete_post cfg id w')) = db w.
Proof.
  intros C. unfold logout, login_required. rewrite C. cbn [fst snd].
  unfold create_post, edit_post, delete_post, toggle_publish, admin_required.
  repeat split.
Qed.

(* ------------------------------------------------------------------ *)
(** ** Changing the password *)
(* ------------------------------------------------------------------ *)

Lemma find_update_user_row (u u0 : User) (rows : list User) :
  find (fun r => Z.eqb (user_id r) (user_id u)) rows = Some u0 ->
  find (fun r => Z.eqb (user_id r) (user_id u)) (update_user_row u rows) = Some u.
Proof.
  induction rows as [|r rest IH]; simpl; intros F.
  - discriminate.
  - destruct (Z.eqb (user_id r) (user_id u)) eqn:E; simpl.
    + now rewrite Z.eqb_refl.
    + rewrite E. auto.
Qed.

Lemma in_update_user_row_other (u x : User) (rows : list User) :
  user_id x <> user_id u ->
  In x (update_user_row u rows) <-> In x rows.
Proof.
  intros N. induction rows as [|r rest IH]; simpl; [reflexivity|].
  destruct (Z.eqb (user_id r) (user_id u)) eqn:E; simpl.
  - apply Z.eqb_eq in E. split; intros [<-|Hin]; auto; congruence.
  - rewrite IH. reflexivity.
Qed.

Lemma load_user_id (d : DB) (id : Z) (u : User) :
  load_user d id = Some u -> user_id u = id.
Proof.
  unfold load_user. intros F. apply find_some in F.
  destruct F as [_ E]. now apply Z.eqb_eq in E.
Qed.

(** X6. [change_password] writes nothing unless the visitor is logged in,
    the form validates, the current password verifies and the two new
    passwords are equal; a wrong current password and a mismatch are each
    answered on the change-password page. *)
Theorem change_password_needs_current_password `{External}
    (form : ChangePasswordForm) (w : World) :
  let r := change_password form w in
  (db (snd r) <> db w ->
   exists user,
     current_user w = Some user /\
     change_validate_on_submit form = true /\
     User_check_password user (current_password form) = true /\
     new_password form = confirm_password form) /\
  (forall user,
      current_user w = Some user ->
      change_validate_on_submit form = true ->
      User_check_password user (current_password form) = false ->
      r = (Redirect "auth.change_password",
           flash "Current password is incorrect." "error" w)) /\
  (forall user,
      current_user w = Some user ->
      change_validate_on_submit form = true ->
      User_check_password user (current_password form) = true ->
      new_password form <> confirm_password form ->
      r = (Redirect "auth.change_password",
           flash "New passwords do not match." "error" w)).
Proof.
  unfold change_password, login_required. split; [|split].
  - destruct (current_user w) as [user|]; [|intros N; now contradiction N].
    destruct (change_validate_on_submit form); [|intros N; now contradiction N].
    destruct (User_check_password user _) eqn:P; cbn [negb];
      [|intros N; now contradiction N].
    destruct (String.eqb (new_password form) (confirm_password form)) eqn:E;
      cbn [negb]; [|intros N; now contradiction N].
    intros _. exists user. apply String.eqb_eq in E. now repeat split.
  - intros user -> -> ->. reflexivity.
  - intros user -> -> -> N. apply String.eqb_neq in N. rewrite N. reflexivity.
Qed.

(** X7. After an accepted password change the logged-in user's row carries
    the hash of the new password, every other user's row is as before, and
    the session goes on; when the hashing library verifies what it hashed,
    the new password verifies. *)
Theorem change_password_sets_new_hash `{External}
    (form : ChangePasswordForm) (w : World) (user : User) :
  current_user w = Some user ->
  change_validate_on_submit form = true ->
  User_check_password user (current_password form) = true ->
  new_password form = confirm_password form ->
  let r := change_password form w in
  let user' := User_set_password user (new_password form) in
  fst r = Redirect "blog.admin_dashboard" /\
  current_user (snd r) = Some user' /\
  password_hash user' = generate_password_hash (new_password form) /\
  (forall x, user_id x <> user_id user ->
             (In x (users (db (snd r))) <-> In x (users (db w)))) /\
  posts (db (snd r)) = posts (db w) /\
  ((forall p, check_password_hash (generate_password_hash p) p = true) ->
   User_check_password user' (new_password form) = true).
Proof.
  intros C V P E. unfold change_password, login_required.
  rewrite C, V, P. cbn [negb].
  apply String.eqb_eq in E. rewrite E. cbn [negb fst snd].
  split; [reflexivity | split; [|split; [reflexivity | split; [|split]]]].
  - unfold current_user in *. cbn [session_user_id with_db flash db].
    destruct (session_user_id w) as [sid|]; [|discriminate].
    pose proof (load_user_id _ _ _ C) as I.
    unfold load_user in *. cbn [users commit_user].
    rewrite <- I in C |- *.
    exact (find_update_user_row (User_set_password user (new_password form)) user _ C).
  - intros x N. cbn [db with_db flash commit_user users].
    now apply in_update_user_row_other.
  - reflexivity.
  - intros Lib. unfold User_check_password, User_set_password. cbn [password_hash].
    apply Lib.
Qed.

(* ------------------------------------------------------------------ *)
(** ** Site settings and the About page *)
(* ------------------------------------------------------------------ *)

Lemma find_update_first_setting_other (now : datetime) (k k' : string)
    (v : option string) (rows : list SiteSettings) :
  k' <> k ->
  find (fun s => String.eqb (key s) k') (update_first_setting now k v rows)
  = find (fun s => String.eqb (key s) k') rows.
Proof.
  intros N. induction rows as [|r rest IH]; simpl; [reflexivity|].
  destruct (String.eqb (key r) k) eqn:E; simpl.
  - apply String.eqb_eq in E.
    assert (F : String.eqb (key r) k' = false)
      by (apply String.eqb_neq; congruence).
    now rewrite F.
  - destruct (String.eqb (key r) k'); [reflexivity | exact IH].
Qed.

Lemma find_app_other {A : Type} (f : A -> bool) (l : list A) (x : A) :
  f x = false -> find f (l ++ [x]) = find f l.
Proof.
  intros N. induction l as [|a l IH]; simpl.
  - now rewrite N.
  - destruct (f a); [reflexivity | exact IH].
Qed.

Lemma update_first_setting_keys (now : datetime) (k : string) (v : option string)
    (rows : list SiteSettings) :
  map key (update_first_setting now k v rows) = map key rows.
Proof.
  induction rows as [|r rest IH]; simpl; [reflexivity|].
  destruct (String.eqb (key r) k); simpl; [reflexivity | now rewrite IH].
Qed.

Lemma SiteSettings_get_set_same (now : datetime) (d : DB) (k : string)
    (v default : option string) :
  SiteSettings_get (snd (SiteSettings_set now d k v)) k default = v.
Proof.
  unfold SiteSettings_set, SiteSettings_get.
  destruct (SiteSettings_query_filter_by_key d k) as [s0|] eqn:Q;
    unfold SiteSettings_query_filter_by_key in *; simpl.
  - destruct (find_update_first_setting now k v _ _ Q) as (s1 & -> & V). exact V.
  - rewrite (find_app_new _ _ _ Q); [reflexivity|]. simpl. apply String.eqb_refl.
Qed.

Lemma SiteSettings_get_set_other (now : datetime) (d : DB) (k k' : string)
    (v default : option string) :
  k' <> k ->
  SiteSettings_get (snd (SiteSettings_set now d k v)) k' default
  = SiteSettings_get d k' default.
Proof.
  intros N. unfold SiteSettings_set, SiteSettings_get.
  destruct (SiteSettings_query_filter_by_key d k) as [s0|] eqn:Q;
    unfold SiteSettings_query_filter_by_key in *; simpl.
  - now rewrite find_update_first_setting_other.
  - rewrite find_app_other; [reflexivity|].
    simpl. apply String.eqb_neq. congruence.
Qed.

(** X8. [SiteSettings.set] on one key changes no other key's value, keeps
    the keys of the table distinct, leaves the other tables alone, and adds a
    row exactly when the key had none. *)
Theorem SiteSettings_set_touches_one_key (now : datetime) (d : DB) (k : string)
    (v : option string) :
  let d' := snd (SiteSettings_set now d k v) in
  (forall k' default, k' <> k ->
      SiteSettings_get d' k' default = SiteSettings_get d k' default) /\
  (setting_keys_unique d -> setting_keys_unique d') /\
  length (site_settings d') =
    match SiteSettings_query_filter_by_key d k with
    | Some _ => length (site_settings d)
    | None => S (length (site_settings d))
    end /\
  users d' = users d /\ posts d' = posts d /\ tags d' = tags d /\
  post_tags d' = post_tags d.
Proof.
  split; [|split; [|split]].
  - intros k' default N. now apply SiteSettings_get_set_other.
  - unfold setting_keys_unique, SiteSettings_set.
    destruct (SiteSettings_query_filter_by_key d k) as [s0|] eqn:Q; simpl.
    + now rewrite update_first_setting_keys.
    + intros ND. rewrite map_app. simpl.
      apply NoDup_app; [exact ND | constructor; [intros [] | constructor] |].
      intros x Hin [<-|[]].
      apply in_map_iff in Hin. destruct Hin as (s & Hs & Hin).
      unfold SiteSettings_query_filter_by_key in Q.
      apply (find_none _ _ Q) in Hin. simpl in Hin.
      apply String.eqb_neq in Hin. contradiction.
  - unfold SiteSettings_set.
    destruct (SiteSettings_query_filter_by_key d k) as [s0|]; simpl.
    + rewrite <- (length_map key), update_first_setting_keys. apply length_map.
    + rewrite length_app. simpl. lia.
  - unfold SiteSettings_set.
    destruct (SiteSettings_query_filter_by_key d k); repeat split.
Qed.

(** X9. After an administrator's accepted About form, the About page shows
    exactly what was submitted, an omitted field as the empty string,
    whatever the settings were before. *)
Theorem admin_about_then_about (clock : string -> datetime) (form : AboutForm)
    (w : World) (user : User) :
  current_user w = Some user -> is_admin user = true ->
  AboutForm_validate_on_submit form = true ->
  let r := admin_about clock form w in
  fst r = Redirect "blog.admin_about" /\
  about_data (db (snd r)) =
  [ ("about_title", Some (or_empty (form_about_title form)));
    ("about_intro", Some (or_empty (form_about_intro form)));
    ("about_content", Some (or_empty (form_about_content form)));
    ("twitter_url", Some (or_empty (form_twitter_url form)));
    ("github_url", Some (or_empty (form_github_url form)));
    ("linkedin_url", Some (or_empty (form_linkedin_url form))) ].
Proof.
  intros C A V. unfold admin_about, admin_required. rewrite C, A, V.
  cbn [negb fst snd db with_db flash]. split; [reflexivity|].
  unfold about_data, save_about_settings.
  repeat (rewrite ?SiteSettings_get_set_same;
          rewrite ?SiteSettings_get_set_other by discriminate).
  reflexivity.
Qed.

(* ------------------------------------------------------------------ *)
(** ** More on updating a post row *)
(* ------------------------------------------------------------------ *)

Lemma update_post_row_split (now : datetime) (p p0 : Post) (rows : list Post) :
  find (fun r => Z.eqb (post_id r) (post_id p)) rows = Some p0 ->
  exists l1 l2,
    rows = l1 ++ p0 :: l2 /\
    update_post_row now p rows = l1 ++ updated_row now p0 p :: l2 /\
    forall r, In r l1 -> post_id r <> post_id p.
Proof.
  induction rows as [|r rest IH]; simpl; intros F.
  - discriminate.
  - destruct (Z.eqb (post_id r) (post_id p)) eqn:E.
    + injection F as ->. exists [], rest. repeat split. intros r [].
    + destruct (IH F) as (l1 & l2 & -> & U & N).
      exists (r :: l1), l2. simpl. rewrite U. repeat split.
      intros x [<-|Hin]; [now apply Z.eqb_neq | auto].
Qed.

Lemma find_by_id_unique (p : Post) (rows : list Post) :
  NoDup (map post_id rows) -> In p rows ->
  find (fun r => Z.eqb (post_id r) (post_id p)) rows = Some p.
Proof.
  induction rows as [|r rest IH]; simpl; intros ND Hin; [contradiction|].
  inversion ND as [|? ? Hnot ND']; subst.
  destruct Hin as [->|Hin].
  - now rewrite Z.eqb_refl.
  - destruct (Z.eqb (post_id r) (post_id p)) eqn:E; [|auto].
    apply Z.eqb_eq in E. exfalso. apply Hnot. rewrite E. now apply in_map.
Qed.

Lemma in_update_post_row_other (now : datetime) (p q : Post) (rows : list Post) :
  post_id q <> post_id p ->
  In q (update_post_row now p rows) <-> In q rows.
Proof.
  intros N. induction rows as [|r rest IH]; simpl; [reflexivity|].
  destruct (Z.eqb (post_id r) (post_id p)) eqn:E; simpl.
  - apply Z.eqb_eq in E.
    destruct (updated_row_fields now r p) as (Hi & _).
    split; intros [<-|Hin]; auto; congruence.
  - rewrite IH. reflexivity.
Qed.

Lemma published_query_In (d : DB) (s : string) (post : Post) :
  Post_query_published_by_slug d s = Some post ->
  In post (posts d) /\ slug post = s /\ is_published post = true.
Proof.
  unfold Post_query_published_by_slug. intros F. apply find_some in F.
  destruct F as [Hin E]. apply andb_true_iff in E. destruct E as [Es Ep].
  apply String.eqb_eq in Es. destruct (is_published post); [|discriminate].
  now repeat split.
Qed.

(* ------------------------------------------------------------------ *)
(** ** Viewing *)
(* ------------------------------------------------------------------ *)

(** X10. A slug that belongs to no published post, be it unknown or the slug
    of a draft, gets 404, and nothing is counted or written. *)
Theorem view_post_hides_drafts (now : datetime) (s : string) (w : World) :
  (forall p, In p (posts (db w)) -> slug p = s -> is_published p = false) ->
  view_post now s w = (Abort 404, w).
Proof.
  intros Hidden. unfold view_post.
  destruct (Post_query_published_by_slug (db w) s) as [post|] eqn:Q; [|reflexivity].
  apply published_query_In in Q. destruct Q as (Hin & Hs & Hp).
  rewrite (Hidden post Hin Hs) in Hp. discriminate.
Qed.

(** X11. A public view writes the viewed post's row and nothing else: the
    row afterwards is the old one with the new counter and [updated_at],
    every other post is as before, and so are the other tables, the files,
    the session and the flashed messages. *)
Theorem view_post_writes_one_row (now : datetime) (s : string) (w : World)
    (post : Post) :
  posts_primary_key (db w) ->
  Post_query_published_by_slug (db w) s = Some post ->
  let w' := snd (view_post now s w) in
  Post_query_get (db w') (post_id post)
  = Some (set_updated_at (set_views post (Some (or_0 (views post) + 1)%Z)) now) /\
  (forall q, post_id q <> post_id post ->
             (In q (posts (db w')) <-> In q (posts (db w)))) /\
  users (db w') = users (db w) /\ tags (db w') = tags (db w) /\
  post_tags (db w') = post_tags (db w) /\
  site_settings (db w') = site_settings (db w) /\
  files w' = files w /\ session_user_id w' = session_user_id w /\
  flashes w' = flashes w.
Proof.
  intros PK Q. unfold view_post. rewrite Q.
  cbn [Post_increment_views snd with_db db files session_user_id flashes
       commit_post users posts tags post_tags site_settings].
  destruct (published_query_In _ _ _ Q) as (Hin & _ & _).
  set (p := set_views post _).
  assert (F : find (fun r => Z.eqb (post_id r) (post_id p)) (posts (db w)) = Some post)
    by (apply (find_by_id_unique post); assumption).
  assert (U : updated_row now post p = set_updated_at p now).
  { unfold updated_row. destruct (Post_eq_dec post p) as [E|_]; [|reflexivity].
    exfalso. apply (f_equal views) in E. subst p. cbn [views set_views] in E.
    destruct (views post) as [v|]; [|discriminate].
    rewrite or_0_Some in E. injection E as E. lia. }
  split; [|split; [|repeat split]].
  - unfold Post_query_get. cbn [posts].
    change (post_id post) with (post_id p). rewrite <- U.
    now apply find_update_post_row.
  - intros q N. now apply in_update_post_row_other.
Qed.

(* ------------------------------------------------------------------ *)
(** ** The dashboard's statistics *)
(* ------------------------------------------------------------------ *)

Lemma total_views_sum (rows : list Post) :
  or_0 (sql_sum (map views rows))
  = fold_right Z.add 0%Z (map (fun p => or_0 (views p)) rows).
Proof.
  induction rows as [|r rest IH]; [reflexivity|].
  cbn [map sql_sum fold_right]. rewrite <- IH.
  destruct (views r) as [v|].
  - rewrite or_0_Some. destruct (sql_sum (map views rest)) as [t|].
    + now rewrite !or_0_Some.
    + rewrite or_0_Some. simpl. lia.
  - simpl. reflexivity.
Qed.

(** X12. One public view of a published post raises the dashboard's total
    of views by exactly one, and leaves its three post counts as they
    were. *)
Theorem view_post_raises_total_views (now : datetime) (s : string) (w : World)
    (post : Post) :
  posts_primary_key (db w) ->
  Post_query_published_by_slug (db w) s = Some post ->
  let d' := db (snd (view_post now s w)) in
  total_views d' = (total_views (db w) + 1)%Z /\
  total_posts d' = total_posts (db w) /\
  published_posts d' = published_posts (db w) /\
  draft_posts d' = draft_posts (db w).
Proof.
  intros PK Q. unfold view_post. rewrite Q.
  cbn [Post_increment_views snd with_db db commit_post].
  destruct (published_query_In _ _ _ Q) as (Hin & _ & _).
  set (p := set_views post _).
  assert (F : find (fun r => Z.eqb (post_id r) (post_id p)) (posts (db w)) = Some post)
    by (apply (find_by_id_unique post); assumption).
  destruct (update_post_row_split now p post _ F) as (l1 & l2 & E & U & _).
  destruct (updated_row_fields now post p) as (_ & _ & _ & _ & Hp & Hv & _).
  unfold total_views, total_posts, published_posts, draft_posts, commit_post.
  cbn [posts]. rewrite U, E. rewrite !total_views_sum, !map_app, !fold_right_app.
  rewrite !filter_app, !length_app. cbn [map fold_right filter length].
  rewrite Hv, Hp. subst p. cbn [views is_published set_views].
  rewrite or_0_Some.
  split; [|repeat split; destruct (is_published post); reflexivity].
  set (f := fold_right Z.add 0%Z (map (fun q => or_0 (views q)) l2)).
  assert (G : forall (l : list Z) a, fold_right Z.add a l = (fold_right Z.add 0 l + a)%Z).
  { induction l as [|x l IH]; intros a; simpl; [lia | rewrite IH; lia]. }
  rewrite (G _ (or_0 (views post) + 1 + f)%Z), (G _ (or_0 (views post) + f)%Z). lia.
Qed.

(* ------------------------------------------------------------------ *)
(** ** Lists without duplicates *)
(* ------------------------------------------------------------------ *)

Lemma NoDup_snoc {A : Type} (l : list A) (x : A) :
  NoDup l -> ~ In x l -> NoDup (l ++ [x]).
Proof.
  intros ND N. apply NoDup_app; [exact ND | constructor; [intros [] | constructor] |].
  intros a Hin [<-|[]]. contradiction.
Qed.

Lemma NoDup_map_filter {A B : Type} (f : A -> B) (g : A -> bool) (l : list A) :
  NoDup (map f l) -> NoDup (map f (filter g l)).
Proof.
  induction l as [|a l IH]; simpl; intros ND; [constructor|].
  inversion ND as [|? ? Hnot ND']; subst.
  destruct (g a); simpl; [|auto].
  constructor; [|auto].
  intros Hin. apply Hnot. apply in_map_iff in Hin.
  destruct Hin as (b & E & Hb). apply filter_In in Hb.
  rewrite <- E. apply in_map. tauto.
Qed.

Lemma next_id_above (ids : list Z) (x : Z) : In x ids -> (x < next_id ids)%Z.
Proof.
  unfold next_id. induction ids as [|y ids IH]; simpl; intros Hin; [contradiction|].
  destruct Hin as [->|Hin]; [lia|]. specialize (IH Hin). lia.
Qed.

Lemma next_id_fresh (ids : list Z) : ~ In (next_id ids) ids.
Proof. intros Hin. apply next_id_above in Hin. lia. Qed.

Lemma existsb_false_not_In {A : Type} (f : A -> string) (s : string) (l : list A) :
  existsb (fun r => String.eqb (f r) s) l = false -> ~ In s (map f l).
Proof.
  intros E Hin. apply in_map_iff in Hin. destruct Hin as (r & Hs & Hr).
  assert (T : existsb (fun r => String.eqb (f r) s) l = true).
  { apply existsb_exists. exists r. split; [exact Hr|]. now apply String.eqb_eq. }
  congruence.
Qed.

Lemma mem_Z_In (x : Z) (l : list Z) : mem_Z x l = true <-> In x l.
Proof.
  unfold mem_Z. rewrite existsb_exists. split.
  - intros (y & Hin & E). apply Z.eqb_eq in E. now subst.
  - intros Hin. exists x. split; [exact Hin | apply Z.eqb_refl].
Qed.

Lemma has_dup_false_NoDup (l : list Z) : has_dup l = false -> NoDup l.
Proof.
  induction l as [|x l IH]; simpl; intros E; [constructor|].
  apply orb_false_iff in E. destruct E as [M D].
  constructor; [|auto].
  intros Hin. apply mem_Z_In in Hin. congruence.
Qed.

(* ------------------------------------------------------------------ *)
(** ** Tags only grow *)
(* ------------------------------------------------------------------ *)

Lemma session_add_tag_grows (d d' : DB) (t : Tag) :
  tag_id t = next_id (map tag_id (tags d)) ->
  session_add_tag d t = Ok d' ->
  tags d' = tags d ++ [t] /\ (tags_unique d -> tags_unique d').
Proof.
  intros Id. unfold session_add_tag.
  destruct (existsb _ _) eqn:N; [discriminate|].
  destruct (existsb (fun r => String.eqb (tag_slug r) _) _) eqn:S; [discriminate|].
  intros E. injection E as <-. cbn [tags]. split; [reflexivity|].
  intros (Ni & Nn & Ns). unfold tags_unique. cbn [tags].
  rewrite !map_app. cbn [map].
  repeat split; apply NoDup_snoc; try assumption.
  - rewrite Id. apply next_id_fresh.
  - now apply existsb_false_not_In.
  - now apply existsb_false_not_In.
Qed.

Lemma flush_pending_grows (s : Session) (d : DB) :
  pending_is_new s ->
  flush_tags (pending_tags s) (stored s) = Ok d ->
  tags d = tags (stored s) ++ pending_tags s /\
  (tags_unique (stored s) -> tags_unique d).
Proof.
  intros [E|(t & E & Id)]; rewrite E; cbn [flush_tags].
  - intros F. injection F as <-. split; [now rewrite app_nil_r | tauto].
  - destruct (session_add_tag (stored s) t) as [d1|] eqn:A; cbn [bind]; [|discriminate].
    intros F. injection F as <-. exact (session_add_tag_grows _ _ _ Id A).
Qed.

Lemma Tag_get_or_create_grows `{External} (name : string) (s s' : Session) (t : Tag) :
  pending_is_new s ->
  Tag_get_or_create name s = Ok (t, s') ->
  pending_is_new s' /\
  tags (stored s') = tags (stored s) ++ pending_tags s /\
  (In t (tags (stored s')) \/ In t (pending_tags s')) /\
  tag_name t = str_strip (str_lower name) /\
  (tags_unique (stored s) -> tags_unique (stored s')).
Proof.
  intros Inv. unfold Tag_get_or_create.
  destruct (flush_tags (pending_tags s) (stored s)) as [d|] eqn:F; cbn [bind];
    [|discriminate].
  destruct (flush_pending_grows _ _ Inv F) as (G & U).
  destruct (Tag_query_filter_by_name d _) as [tag|] eqn:Q;
    intros E; injection E as <- <-; cbn [stored pending_tags].
  - unfold Tag_query_filter_by_name in Q. apply find_some in Q.
    destruct Q as [Hin Hn]. apply String.eqb_eq in Hn.
    split; [now left|]. split; [exact G|]. split; [now left|]. split; [exact Hn | exact U].
  - split; [right; eexists; split; reflexivity|].
    split; [exact G|]. split; [right; now left|]. split; [reflexivity | exact U].
Qed.

Lemma get_or_create_all_grows `{External} (names : list string) :
  forall s s' ts,
    pending_is_new s ->
    get_or_create_all names s = Ok (ts, s') ->
    pending_is_new s' /\
    (exists new, tags (stored s') ++ pending_tags s'
                 = (tags (stored s) ++ pending_tags s) ++ new) /\
    (exists new, tags (stored s') = tags (stored s) ++ new) /\
    (forall t, In t ts -> In t (tags (stored s') ++ pending_tags s')) /\
    map tag_name ts = map (fun n => str_strip (str_lower n)) names /\
    (tags_unique (stored s) -> tags_unique (stored s')).
Proof.
  induction names as [|n names IH]; cbn [get_or_create_all]; intros s s' ts Inv E.
  - injection E as <- <-.
    split; [exact Inv|].
    split; [exists []; now rewrite app_nil_r|].
    split; [exists []; now rewrite app_nil_r|].
    split; [intros t [] | split; [reflexivity | tauto]].
  - destruct (Tag_get_or_create n s) as [[t s1]|] eqn:G; cbn [bind fst snd] in E;
      [|discriminate].
    destruct (get_or_create_all names s1) as [[ts' s2]|] eqn:A; cbn [bind fst snd] in E;
      [|discriminate].
    injection E as <- <-.
    destruct (Tag_get_or_create_grows _ _ _ _ Inv G) as (Inv1 & E1 & In1 & Nm & U1).
    destruct (IH _ _ _ Inv1 A) as (Inv2 & (n2 & E2) & (m2 & S2) & In2 & Nms & U2).
    split; [exact Inv2|]. split; [|split; [|split; [|split]]].
    + exists (pending_tags s1 ++ n2). rewrite E2, E1. now rewrite <- !app_assoc.
    + exists (pending_tags s ++ m2). rewrite S2, E1. now rewrite <- app_assoc.
    + intros x [<-|Hin]; [|auto]. rewrite E2. apply in_or_app. left.
      apply in_or_app. exact In1.
    + cbn [map]. now rewrite Nm, Nms.
    + auto.
Qed.

Lemma form_tag_objects_grows `{External} (form : PostForm) (d d' : DB) (ts : list Tag) :
  form_tag_objects form d = Ok (ts, d') ->
  (exists new, tags d' = tags d ++ new) /\
  (forall t, In t ts -> In t (tags d')) /\
  (tags_unique d -> tags_unique d').
Proof.
  intros E. destruct (form_tag_objects_inv _ _ _ _ E) as (names & s & G & F).
  assert (Inv : pending_is_new (mkSession d [])) by now left.
  destruct (get_or_create_all_grows _ _ _ _ Inv G) as (Inv' & _ & (m & S) & I & _ & U).
  cbn [stored pending_tags] in S, U.
  destruct (flush_pending_grows _ _ Inv' F) as (T & U').
  split; [|split].
  - exists (m ++ pending_tags s). now rewrite T, S, app_assoc.
  - intros t Hin. rewrite T. now apply I.
  - auto.
Qed.

(** X13. No handler deletes or rewrites a tag: after [create_post],
    [edit_post], [delete_post], [toggle_publish] or [view_post], whatever the
    request and its outcome, the [tags] table is the old one with rows
    appended, if any. *)
Theorem handlers_only_append_tags `{External} (cfg : Config) (now : datetime)
    (uuid_hex : string) (id : Z) (s : string) (form : PostForm) (w : World) :
  (exists new, tags (db (snd (create_post cfg now uuid_hex form w))) = tags (db w) ++ new) /\
  (exists new, tags (db (snd (edit_post cfg now uuid_hex id form w))) = tags (db w) ++ new) /\
  tags (db (snd (delete_post cfg id w))) = tags (db w) /\
  tags (db (snd (toggle_publish now id w))) = tags (db w) /\
  tags (db (snd (view_post now s w))) = tags (db w).
Proof.
  assert (Same : exists new : list Tag, tags (db w) = tags (db w) ++ new)
    by (exists []; now rewrite app_nil_r).
  split; [|split; [|split; [|split]]].
  - unfold create_post, admin_required.
    destruct (current_user w) as [u|]; [|exact Same].
    destruct (is_admin u); cbn [negb]; [|exact Same].
    destruct (validate_on_submit form); [|exact Same].
    destruct (form_title form) as [ttl|]; [|exact Same].
    destruct (Post_generate_slug _ _) as [post|]; [|exact Same].
    destruct (create_cover_image _ _ _ _) as [image fs].
    destruct (form_tag_objects form (db w)) as [[ts d1]|] eqn:T; cbn [bind fst snd];
      [|exact Same].
    destruct (session_add_post d1 _) as [d2|] eqn:A; cbn [bind]; [|exact Same].
    destruct (flush_post_tags _ _ _ _) as [rows|]; cbn [bind snd db tags];
      [|exact Same].
    apply session_add_post_Ok in A. subst d2. cbn [tags].
    exact (proj1 (form_tag_objects_grows _ _ _ _ T)).
  - unfold edit_post, admin_required.
    destruct (current_user w) as [u|]; [|exact Same].
    destruct (is_admin u); cbn [negb]; [|exact Same].
    destruct (Post_query_get (db w) id) as [post|]; [|exact Same].
    destruct (validate_on_submit form); [|exact Same].
    destruct (form_title form) as [ttl|]; [|exact Same].
    destruct (edit_cover_image _ _ _ _ _) as [[image fs]|exc]; [|exact Same].
    destruct (form_tag_objects form (db w)) as [[ts d1]|] eqn:T; cbn [bind fst snd];
      [|exact Same].
    destruct (not_null _ _) as [c|]; cbn [bind]; [|exact Same].
    destruct (flush_post_tags _ _ _ _) as [rows|]; cbn [bind snd db tags commit_post];
      [|exact Same].
    exact (proj1 (form_tag_objects_grows _ _ _ _ T)).
  - unfold delete_post, admin_required.
    destruct (current_user w) as [u|]; [|reflexivity].
    destruct (is_admin u); cbn [negb]; [|reflexivity].
    destruct (Post_query_get (db w) id); reflexivity.
  - unfold toggle_publish, admin_required.
    destruct (current_user w) as [u|]; [|reflexivity].
    destruct (is_admin u); cbn [negb]; [|reflexivity].
    destruct (Post_query_get (db w) id); reflexivity.
  - unfold view_post.
    destruct (Post_query_published_by_slug (db w) s); reflexivity.
Qed.

(* ------------------------------------------------------------------ *)
(** ** What create_post and edit_post write *)
(* ------------------------------------------------------------------ *)

Lemma Post_generate_slug_fields `{External} (d : DB) (p p' : Post) :
  Post_generate_slug d p = Some p' ->
  exists s, p' = set_slug p s.
Proof.
  unfold Post_generate_slug. destruct (generate_slug_value d (title p)) as [s|];
    [|discriminate].
  intros E. injection E as <-. now exists s.
Qed.

(** Either [create_post] leaves the database as it was, or it stored one
    post and the tags of the form. *)
Lemma create_post_written `{External} (cfg : Config) (now : datetime)
    (uuid_hex : string) (form : PostForm) (w : World) :
  let r := create_post cfg now uuid_hex form w in
  (db (snd r) = db w /\ fst r <> Redirect "blog.admin_posts") \/
  exists user post ts d1 rows,
    fst r = Redirect "blog.admin_posts" /\
    current_user w = Some user /\ is_admin user = true /\
    form_tag_objects form (db w) = Ok (ts, d1) /\
    flush_post_tags (post_id post) [] (map tag_id ts) (post_tags (db w)) = Ok rows /\
    db (snd r) = mkDB (users (db w)) (posts (db w) ++ [post]) (tags d1) rows
                      (site_settings (db w)) /\
    post_id post = next_id (map post_id (posts (db w))) /\
    ~ In (slug post) (map slug (posts (db w))) /\
    Some (title post) = form_title form /\
    excerpt post = form_excerpt form /\
    content post = form_content form /\ content post <> None /\
    is_published post = form_is_published form /\
    is_featured post = form_is_featured form /\
    views post = Some 0%Z /\
    created_at post = now /\
    published_at post = (if form_is_published form then Some now else None) /\
    author_id post = user_id user.
Proof.
  unfold create_post, admin_required.
  destruct (current_user w) as [u|] eqn:C; [|left; split; [reflexivity | discriminate]].
  destruct (is_admin u) eqn:A; cbn [negb]; [|left; split; [reflexivity | discriminate]].
  destruct (validate_on_submit form); [|left; split; [reflexivity | discriminate]].
  destruct (form_title form) as [ttl|]; [|left; split; [reflexivity | discriminate]].
  destruct (Post_generate_slug _ _) as [post|] eqn:G;
    [|left; split; [reflexivity | discriminate]].
  destruct (Post_generate_slug_fields _ _ _ G) as [s ->].
  destruct (create_cover_image _ _ _ _) as [image fs].
  destruct (form_tag_objects form (db w)) as [[ts d1]|] eqn:T; cbn [bind fst snd];
    [|left; split; [reflexivity | discriminate]].
  set (post := if form_is_published form then _ else _).
  destruct (session_add_post d1 post) as [d2|] eqn:Add; cbn [bind];
    [|left; split; [reflexivity | discriminate]].
  destruct (form_tag_objects_frame _ _ _ _ T) as (Fu & Fp & Fa & Fs).
  assert (Fields :
    post_id post = next_id (map post_id (posts (db w))) /\
    Some (title post) = Some ttl /\ excerpt post = form_excerpt form /\
    content post = form_content form /\
    is_published post = form_is_published form /\
    is_featured post = form_is_featured form /\ views post = Some 0%Z /\
    created_at post = now /\
    published_at post = (if form_is_published form then Some now else None) /\
    author_id post = user_id u).
  { subst post. destruct (form_is_published form), (PyStr.truthy_opt image);
      repeat split. }
  assert (Fresh : ~ In (slug post) (map slug (posts (db w))) /\ content post <> None).
  { unfold session_add_post in Add. destruct (content post); [|discriminate].
    destruct (existsb _ _) eqn:X; [discriminate|].
    rewrite Fp in X. split; [now apply existsb_false_not_In | discriminate]. }
  apply session_add_post_Ok in Add. subst d2. cbn [post_tags posts users tags site_settings].
  destruct (flush_post_tags _ _ _ _) as [rows|] eqn:Fl; cbn [bind fst snd db];
    [|left; split; [reflexivity | discriminate]].
  right. exists u, post, ts, d1, rows.
  rewrite Fa in Fl. rewrite Fu, Fp, Fs.
  destruct Fields as (F1 & F2 & F3 & F4 & F5 & F6 & F7 & F8 & F9 & F10).
  destruct Fresh as (N1 & N2).
  repeat split; assumption.
Qed.

(** Either [edit_post] leaves the database as it was, or it rewrote the
    post's row and its tags. *)
Lemma edit_post_written `{External} (cfg : Config) (now : datetime)
    (uuid_hex : string) (id : Z) (form : PostForm) (w : World) :
  let r := edit_post cfg now uuid_hex id form w in
  (db (snd r) = db w /\ fst r <> Redirect "blog.admin_posts") \/
  exists post edited ts d1 rows,
    fst r = Redirect "blog.admin_posts" /\
    Post_query_get (db w) id = Some post /\
    form_tag_objects form (db w) = Ok (ts, d1) /\
    flush_post_tags (post_id post) [] (map tag_id ts)
                    (clear_post_tags (post_id post) (post_tags (db w))) = Ok rows /\
    db (snd r) = mkDB (users (db w)) (update_post_row now edited (posts (db w)))
                      (tags d1) rows (site_settings (db w)) /\
    post_id edited = post_id post /\ slug edited = slug post /\
    Some (title edited) = form_title form /\
    excerpt edited = form_excerpt form /\
    content edited = form_content form /\
    is_published edited = form_is_published form /\
    is_featured edited = form_is_featured form /\
    views edited = views post /\ created_at edited = created_at post /\
    author_id edited = author_id post /\
    published_at edited =
      (if negb (is_published post) && form_is_published form
       then Some now else published_at post) /\
    edit_cover_image cfg uuid_hex form post (files w)
    = Returns (cover_image edited, files (snd r)).
Proof.
  unfold edit_post, admin_required.
  destruct (current_user w) as [u|] eqn:C; [|left; split; [reflexivity | discriminate]].
  destruct (is_admin u) eqn:A; cbn [negb]; [|left; split; [reflexivity | discriminate]].
  destruct (Post_query_get (db w) id) as [post|] eqn:Q;
    [|left; split; [reflexivity | discriminate]].
  destruct (validate_on_submit form); [|left; split; [reflexivity | discriminate]].
  destruct (form_title form) as [ttl|]; [|left; split; [reflexivity | discriminate]].
  destruct (edit_cover_image _ _ _ _ _) as [[image fs]|exc] eqn:CI;
    [|left; split; [reflexivity | discriminate]].
  set (edited := set_cover_image _ image).
  assert (Fields :
    post_id edited = post_id post /\ slug edited = slug post /\
    Some (title edited) = Some ttl /\ excerpt edited = form_excerpt form /\
    content edited = form_content form /\
    is_published edited = form_is_published form /\
    is_featured edited = form_is_featured form /\
    views edited = views post /\ created_at edited = created_at post /\
    author_id edited = author_id post /\
    published_at edited =
      (if negb (is_published post) && form_is_published form
       then Some now else published_at post) /\
    cover_image edited = image).
  { subst edited. destruct (_ && _); repeat split. }
  destruct (form_tag_objects form (db w)) as [[ts d1]|] eqn:T; cbn [bind fst snd];
    [|left; split; [reflexivity | discriminate]].
  destruct (not_null _ _) as [c|]; cbn [bind];
    [|left; split; [reflexivity | discriminate]].
  destruct (form_tag_objects_frame _ _ _ _ T) as (Fu & Fp & Fa & Fs).
  destruct (flush_post_tags _ _ _ _) as [rows|] eqn:Fl;
    cbn [bind fst snd db commit_post users posts tags site_settings files];
    [|left; split; [reflexivity | discriminate]].
  right. exists post, edited, ts, d1, rows.
  rewrite Fa in Fl. rewrite Fu, Fp, Fs.
  destruct Fields as (F1 & F2 & F3 & F4 & F5 & F6 & F7 & F8 & F9 & F10 & F11 & F12).
  rewrite F12.
  repeat split; try assumption.
Qed.

(* ------------------------------------------------------------------ *)
(** ** The schema is kept *)
(* ------------------------------------------------------------------ *)

Lemma update_post_row_slugs (now : datetime) (p p0 : Post) (rows : list Post) :
  find (fun r => Z.eqb (post_id r) (post_id p)) rows = Some p0 ->
  slug p = slug p0 ->
  map slug (update_post_row now p rows) = map slug rows.
Proof.
  intros F S. pose proof (update_post_row_keys now p p0 rows F S) as K.
  apply (f_equal (map snd)) in K. rewrite !map_map in K. exact K.
Qed.

Lemma flush_post_tags_Ok (pid : Z) (old new : list Z) (rows rows' : list (Z * Z)) :
  flush_post_tags pid old new rows = Ok rows' ->
  NoDup (filter (fun t => negb (mem_Z t old)) new) /\
  rows' = filter (fun r => negb (Z.eqb (fst r) pid &&
                               mem_Z (snd r) (filter (fun t => negb (mem_Z t new)) old)))
                 rows
          ++ map (pair pid) (filter (fun t => negb (mem_Z t old)) new).
Proof.
  unfold flush_post_tags. destruct (has_dup _) eqn:D; [discriminate|].
  intros E. injection E as <-. split; [now apply has_dup_false_NoDup | reflexivity].
Qed.

Lemma flush_post_tags_In (pid : Z) (old new : list Z) (rows rows' : list (Z * Z)) :
  flush_post_tags pid old new rows = Ok rows' ->
  forall a, In a rows' ->
            (In a rows /\ (fst a = pid -> In (snd a) old -> In (snd a) new)) \/
            (fst a = pid /\ In (snd a) new /\ ~ In (snd a) old).
Proof.
  intros Fl a Hin. destruct (flush_post_tags_Ok _ _ _ _ _ Fl) as [_ ->].
  apply in_app_or in Hin. destruct Hin as [Hin|Hin].
  - left. apply filter_In in Hin. destruct Hin as [Hin P]. split; [exact Hin|].
    intros Ea Ho. apply negb_true_iff in P.
    apply andb_false_iff in P. destruct P as [P|P].
    + apply Z.eqb_neq in P. contradiction.
    + destruct (mem_Z (snd a) new) eqn:M; [now apply mem_Z_In|].
      exfalso. assert (T : mem_Z (snd a) (filter (fun t => negb (mem_Z t new)) old) = true).
      { apply mem_Z_In. apply filter_In. split; [exact Ho | now rewrite M]. }
      congruence.
  - right. apply in_map_iff in Hin. destruct Hin as (t & <- & Ht).
    apply filter_In in Ht. destruct Ht as [Hn Ho]. cbn [fst snd].
    repeat split; [exact Hn|]. intros Hin. apply mem_Z_In in Hin.
    rewrite Hin in Ho. discriminate.
Qed.

Lemma flush_post_tags_NoDup (pid : Z) (old new : list Z) (rows rows' : list (Z * Z)) :
  NoDup rows ->
  (forall a, In a rows -> fst a = pid -> In (snd a) old) ->
  flush_post_tags pid old new rows = Ok rows' ->
  NoDup rows'.
Proof.
  intros ND Old Fl. destruct (flush_post_tags_Ok _ _ _ _ _ Fl) as [NDa ->].
  apply NoDup_app.
  - now apply NoDup_filter.
  - apply Injective_map_NoDup; [|exact NDa]. intros x y E. now injection E.
  - intros a Hin Hadd. apply filter_In in Hin. destruct Hin as [Hin _].
    apply in_map_iff in Hadd. destruct Hadd as (t & <- & Ht).
    apply filter_In in Ht. destruct Ht as [_ Ho].
    specialize (Old _ Hin eq_refl). cbn [snd] in Old.
    apply mem_Z_In in Old. rewrite Old in Ho. discriminate.
Qed.

Lemma clear_post_tags_In (pid : Z) (rows : list (Z * Z)) (a : Z * Z) :
  In a (clear_post_tags pid rows) <-> In a rows /\ fst a <> pid.
Proof.
  unfold clear_post_tags. rewrite filter_In, negb_true_iff, Z.eqb_neq. tauto.
Qed.

Lemma clear_post_tags_NoDup (pid : Z) (rows : list (Z * Z)) :
  NoDup rows -> NoDup (clear_post_tags pid rows).
Proof. apply NoDup_filter. Qed.

Lemma post_tag_ids_In (d : DB) (pid : Z) (a : Z * Z) :
  In a (post_tags d) -> fst a = pid -> In (snd a) (post_tag_ids d pid).
Proof.
  intros Hin E. unfold post_tag_ids. apply in_map. apply filter_In.
  split; [exact Hin | now apply Z.eqb_eq].
Qed.

Lemma tags_grow_ids (old new : list Tag) (x : Z) :
  In x (map tag_id old) -> In x (map tag_id (old ++ new)).
Proof. intros Hin. rewrite map_app. apply in_or_app. now left. Qed.

Lemma create_post_keeps_schema `{External} (cfg : Config) (now : datetime)
    (uuid_hex : string) (form : PostForm) (w : World) :
  schema_holds (db w) -> schema_holds (db (snd (create_post cfg now uuid_hex form w))).
Proof.
  intros [(Ki & Ks & Kt & Kn & Kg & Ka) R].
  destruct (create_post_written cfg now uuid_hex form w)
    as [[-> _] | (user & post & ts & d1 & rows & _ & _ & _ & T & Fl & -> & Pi & Ps & _)];
    [now split|].
  destruct (form_tag_objects_grows _ _ _ _ T) as ((new & G) & I & U).
  destruct (U (conj Kt (conj Kn Kg))) as (Kt' & Kn' & Kg').
  assert (NoRow : forall a, In a (post_tags (db w)) -> fst a = post_id post -> In (snd a) []).
  { intros a Hin E. exfalso. destruct (R a Hin) as [Hp _].
    rewrite E, Pi in Hp. exact (next_id_fresh _ Hp). }
  split.
  - unfold keys_unique. cbn [posts tags post_tags]. rewrite !map_app. cbn [map].
    repeat split; try assumption.
    + apply NoDup_snoc; [exact Ki|]. rewrite Pi. apply next_id_fresh.
    + now apply NoDup_snoc.
    + exact (flush_post_tags_NoDup _ _ _ _ _ Ka NoRow Fl).
  - intros a Hin. cbn [posts tags post_tags] in *. rewrite map_app. cbn [map].
    destruct (flush_post_tags_In _ _ _ _ _ Fl a Hin) as [[Hr _] | (Ea & Hn & _)].
    + destruct (R a Hr) as [Hp Ht]. split.
      * apply in_or_app. now left.
      * rewrite G. now apply tags_grow_ids.
    + split.
      * apply in_or_app. right. left. now symmetry.
      * apply in_map_iff in Hn. destruct Hn as (t & <- & Ht).
        apply in_map. now apply I.
Qed.

Lemma edit_post_keeps_schema `{External} (cfg : Config) (now : datetime)
    (uuid_hex : string) (id : Z) (form : PostForm) (w : World) :
  schema_holds (db w) -> schema_holds (db (snd (edit_post cfg now uuid_hex id form w))).
Proof.
  intros [(Ki & Ks & Kt & Kn & Kg & Ka) R].
  destruct (edit_post_written cfg now uuid_hex id form w)
    as [[-> _] | (post & edited & ts & d1 & rows & _ & Q & T & Fl & -> & Ei & Es & _)];
    [now split|].
  destruct (form_tag_objects_grows _ _ _ _ T) as ((new & G) & I & U).
  destruct (U (conj Kt (conj Kn Kg))) as (Kt' & Kn' & Kg').
  assert (F : find (fun r => Z.eqb (post_id r) (post_id edited)) (posts (db w)) = Some post).
  { rewrite Ei. rewrite <- (Post_query_get_id _ _ _ Q) in Q. exact Q. }
  split.
  - unfold keys_unique. cbn [posts tags post_tags].
    rewrite update_post_row_ids, (update_post_row_slugs now edited post _ F Es).
    repeat split; try assumption.
    apply (flush_post_tags_NoDup (post_id post) [] (map tag_id ts)
             (clear_post_tags (post_id post) (post_tags (db w))) rows
             (clear_post_tags_NoDup (post_id post) _ Ka)); [|exact Fl].
    intros a Hin E. apply clear_post_tags_In in Hin. destruct Hin as [_ N]. contradiction.
  - intros a Hin. cbn [posts tags post_tags] in *. rewrite update_post_row_ids.
    destruct (flush_post_tags_In _ _ _ _ _ Fl a Hin) as [[Hr _] | (Ea & Hn & _)].
    + apply clear_post_tags_In in Hr. destruct Hr as [Hr _].
      destruct (R a Hr) as [Hp Ht]. split; [exact Hp|].
      rewrite G. now apply tags_grow_ids.
    + split.
      * rewrite Ea. apply find_some in F. destruct F as [Hp _].
        rewrite <- Ei. rewrite Ei. now apply in_map.
      * apply in_map_iff in Hn. destruct Hn as (t & <- & Ht).
        apply in_map. now apply I.
Qed.

Lemma delete_post_keeps_schema (cfg : Config) (id : Z) (w : World) :
  schema_holds (db w) -> schema_holds (db (snd (delete_post cfg id w))).
Proof.
  intros [(Ki & Ks & Kt & Kn & Kg & Ka) R].
  unfold delete_post, admin_required.
  destruct (current_user w) as [u|]; [|now split].
  destruct (is_admin u); cbn [negb]; [|now split].
  destruct (Post_query_get (db w) id) as [post|] eqn:Q; [|now split].
  cbn [snd db flash session_delete_post]. split.
  - unfold keys_unique. cbn [posts tags post_tags].
    repeat split; try assumption.
    + now apply NoDup_map_filter.
    + now apply NoDup_map_filter.
    + now apply NoDup_filter.
  - intros a Hin. cbn [posts tags post_tags] in *.
    apply filter_In in Hin. destruct Hin as [Hin N].
    destruct (R a Hin) as [Hp Ht]. split; [|exact Ht].
    apply in_map_iff in Hp. destruct Hp as (p & E & Hp).
    apply in_map_iff. exists p. split; [exact E|].
    apply filter_In. split; [exact Hp | now rewrite E].
Qed.

Lemma commit_post_keeps_schema (now : datetime) (d : DB) (p p0 : Post) :
  find (fun r => Z.eqb (post_id r) (post_id p)) (posts d) = Some p0 ->
  slug p = slug p0 ->
  schema_holds d -> schema_holds (commit_post now d p).
Proof.
  intros F S [(Ki & Ks & Kt & Kn & Kg & Ka) R]. split.
  - unfold keys_unique, commit_post. cbn [posts tags post_tags].
    rewrite update_post_row_ids, (update_post_row_slugs now p p0 _ F S).
    now repeat split.
  - intros a Hin. unfold commit_post in *. cbn [posts tags post_tags] in *.
    rewrite update_post_row_ids. now apply R.
Qed.

(** X14. The handlers keep the schema: when no two posts share an id or a
    slug, no two tags an id, a name or a slug, no association row is
    repeated and every association row names an existing post and tag, the
    same holds after [create_post], [edit_post], [delete_post],
    [toggle_publish] and [view_post], whatever the request. *)
Theorem handlers_keep_schema `{External} (cfg : Config) (now : datetime)
    (uuid_hex : string) (id : Z) (s : string) (form : PostForm) (w : World) :
  schema_holds (db w) ->
  schema_holds (db (snd (create_post cfg now uuid_hex form w))) /\
  schema_holds (db (snd (edit_post cfg now uuid_hex id form w))) /\
  schema_holds (db (snd (delete_post cfg id w))) /\
  schema_holds (db (snd (toggle_publish now id w))) /\
  schema_holds (db (snd (view_post now s w))).
Proof.
  intros S. split; [|split; [|split; [|split]]].
  - now apply create_post_keeps_schema.
  - now apply edit_post_keeps_schema.
  - now apply delete_post_keeps_schema.
  - unfold toggle_publish, admin_required.
    destruct (current_user w) as [u|]; [|exact S].
    destruct (is_admin u); cbn [negb]; [|exact S].
    destruct (Post_query_get (db w) id) as [post|] eqn:Q; [|exact S].
    cbn [snd db flash with_db].
    apply (commit_post_keeps_schema now (db w) _ post); [|reflexivity | exact S].
    cbn [post_id]. rewrite <- (Post_query_get_id _ _ _ Q) in Q. exact Q.
  - unfold view_post.
    destruct (Post_query_published_by_slug (db w) s) as [post|] eqn:Q; [|exact S].
    cbn [Post_increment_views snd db with_db].
    destruct (published_query_In _ _ _ Q) as (Hin & _ & _).
    apply (commit_post_keeps_schema now (db w) _ post); [|reflexivity | exact S].
    apply (find_by_id_unique post); [|exact Hin]. exact (proj1 (proj1 S)).
Qed.

(* ------------------------------------------------------------------ *)
(** ** Published posts carry their publication time *)
(* ------------------------------------------------------------------ *)

Lemma in_update_post_row (now : datetime) (p q : Post) (rows : list Post) :
  In q (update_post_row now p rows) ->
  In q rows \/ exists r, In r rows /\ q = updated_row now r p.
Proof.
  induction rows as [|r rest IH]; simpl; [tauto|].
  destruct (Z.eqb (post_id r) (post_id p)); simpl.
  - intros [<-|Hin]; [right; exists r; auto | auto].
  - intros [<-|Hin]; [auto|].
    destruct (IH Hin) as [Hr | (x & Hx & E)]; [auto | right; exists x; auto].
Qed.

Lemma commit_post_keeps_stamped (now : datetime) (d : DB) (p : Post) :
  (is_published p = true -> is_set (published_at p) = true) ->
  published_stamped d -> published_stamped (commit_post now d p).
Proof.
  intros Hp St q Hin Pub. unfold commit_post in Hin. cbn [posts] in Hin.
  destruct (in_update_post_row _ _ _ _ Hin) as [Hr | (r & Hr & ->)]; [now apply St|].
  destruct (updated_row_fields now r p) as (_ & _ & _ & _ & Ep & _ & Et).
  rewrite Et. rewrite Ep in Pub. auto.
Qed.

(** X15. The handlers keep every published post stamped: when each
    published post has a [published_at], the same holds after [create_post],
    [edit_post], [delete_post], [toggle_publish] and [view_post], whatever
    the request. *)
Theorem handlers_keep_published_stamped `{External} (cfg : Config) (now : datetime)
    (uuid_hex : string) (id : Z) (s : string) (form : PostForm) (w : World) :
  published_stamped (db w) ->
  published_stamped (db (snd (create_post cfg now uuid_hex form w))) /\
  published_stamped (db (snd (edit_post cfg now uuid_hex id form w))) /\
  published_stamped (db (snd (delete_post cfg id w))) /\
  published_stamped (db (snd (toggle_publish now id w))) /\
  published_stamped (db (snd (view_post now s w))).
Proof.
  intros St. split; [|split; [|split; [|split]]].
  - destruct (create_post_written cfg now uuid_hex form w)
      as [[-> _] | (user & post & ts & d1 & rows & _ & _ & _ & _ & _ & -> & R)];
      [exact St|].
    destruct R as (_ & _ & _ & _ & _ & _ & Ep & _ & _ & _ & Et & _).
    intros q Hin Pub. cbn [posts] in Hin. apply in_app_or in Hin.
    destruct Hin as [Hin | [<-|[]]]; [now apply St|].
    rewrite Et. rewrite Ep in Pub. now rewrite Pub.
  - destruct (edit_post_written cfg now uuid_hex id form w)
      as [[-> _] | (post & edited & ts & d1 & rows & _ & Q & _ & _ & -> & R)];
      [exact St|].
    destruct R as (_ & _ & _ & _ & _ & Ep & _ & _ & _ & _ & Et & _).
    unfold Post_query_get in Q. apply find_some in Q. destruct Q as [Hpost _].
    intros q Hin Pub. cbn [posts] in Hin.
    destruct (in_update_post_row _ _ _ _ Hin) as [Hr | (r & Hr & ->)]; [now apply St|].
    destruct (updated_row_fields now r edited) as (_ & _ & _ & _ & Ep' & _ & Et').
    rewrite Et', Et. rewrite Ep', Ep in Pub. rewrite Pub, andb_true_r.
    destruct (is_published post) eqn:Was; cbn [negb]; [|reflexivity].
    now apply St.
  - unfold delete_post, admin_required.
    destruct (current_user w) as [u|]; [|exact St].
    destruct (is_admin u); cbn [negb]; [|exact St].
    destruct (Post_query_get (db w) id) as [post|]; [|exact St].
    intros q Hin Pub. cbn [snd db flash session_delete_post posts] in Hin.
    apply filter_In in Hin. now apply St.
  - unfold toggle_publish, admin_required.
    destruct (current_user w) as [u|]; [|exact St].
    destruct (is_admin u); cbn [negb]; [|exact St].
    destruct (Post_query_get (db w) id) as [post|] eqn:Q; [|exact St].
    cbn [snd db flash with_db].
    apply commit_post_keeps_stamped; [|exact St].
    cbn [is_published published_at]. intros ->. cbn [andb].
    destruct (published_at post); reflexivity.
  - unfold view_post.
    destruct (Post_query_published_by_slug (db w) s) as [post|] eqn:Q; [|exact St].
    cbn [Post_increment_views snd db with_db].
    destruct (published_query_In _ _ _ Q) as (Hin & _ & _).
    apply commit_post_keeps_stamped; [|exact St].
    cbn [is_published published_at set_views]. now apply St.
Qed.

(* ------------------------------------------------------------------ *)
(** ** Toggling twice *)
(* ------------------------------------------------------------------ *)

Lemma toggle_publish_row (now : datetime) (id : Z) (w : World) (user : User)
    (post : Post) :
  current_user w = Some user -> is_admin user = true ->
  Post_query_get (db w) id = Some post ->
  let w' := snd (toggle_publish now id w) in
  let toggled :=
    mkPost (post_id post) (title post) (slug post) (excerpt post) (content post)
           (cover_image post) (negb (is_published post)) (is_featured post)
           (views post) (created_at post) now
           (if negb (is_published post) && negb (is_set (published_at post))
            then Some now else published_at post)
           (author_id post) in
  Post_query_get (db w') id = Some toggled /\
  current_user w' = Some user.
Proof.
  intros C A Q. unfold toggle_publish, admin_required. rewrite C, A, Q.
  cbn [negb snd db flash with_db]. split.
  - set (p := mkPost (post_id post) _ _ _ _ _ _ _ _ _ _ _ _).
    assert (F : find (fun r => Z.eqb (post_id r) (post_id p)) (posts (db w)) = Some post).
    { cbn [post_id p]. rewrite <- (Post_query_get_id _ _ _ Q) in Q. exact Q. }
    unfold Post_query_get, commit_post. cbn [posts].
    rewrite <- (Post_query_get_id _ _ _ Q).
    change (post_id post) with (post_id p) at 1.
    rewrite (find_update_post_row now p post _ F). f_equal.
    unfold updated_row. destruct (Post_eq_dec post p) as [E|_]; [|reflexivity].
    exfalso. apply (f_equal is_published) in E. cbn [is_published p] in E.
    destruct (is_published post); discriminate.
  - unfold current_user in *. cbn [session_user_id db flash with_db commit_post].
    destruct (session_user_id w); [|discriminate]. exact C.
Qed.

(** X16. Two toggles in a row give back the publication state and change
    nothing else of the post but [updated_at] and, when the post had no
    [published_at], that field, which then holds the time of the toggle that
    published the post. *)
Theorem toggle_publish_twice (now1 now2 : datetime) (id : Z) (w : World)
    (user : User) (post : Post) :
  current_user w = Some user -> is_admin user = true ->
  Post_query_get (db w) id = Some post ->
  let w2 := snd (toggle_publish now2 id (snd (toggle_publish now1 id w))) in
  Post_query_get (db w2) id
  = Some (mkPost (post_id post) (title post) (slug post) (excerpt post)
                 (content post) (cover_image post) (is_published post)
                 (is_featured post) (views post) (created_at post) now2
                 (match published_at post with
                  | Some t => Some t
                  | None => Some (if is_published post then now2 else now1)
                  end)
                 (author_id post)).
Proof.
  intros C A Q.
  destruct (toggle_publish_row now1 id w user post C A Q) as [Q1 C1].
  destruct (toggle_publish_row now2 id _ user _ C1 A Q1) as [Q2 _].
  cbn zeta. rewrite Q2.
  cbn [post_id title slug excerpt content cover_image is_published is_featured
       views created_at published_at author_id].
  rewrite negb_involutive.
  destruct (published_at post) as [t|], (is_published post); reflexivity.
Qed.

(* ------------------------------------------------------------------ *)
(** ** What an accepted submission stores *)
(* ------------------------------------------------------------------ *)

(** X17. An accepted [create_post] appends exactly one post and rewrites
    none: the new post has an id and a slug no post had, the logged-in
    administrator as author, no views, and a publication time, the time of
    the request, exactly when it is published. A request that is not
    accepted leaves the database as it was. *)
Theorem create_post_stores_one_post `{External} (cfg : Config) (now : datetime)
    (uuid_hex : string) (form : PostForm) (w : World) :
  let r := create_post cfg now uuid_hex form w in
  (fst r <> Redirect "blog.admin_posts" -> db (snd r) = db w) /\
  (fst r = Redirect "blog.admin_posts" ->
   exists post,
     posts (db (snd r)) = posts (db w) ++ [post] /\
     ~ In (post_id post) (map post_id (posts (db w))) /\
     ~ In (slug post) (map slug (posts (db w))) /\
     Some (title post) = form_title form /\
     content post = form_content form /\
     option_map user_id (current_user w) = Some (author_id post) /\
     views post = Some 0%Z /\
     is_published post = form_is_published form /\
     published_at post = (if form_is_published form then Some now else None) /\
     total_posts (db (snd r)) = (total_posts (db w) + 1)%Z /\
     users (db (snd r)) = users (db w) /\
     site_settings (db (snd r)) = site_settings (db w)).
Proof.
  destruct (create_post_written cfg now uuid_hex form w)
    as [[E N] | (user & post & ts & d1 & rows & R & C & A & _ & _ & E & F)].
  - split; [intros _; exact E | intros R; contradiction].
  - split; [intros N; contradiction|]. intros _.
    destruct F as (Pi & Ps & Pt & _ & Pc & _ & Pp & _ & Pv & _ & Pa & Pu).
    exists post. cbn zeta. rewrite E. cbn [posts users site_settings].
    repeat split; try assumption.
    + rewrite Pi. apply next_id_fresh.
    + rewrite C. cbn [option_map]. now rewrite Pu.
    + unfold total_posts. cbn [posts]. rewrite length_app. cbn [length]. lia.
Qed.








(** A tag named twice in the form is appended twice, and the second row is
    refused even when the post carried the tag before the edit: on the sample
    site, where the post is tagged [python], the tags [python, Python] end
    the request with an [IntegrityError] and the store as it was. *)
Lemma edit_post_repeated_tag_raises :
  @edit_post Sample.external Sample.cfg 50 "u" 1 Sample.with_repeated_tag Sample.as_admin
  = (InternalServerError "UNIQUE constraint failed: post_tags.post_id, post_tags.tag_id",
     Sample.as_admin).
Proof. vm_compute. reflexivity. Qed.

(* ------------------------------------------------------------------ *)
(** ** The form's file check and the handler's *)
(* ------------------------------------------------------------------ *)

Lemma lower_char_dot (c : ascii) :
  Ascii.eqb (PyStr.lower_char c) "."%char = Ascii.eqb c "."%char.
Proof. destruct c as [[] [] [] [] [] [] [] []]; reflexivity. Qed.

Lemma contains_dot_lower (s : string) :
  PyStr.contains "."%char (PyStr.lower s) = PyStr.contains "."%char s.
Proof.
  induction s as [|c s IH]; [reflexivity|].
  cbn [PyStr.lower PyStr.contains]. now rewrite lower_char_dot, IH.
Qed.

Lemma lower_app (a b : string) :
  PyStr.lower (a ++ b) = (PyStr.lower a ++ PyStr.lower b)%string.
Proof. induction a as [|c a IH]; simpl; [reflexivity | now rewrite IH]. Qed.

Lemma lower_dot_ext (stem ext : string) :
  PyStr.lower (stem ++ "." ++ ext)
  = (PyStr.lower stem ++ "." ++ PyStr.lower ext)%string.
Proof. rewrite lower_app. reflexivity. Qed.

Lemma split_last_dot (s : string) :
  PyStr.contains "."%char s = true ->
  exists stem ext, s = (stem ++ "." ++ ext)%string /\
                   PyStr.contains "."%char ext = false.
Proof.
  induction s as [|c s IH]; [discriminate|].
  cbn [PyStr.contains]. destruct (PyStr.contains "."%char s) eqn:In_s.
  - intros _. destruct (IH eq_refl) as (stem & ext & -> & N).
    exists (String c stem), ext. now split.
  - rewrite orb_false_r. intros E. apply Ascii.eqb_eq in E. subst c.
    exists "", s. now split.
Qed.

Lemma endswith_prefix (s t : string) :
  PyStr.endswith s t = true -> exists pre, s = (pre ++ t)%string.
Proof.
  induction s as [|c s IH]; cbn [PyStr.endswith]; intros E.
  - rewrite orb_false_r in E. apply String.eqb_eq in E. subst t. now exists "".
  - apply orb_true_iff in E. destruct E as [E|E].
    + apply String.eqb_eq in E. subst t. now exists "".
    + destruct (IH E) as [pre ->]. now exists (String c pre).
Qed.

Lemma endswith_dot_ext (a e x : string) :
  PyStr.contains "."%char e = false -> PyStr.contains "."%char x = false ->
  PyStr.endswith (a ++ "." ++ e) ("." ++ x) = String.eqb e x.
Proof.
  intros Ne Nx. destruct (String.eqb e x) eqn:E.
  - apply String.eqb_eq in E. subst x. apply endswith_app.
  - destruct (PyStr.endswith _ _) eqn:W; [|reflexivity].
    apply endswith_prefix in W. destruct W as [pre W].
    apply (f_equal (PyStr.rsplit1 "."%char)) in W.
    cbn [String.append] in W.
    rewrite (rsplit1_last _ a e Ne), (rsplit1_last _ pre x Nx) in W.
    injection W as _ W. apply String.eqb_neq in E. contradiction.
Qed.

Lemma endswith_needs_dot (s x : string) :
  PyStr.contains "."%char s = false -> PyStr.endswith s ("." ++ x) = false.
Proof.
  intros N. destruct (PyStr.endswith _ _) eqn:W; [|reflexivity].
  apply endswith_prefix in W. destruct W as [pre ->].
  cbn [String.append] in N. rewrite contains_app in N. discriminate.
Qed.

Lemma FileAllowed_allowed_file (basedir : string) (f : FileStorage) :
  PyStr.truthy (filename f) = true ->
  FileAllowed ["jpg"; "jpeg"; "png"; "gif"; "webp"] (Some f)
  = allowed_file (base_config basedir) (filename f).
Proof.
  intros T. unfold FileAllowed, allowed_file. cbn [file_truthy]. rewrite T.
  cbn [ALLOWED_EXTENSIONS base_config].
  destruct (PyStr.contains "."%char (filename f)) eqn:D.
  - destruct (split_last_dot _ D) as (stem & ext & E & N).
    rewrite E, lower_dot_ext.
    replace (PyStr.rsplit1 "."%char (stem ++ "." ++ ext)) with [stem; ext]
      by (symmetry; apply (rsplit1_last _ _ _ N)).
    assert (Nl : PyStr.contains "."%char (PyStr.lower ext) = false)
      by now rewrite contains_dot_lower.
    cbn [nth_error andb existsb].
    rewrite !(endswith_dot_ext _ _ _ Nl) by reflexivity.
    destruct (String.eqb (PyStr.lower ext) "jpg"),
             (String.eqb (PyStr.lower ext) "jpeg"),
             (String.eqb (PyStr.lower ext) "png"),
             (String.eqb (PyStr.lower ext) "gif"),
             (String.eqb (PyStr.lower ext) "webp"); reflexivity.
  - cbn [andb existsb].
    assert (Nl : PyStr.contains "."%char (PyStr.lower (filename f)) = false)
      by now rewrite contains_dot_lower.
    now rewrite !(endswith_needs_dot _ _ Nl).
Qed.

Lemma save_image_Some (cfg : Config) (uuid_hex : string) (f : FileStorage)
    (fs fs1 : FileSystem) (name : string) :
  save_image cfg uuid_hex (Some f) fs = (Some name, fs1) ->
  fs1 = file_save fs (os_path_join (UPLOAD_FOLDER cfg) name) f.
Proof.
  unfold save_image. destruct (_ && _); [|discriminate].
  destruct (nth_error _ 1); [|discriminate].
  intros E. now injection E as <- <-.
Qed.

(** X19. The form's [FileAllowed] validator and the handler's
    [allowed_file] accept the same named files, so a cover image that came
    through [validate_on_submit] is never refused by [save_image]. *)
Theorem validated_cover_is_saved (basedir uuid_hex : string) (form : PostForm)
    (fs : FileSystem) (f : FileStorage) :
  form_cover_image form = Some f ->
  PyStr.truthy (filename f) = true ->
  FileAllowed ["jpg"; "jpeg"; "png"; "gif"; "webp"] (Some f)
  = allowed_file (base_config basedir) (filename f) /\
  (validate_on_submit form = true ->
   exists name,
     save_image (base_config basedir) uuid_hex (Some f) fs
     = (Some name,
        file_save fs (os_path_join (UPLOAD_FOLDER (base_config basedir)) name) f)).
Proof.
  intros Cf T. pose proof (FileAllowed_allowed_file basedir f T) as Agree.
  split; [exact Agree|]. intros V.
  assert (A : allowed_file (base_config basedir) (filename f) = true).
  { rewrite <- Agree. unfold validate_on_submit, PostForm_validate in V.
    rewrite Cf in V. destruct (FileAllowed _ _); [reflexivity|].
    rewrite !andb_false_r in V. discriminate. }
  destruct (save_image (base_config basedir) uuid_hex (Some f) fs) as [[name|] fs1] eqn:S.
  - exists name. now rewrite (save_image_Some _ _ _ _ _ _ S).
  - exfalso. unfold save_image in S. cbn [file_truthy] in S. rewrite T, A in S.
    cbn [andb] in S. unfold allowed_file in A.
    destruct (nth_error _ 1); [discriminate|].
    rewrite andb_false_r in A. discriminate.
Qed.

(* ------------------------------------------------------------------ *)
(** ** Cover image files *)
(* ------------------------------------------------------------------ *)

Lemma os_remove_gone (fs : FileSystem) (path : string) :
  os_path_exists (os_remove fs path) path = false.
Proof.
  unfold os_path_exists, os_remove.
  destruct (existsb _ _) eqn:E; [|reflexivity].
  apply existsb_exists in E. destruct E as (e & Hin & Ee).
  apply filter_In in Hin. destruct Hin as [_ N]. rewrite Ee in N. discriminate.
Qed.

Lemma os_remove_other (fs : FileSystem) (path : string) (e : string * string) :
  fst e <> path -> In e (os_remove fs path) <-> In e fs.
Proof.
  intros N. unfold os_remove. rewrite filter_In.
  apply String.eqb_neq in N. rewrite N. cbn [negb]. tauto.
Qed.

Lemma os_path_join_inj (a b c : string) :
  os_path_join a b = os_path_join a c -> b = c.
Proof.
  unfold os_path_join. destruct (_ || _); intros E.
  - now apply append_inv_head in E.
  - apply append_inv_head in E. now injection E.
Qed.

(** X20. When an administrator deletes a post that has a cover image, no
    file is left under the image's path in the upload folder, and every
    other file is as before; deleting a post without a cover image leaves
    the files alone. *)
Theorem delete_post_removes_cover_file (cfg : Config) (id : Z) (w : World)
    (user : User) (post : Post) :
  current_user w = Some user -> is_admin user = true ->
  Post_query_get (db w) id = Some post ->
  let w' := snd (delete_post cfg id w) in
  (forall name,
      cover_image post = Some name -> name <> "" ->
      let path := os_path_join (UPLOAD_FOLDER cfg) name in
      os_path_exists (files w') path = false /\
      (forall e, fst e <> path -> (In e (files w') <-> In e (files w)))) /\
  (PyStr.truthy_opt (cover_image post) = false -> files w' = files w).
Proof.
  intros C A Q. unfold delete_post, admin_required. rewrite C, A, Q.
  cbn [negb snd files flash]. split.
  - intros name -> N. cbn [PyStr.truthy_opt]. unfold PyStr.truthy.
    apply String.eqb_neq in N. rewrite N. cbn [negb].
    destruct (os_path_exists (files w) _) eqn:X.
    + split; [apply os_remove_gone | intros e Ne; now apply os_remove_other].
    + split; [exact X | tauto].
  - intros ->. reflexivity.
Qed.

Lemma updated_row_cover (now : datetime) (r p : Post) :
  cover_image (updated_row now r p) = cover_image p.
Proof. unfold updated_row. destruct (Post_eq_dec r p) as [->|_]; reflexivity. Qed.

Lemma edit_cover_data_no_upload (form : PostForm) (post : Post) :
  file_truthy (form_cover_image form) = false ->
  edit_cover_data form post
  = match cover_image post with
    | Some name => CoverStored name
    | None => CoverNone
    end.
Proof.
  unfold edit_cover_data. destruct (form_cover_image form) as [f|]; [|reflexivity].
  now intros ->.
Qed.

(** X21. The cover image in [edit_post], for an administrator and a form that
    validates. Without an upload, the form's field holds the name of the
    image the post has: the request then ends with an [AttributeError] and
    nothing is changed, so such an edit is accepted only for a post without
    an image, whose image and files stay as they were. With an upload, an
    accepted edit stores the file under the generated name, points the post
    at it and, when the post had another image, removes that image's
    file. *)
Theorem edit_post_replaces_cover `{External} (cfg : Config) (now : datetime)
    (uuid_hex : string) (id : Z) (form : PostForm) (w : World) (post : Post) :
  Post_query_get (db w) id = Some post ->
  let r := edit_post cfg now uuid_hex id form w in
  (forall user old,
      current_user w = Some user -> is_admin user = true ->
      validate_on_submit form = true -> form_title form <> None ->
      file_truthy (form_cover_image form) = false ->
      cover_image post = Some old -> old <> "" ->
      r = (InternalServerError "AttributeError", w)) /\
  (fst r = Redirect "blog.admin_posts" ->
   (file_truthy (form_cover_image form) = false ->
    PyStr.truthy_opt (cover_image post) = false /\
    files (snd r) = files w /\
    option_map cover_image (Post_query_get (db (snd r)) id) = Some (cover_image post)) /\
   (forall f name fs1,
       form_cover_image form = Some f -> PyStr.truthy (filename f) = true ->
       save_image cfg uuid_hex (Some f) (files w) = (Some name, fs1) ->
       let new_path := os_path_join (UPLOAD_FOLDER cfg) name in
       option_map cover_image (Post_query_get (db (snd r)) id) = Some (Some name) /\
       (forall old,
           cover_image post = Some old -> old <> "" -> old <> name ->
           os_path_exists (files (snd r)) (os_path_join (UPLOAD_FOLDER cfg) old) = false /\
           In (new_path, stream f) (files (snd r))) /\
       (PyStr.truthy_opt (cover_image post) = false ->
        In (new_path, stream f) (files (snd r))))).
Proof.
  intros Q. cbn zeta. split.
  - intros user old C A V Ti Up Co No.
    unfold edit_post, admin_required. rewrite C, A, Q, V. cbn [negb].
    destruct (form_title form) as [ttl|]; [|congruence].
    unfold edit_cover_image. rewrite (edit_cover_data_no_upload _ _ Up), Co.
    unfold PyStr.truthy. apply String.eqb_neq in No. rewrite No. reflexivity.
  - destruct (edit_post_written cfg now uuid_hex id form w)
      as [[_ N] | (post0 & edited & ts & d1 & rows & _ & Q0 & _ & _ & E & Ei & R)];
      [intros R; contradiction|].
    intros _. rewrite Q in Q0. injection Q0 as <-.
    destruct R as (_ & _ & _ & _ & _ & _ & _ & _ & _ & _ & Ec).
    assert (Row : option_map cover_image
                    (Post_query_get (db (snd (edit_post cfg now uuid_hex id form w))) id)
                  = Some (cover_image edited)).
    { rewrite E. unfold Post_query_get. cbn [posts].
      rewrite <- (Post_query_get_id _ _ _ Q), <- Ei.
      rewrite (find_update_post_row now edited post).
      - cbn [option_map]. now rewrite updated_row_cover.
      - rewrite Ei. rewrite <- (Post_query_get_id _ _ _ Q) in Q. exact Q. }
    rewrite Row. unfold edit_cover_image in Ec. split.
    + intros Up. rewrite (edit_cover_data_no_upload _ _ Up) in Ec.
      destruct (cover_image post) as [old|] eqn:Co.
      * cbn [PyStr.truthy_opt]. destruct (PyStr.truthy old); [discriminate|].
        injection Ec as <- <-. repeat split.
      * injection Ec as <- <-. repeat split.
    + intros f name fs1 Cf T S. unfold edit_cover_data in Ec. rewrite Cf in Ec.
      cbn [file_truthy] in Ec. rewrite T, S in Ec.
      pose proof (save_image_Some _ _ _ _ _ _ S) as ->.
      cbv beta iota zeta in Ec.
      pose proof (f_equal (fun t => match t with
                                    | Returns (image, _) => image
                                    | Raises _ => None
                                    end) Ec) as Ea.
      pose proof (f_equal (fun t => match t with
                                    | Returns (_, fs) => fs
                                    | Raises _ => []
                                    end) Ec) as Eb.
      cbv beta iota in Ea, Eb. rewrite <- Ea, <- Eb.
      split; [reflexivity | split].
      * intros old -> No Ne. unfold PyStr.truthy.
        apply String.eqb_neq in No. rewrite No. cbn [negb].
        assert (Np : os_path_join (UPLOAD_FOLDER cfg) name
                     <> os_path_join (UPLOAD_FOLDER cfg) old).
        { intros Ep. apply os_path_join_inj in Ep. congruence. }
        destruct (os_path_exists (file_save _ _ _) (os_path_join (UPLOAD_FOLDER cfg) old))
          eqn:X.
        -- split; [apply os_remove_gone|].
           apply os_remove_other; [exact Np | now left].
        -- split; [exact X | now left].
      * intros Tr. destruct (cover_image post) as [old|]; [|now left].
        cbn [PyStr.truthy_opt] in Tr. rewrite Tr. now left.
Qed.

(* ------------------------------------------------------------------ *)
(** ** Tag names from the form *)
(* ------------------------------------------------------------------ *)

Lemma rstrip_cons_nonspace (c : ascii) (r : string) :
  PyStr.isspace c = false -> PyStr.rstrip (String c r) = String c (PyStr.rstrip r).
Proof. intros N. cbn [PyStr.rstrip]. rewrite N. now destruct (PyStr.rstrip r). Qed.

Lemma rstrip_cons (c : ascii) (r : string) :
  PyStr.rstrip (String c r)
  = match PyStr.rstrip r with
    | EmptyString => if PyStr.isspace c then EmptyString else String c EmptyString
    | String _ _ as r' => String c r'
    end.
Proof. reflexivity. Qed.

Lemma rstrip_idempotent (s : string) : PyStr.rstrip (PyStr.rstrip s) = PyStr.rstrip s.
Proof.
  induction s as [|c r IH]; [reflexivity|].
  rewrite (rstrip_cons c r). destruct (PyStr.rstrip r) as [|c' r'] eqn:E.
  - destruct (PyStr.isspace c) eqn:Sp; [reflexivity|].
    rewrite rstrip_cons. cbn [PyStr.rstrip]. now rewrite Sp.
  - rewrite rstrip_cons, IH. reflexivity.
Qed.

Lemma lstrip_head (s : string) :
  PyStr.lstrip s = "" \/
  exists c r, PyStr.lstrip s = String c r /\ PyStr.isspace c = false.
Proof.
  induction s as [|c r IH]; [now left|].
  cbn [PyStr.lstrip]. destruct (PyStr.isspace c) eqn:Sp; [exact IH|].
  right. now exists c, r.
Qed.

Lemma strip_idempotent (s : string) : PyStr.strip (PyStr.strip s) = PyStr.strip s.
Proof.
  unfold PyStr.strip. destruct (lstrip_head s) as [-> | (c & r & -> & Sp)];
    [reflexivity|].
  rewrite (rstrip_cons_nonspace _ _ Sp). cbn [PyStr.lstrip]. rewrite Sp.
  rewrite (rstrip_cons_nonspace _ _ Sp). now rewrite rstrip_idempotent.
Qed.

Lemma lstrip_without (c : ascii) (s : string) :
  PyStr.contains c s = false -> PyStr.contains c (PyStr.lstrip s) = false.
Proof.
  induction s as [|x r IH]; [reflexivity|].
  cbn [PyStr.lstrip]. intros N. destruct (PyStr.isspace x); [|exact N].
  cbn [PyStr.contains] in N. apply orb_false_iff in N. now apply IH.
Qed.

Lemma rstrip_without (c : ascii) (s : string) :
  PyStr.contains c s = false -> PyStr.contains c (PyStr.rstrip s) = false.
Proof.
  induction s as [|x r IH]; [reflexivity|].
  cbn [PyStr.contains]. intros N. apply orb_false_iff in N. destruct N as [Nx Nr].
  specialize (IH Nr). cbn [PyStr.rstrip].
  destruct (PyStr.rstrip r) as [|c' r'].
  - destruct (PyStr.isspace x); [reflexivity|].
    cbn [PyStr.contains]. now rewrite Nx.
  - cbn [PyStr.contains] in *. now rewrite Nx, IH.
Qed.

Lemma split_pieces_without (sep : ascii) (s piece : string) :
  In piece (PyStr.split sep s) -> PyStr.contains sep piece = false.
Proof.
  revert piece. induction s as [|c r IH]; intros piece.
  - intros [<-|[]]. reflexivity.
  - cbn [PyStr.split]. destruct (Ascii.eqb c sep) eqn:E.
    + intros [<-|Hin]; [reflexivity | now apply IH].
    + destruct (PyStr.split sep r) as [|h t] eqn:Sp.
      * intros [<-|[]]. cbn [PyStr.contains]. now rewrite E.
      * intros [<-|Hin].
        -- cbn [PyStr.contains]. rewrite E. apply IH. now left.
        -- apply IH. now right.
Qed.

(** X22. The names [create_post] and [edit_post] read from the tags field
    are never empty, carry no blank at either end and no comma; a field of
    commas and blanks alone yields no name at all. *)
Theorem parse_tag_names_clean (data : string) :
  (forall name, In name (parse_tag_names data) ->
                name <> "" /\ PyStr.strip name = name /\
                PyStr.contains ","%char name = false) /\
  ((forall piece, In piece (PyStr.split ","%char data) -> PyStr.strip piece = "") ->
   parse_tag_names data = []).
Proof.
  unfold parse_tag_names. split.
  - intros name Hin. apply in_map_iff in Hin. destruct Hin as (piece & <- & Hp).
    apply filter_In in Hp. destruct Hp as [Hp T].
    split; [|split].
    + intros E. rewrite E in T. discriminate.
    + apply strip_idempotent.
    + unfold PyStr.strip. apply rstrip_without, lstrip_without.
      exact (split_pieces_without _ _ _ Hp).
  - intros Blank.
    induction (PyStr.split ","%char data) as [|piece l IH]; [reflexivity|].
    cbn [filter]. rewrite (Blank piece) by now left.
    cbn [PyStr.truthy String.eqb negb]. apply IH.
    intros p Hin. apply Blank. now right.
Qed.

(* ------------------------------------------------------------------ *)
(** ** Reading time *)
(* ------------------------------------------------------------------ *)

Lemma round_div_200 (n : Z) :
  (0 <= n)%Z ->
  (0 <= round_div n 200 /\
   200 * round_div n 200 - 100 <= n <= 200 * round_div n 200 + 100)%Z.
Proof.
  intros N. unfold round_div.
  pose proof (Z.div_mod n 200 ltac:(lia)) as D.
  pose proof (Z.mod_pos_bound n 200 ltac:(lia)) as B.
  assert (Q : (0 <= n / 200)%Z) by (apply Z.div_pos; lia).
  destruct (Z.ltb_spec (2 * (n mod 200)) 200); [lia|].
  destruct (Z.ltb_spec 200 (2 * (n mod 200))); [lia|].
  destruct (Z.even (n / 200)); lia.
Qed.

(** X23. [reading_time] is at least one minute, exactly one for a post of
    fewer than 300 words (an empty or missing body included), within half a
    minute's worth of words (100) of the count from 100 words on, and never
    smaller for the longer of two posts. *)
Theorem reading_time_bounds (p q : Post) :
  let words x := Z.of_nat (count_words false (or_empty (content x))) in
  (1 <= Post_reading_time p)%Z /\
  (Post_reading_time p = 1%Z <-> (words p < 300)%Z) /\
  ((100 <= words p)%Z ->
   (200 * Post_reading_time p - 100 <= words p <= 200 * Post_reading_time p + 100)%Z) /\
  ((words p <= words q)%Z -> (Post_reading_time p <= Post_reading_time q)%Z) /\
  (content p = None -> Post_reading_time p = 1%Z).
Proof.
  intros words. unfold Post_reading_time. fold (words p). fold (words q).
  assert (Np : (0 <= words p)%Z) by (unfold words; lia).
  assert (Nq : (0 <= words q)%Z) by (unfold words; lia).
  destruct (round_div_200 _ Np) as [Kp Bp].
  destruct (round_div_200 _ Nq) as [Kq Bq].
  split; [lia | split; [|split; [|split]]].
  - split.
    + intros E. destruct (Z.eq_dec (words p) 300) as [E3|]; [|lia].
      rewrite E3 in E. vm_compute in E. discriminate.
    + lia.
  - lia.
  - intros L.
    assert (Same : words p = words q -> round_div (words p) 200 = round_div (words q) 200)
      by (intros ->; reflexivity).
    lia.
  - intros C. unfold words. rewrite C. reflexivity.
Qed.

(* ------------------------------------------------------------------ *)
(** ** The bootstrap administrator *)
(* ------------------------------------------------------------------ *)

(** X24. When the bootstrap step of [create_app] succeeds, a user named
    admin exists afterwards, every user there was is kept, and running the
    step again changes nothing; a user already named admin is left as it is,
    and otherwise one administrator with the hash of the default password is
    appended. The step fails only when another user holds the default
    e-mail address. *)
Theorem create_admin_if_absent_once `{External} (now now' : datetime) (d : DB) :
  (forall d1,
      create_admin_if_absent now d = Ok d1 ->
      User_query_filter_by_username d1 "admin" <> None /\
      create_admin_if_absent now' d1 = Ok d1 /\
      (User_query_filter_by_username d "admin" <> None -> d1 = d) /\
      (User_query_filter_by_username d "admin" = None ->
       users d1 = users d ++
                  [mkUser (next_id (map user_id (users d))) "admin" "admin@example.com"
                          (generate_password_hash "admin123") true now]) /\
      posts d1 = posts d /\ tags d1 = tags d /\ post_tags d1 = post_tags d /\
      site_settings d1 = site_settings d) /\
  (forall e,
      create_admin_if_absent now d = IntegrityError e ->
      User_query_filter_by_username d "admin" = None /\
      exists u, In u (users d) /\ email u = "admin@example.com").
Proof.
  unfold create_admin_if_absent at 1 3.
  destruct (User_query_filter_by_username d "admin") as [u|] eqn:Q.
  - split; [|discriminate].
    intros d1 E. injection E as <-.
    unfold create_admin_if_absent. rewrite Q.
    repeat split; congruence.
  - unfold session_add_user, User_set_password. cbn [username email user_id
      is_admin user_created_at].
    unfold User_query_filter_by_username in Q.
    rewrite (find_None_existsb _ _ Q).
    destruct (existsb (fun r => String.eqb (email r) _) _) eqn:M.
    + split; [discriminate|]. intros e _. split; [reflexivity|].
      apply existsb_exists in M. destruct M as (u & Hin & E).
      apply String.eqb_eq in E. now exists u.
    + split; [|discriminate]. intros d1 E. injection E as <-.
      assert (F : User_query_filter_by_username
                    (mkDB (users d ++ [mkUser (next_id (map user_id (users d))) "admin"
                                         "admin@example.com"
                                         (generate_password_hash "admin123") true now])
                          (posts d) (tags d) (post_tags d) (site_settings d)) "admin"
                  <> None).
      { unfold User_query_filter_by_username. cbn [users].
        rewrite (find_app_new _ _ _ Q) by reflexivity. discriminate. }
      split; [exact F | split; [|repeat split; congruence]].
      unfold create_admin_if_absent.
      destruct (User_query_filter_by_username _ "admin"); [reflexivity | congruence].
Qed.

(* ------------------------------------------------------------------ *)
(** ** How far the slug counter goes *)
(* ------------------------------------------------------------------ *)

(** X25. The number [Post.generate_slug] appends is at most the number of
    existing posts; with no post at all the slug is the slugified title. *)
Theorem generate_slug_suffix_bounded `{External} (d : DB) (p : Post) :
  exists k,
    k <= length (posts d) /\
    Post_generate_slug d p = Some (set_slug p (slug_candidate (slugify (title p)) k)) /\
    (posts d = [] -> option_map slug (Post_generate_slug d p) = Some (slugify (title p))).
Proof.
  destruct (generate_slug_value_spec d (title p)) as (k & E & _ & Used).
  assert (B : k <= length (posts d)).
  { apply (used_candidates_bounded d (slugify (title p))).
    intros i Hi. destruct (Used i Hi) as (q & Hq & Hs).
    intros N. exact (proj1 (query_slug_None d _) N q Hq Hs). }
  exists k. unfold Post_generate_slug. rewrite E.
  split; [exact B | split; [reflexivity|]].
  intros Empty. rewrite Empty in B. cbn [length] in B.
  assert (k = 0) by lia. subst k. reflexivity.
Qed.

(* ------------------------------------------------------------------ *)
(** ** Ordering and paging *)
(* ------------------------------------------------------------------ *)







Lemma in_firstn {A : Type} (n : nat) (l : list A) (x : A) :
  In x (firstn n l) -> In x l.
Proof.
  revert l. induction n as [|n IH]; intros [|a l]; simpl; try tauto.
  intros [->|Hin]; auto.
Qed.

Lemma in_skipn {A : Type} (n : nat) (l : list A) (x : A) :
  In x (skipn n l) -> In x l.
Proof.
  revert l. induction n as [|n IH]; intros [|a l]; simpl; try tauto.
  intros Hin. right. now apply IH.
Qed.

Lemma StronglySorted_skipn {A : Type} (R : A -> A -> Prop) (n : nat) (l : list A) :
  StronglySorted R l -> StronglySorted R (skipn n l).
Proof.
  revert l. induction n as [|n IH]; intros [|a l] S; simpl; try assumption.
  inversion S; subst. now apply IH.
Qed.

Lemma StronglySorted_firstn {A : Type} (R : A -> A -> Prop) (n : nat) (l : list A) :
  StronglySorted R l -> StronglySorted R (firstn n l).
Proof.
  revert l. induction n as [|n IH]; intros [|a l] S; simpl; try constructor.
  - inversion S; subst. now apply IH.
  - inversion S as [|? ? S' All]; subst.
    rewrite Forall_forall in *. intros x Hx. apply All. now apply in_firstn in Hx.
Qed.

Lemma paginate_page {A : Type} (R : A -> A -> Prop) (page per_page : Z)
    (sorted : list A) :
  (forall x, In x (paginate page per_page sorted) -> In x sorted) /\
  (StronglySorted R sorted -> StronglySorted R (paginate page per_page sorted)) /\
  length (paginate page per_page sorted) <= Z.to_nat per_page.
Proof.
  unfold paginate. split; [|split].
  - intros x Hin. apply in_firstn in Hin. now apply in_skipn in Hin.
  - intros S. now apply StronglySorted_firstn, StronglySorted_skipn.
  - rewrite length_firstn. lia.
Qed.

(* ------------------------------------------------------------------ *)
(** ** Searching *)
(* ------------------------------------------------------------------ *)



Lemma lower_char_idempotent (c : ascii) :
  PyStr.lower_char (PyStr.lower_char c) = PyStr.lower_char c.
Proof. destruct c as [[] [] [] [] [] [] [] []]; reflexivity. Qed.

Lemma lower_char_percent (c : ascii) :
  Ascii.eqb (PyStr.lower_char c) "%"%char = Ascii.eqb c "%"%char.
Proof. destruct c as [[] [] [] [] [] [] [] []]; reflexivity. Qed.

Lemma lower_char_underscore (c : ascii) :
  Ascii.eqb (PyStr.lower_char c) "_"%char = Ascii.eqb c "_"%char.
Proof. destruct c as [[] [] [] [] [] [] [] []]; reflexivity. Qed.

Lemma lower_idempotent (s : string) : PyStr.lower (PyStr.lower s) = PyStr.lower s.
Proof.
  induction s as [|c s IH]; [reflexivity|].
  cbn [PyStr.lower]. now rewrite lower_char_idempotent, IH.
Qed.

Lemma lower_suffix (a b : string) :
  PyStr.lower (a ++ b) = (a ++ b)%string -> PyStr.lower b = b.
Proof.
  induction a as [|c a IH]; cbn [String.append PyStr.lower]; intros E.
  - exact E.
  - injection E as _ E. auto.
Qed.

Lemma sql_like_percent_step (rest text : string) :
  sql_like (String "%" rest) text
  = sql_like rest text ||
    match text with
    | EmptyString => false
    | String _ text' => sql_like (String "%" rest) text'
    end.
Proof. destruct text; reflexivity. Qed.

Lemma sql_like_percent (rest text : string) :
  sql_like (String "%" rest) text = true <->
  exists pre suf, text = (pre ++ suf)%string /\ sql_like rest suf = true.
Proof.
  induction text as [|c text IH]; rewrite sql_like_percent_step.
  - rewrite orb_false_r. split.
    + intros L. now exists "", "".
    + intros (pre & suf & E & L). destruct pre; [|discriminate].
      cbn [String.append] in E. now subst suf.
  - rewrite orb_true_iff, IH. split.
    + intros [L | (pre & suf & -> & L)].
      * now exists "", (String c text).
      * now exists (String c pre), suf.
    + intros (pre & suf & E & L). destruct pre as [|x pre].
      * cbn [String.append] in E. subst suf. now left.
      * cbn [String.append] in E. injection E as _ ->. right. now exists pre, suf.
Qed.

Lemma sql_like_char_step (c : ascii) (rest text : string) :
  Ascii.eqb c "%"%char = false -> Ascii.eqb c "_"%char = false ->
  sql_like (String c rest) text
  = match text with
    | EmptyString => false
    | String d text' =>
        Ascii.eqb (PyStr.lower_char c) (PyStr.lower_char d) && sql_like rest text'
    end.
Proof. intros P U. cbn [sql_like]. now rewrite P, U. Qed.

Lemma sql_like_literal (q pat : string) :
  PyStr.contains "%"%char q = false -> PyStr.contains "_"%char q = false ->
  forall s,
    PyStr.lower s = s ->
    (sql_like (PyStr.lower q ++ pat) s = true <->
     exists rest, s = (PyStr.lower q ++ rest)%string /\ sql_like pat rest = true).
Proof.
  induction q as [|c q IH]; intros P U s F.
  - cbn [PyStr.lower String.append]. split.
    + intros L. now exists s.
    + intros (rest & -> & L). exact L.
  - cbn [PyStr.contains] in P, U.
    apply orb_false_iff in P. destruct P as [Pc P].
    apply orb_false_iff in U. destruct U as [Uc U].
    rewrite Ascii.eqb_sym in Pc, Uc.
    cbn [PyStr.lower String.append].
    rewrite sql_like_char_step
      by (rewrite ?lower_char_percent, ?lower_char_underscore;
          rewrite Ascii.eqb_sym; assumption).
    destruct s as [|d s]; [split; [discriminate | intros (rest & E & _); discriminate]|].
    cbn [PyStr.lower] in F. injection F as Fd Fs.
    rewrite lower_char_idempotent, Fd, andb_true_iff, (IH P U s Fs). split.
    + intros (E & rest & -> & L). apply Ascii.eqb_eq in E. subst d. now exists rest.
    + intros (rest & E & L). injection E as -> ->.
      split; [apply Ascii.eqb_refl | now exists rest].
Qed.

Lemma append_empty_r (s : string) : (s ++ "")%string = s.
Proof. induction s as [|c s IH]; simpl; [reflexivity | now rewrite IH]. Qed.

Lemma sql_like_any (text : string) : sql_like "%" text = true.
Proof. apply sql_like_percent. exists text, "". now rewrite append_empty_r. Qed.

(** X27. For a query without [%] and [_], the search pattern matches a text
    exactly when the lower-cased query occurs in the lower-cased text. The
    two characters are not escaped: the query [%] matches every text, and
    the query [_] every text that is not empty. *)
Theorem search_pattern_is_substring (query text : string) :
  (PyStr.contains "%"%char query = false ->
   PyStr.contains "_"%char query = false ->
   (ilike (Some text) ("%" ++ query ++ "%") = true <->
    exists pre post,
      PyStr.lower text = (pre ++ PyStr.lower query ++ post)%string)) /\
  ilike (Some text) ("%" ++ "%" ++ "%") = true /\
  (ilike (Some text) ("%" ++ "_" ++ "%") = true <-> text <> "").
Proof.
  split; [|split].
  - intros P U. unfold ilike.
    change ("%" ++ query ++ "%")%string with (String "%" (query ++ "%")).
    cbn [PyStr.lower]. change (PyStr.lower_char "%") with "%"%char.
    rewrite lower_app. change (PyStr.lower "%") with "%".
    rewrite sql_like_percent. split.
    + intros (pre & suf & E & L).
      assert (F : PyStr.lower suf = suf).
      { apply (lower_suffix pre). rewrite <- E. apply lower_idempotent. }
      apply (sql_like_literal query "%" P U suf F) in L.
      destruct L as (rest & -> & _). now exists pre, rest.
    + intros (pre & post & E). exists pre, (PyStr.lower query ++ post)%string.
      split; [exact E|].
      assert (F : PyStr.lower (PyStr.lower query ++ post) = (PyStr.lower query ++ post)%string).
      { apply (lower_suffix pre). rewrite <- E. apply lower_idempotent. }
      apply (sql_like_literal query "%" P U _ F).
      exists post. split; [reflexivity | apply sql_like_any].
  - unfold ilike. change (PyStr.lower ("%" ++ "%" ++ "%")) with "%%%".
    apply sql_like_percent. exists "", (PyStr.lower text). split; [reflexivity|].
    apply sql_like_percent. exists "", (PyStr.lower text). split; [reflexivity|].
    apply sql_like_any.
  - unfold ilike. change (PyStr.lower ("%" ++ "_" ++ "%")) with "%_%".
    rewrite sql_like_percent. split.
    + intros (pre & suf & E & L) ->. destruct pre; [|discriminate].
      cbn [String.append PyStr.lower] in E. subst suf. discriminate.
    + intros N. destruct text as [|c text]; [contradiction|].
      exists "", (PyStr.lower (String c text)). split; [reflexivity|].
      cbn [PyStr.lower sql_like Ascii.eqb]. apply sql_like_any.
Qed.

(* ------------------------------------------------------------------ *)
(** ** The home page *)
(* ------------------------------------------------------------------ *)

(** X28. On the home page the featured post, when there is one, is a
    published and featured post than which no other such post is newer, and
    there is one whenever some post is published and featured; the recent
    posts are published posts of the database other than the featured one,
    from newest to oldest, at most [POSTS_PER_PAGE] of them. *)
Theorem index_shows_published (cfg : Config) (page : Z) (d : DB)
    (featured_post : option Post) (posts_ : list Post) :
  index cfg page d featured_post posts_ ->
  (forall f, featured_post = Some f ->
             In f (posts d) /\ is_published f = true /\ is_featured f = true /\
             forall g, In g (posts d) -> is_published g = true -> is_featured g = true ->
                       null_first_le (published_at g) (published_at f)) /\
  (featured_post = None ->
   forall g, In g (posts d) -> is_published g = true -> is_featured g = false) /\
  (forall p, In p posts_ ->
             In p (posts d) /\ is_published p = true /\
             forall f, featured_post = Some f -> post_id p <> post_id f) /\
  StronglySorted (fun a b => null_first_le (published_at b) (published_at a)) posts_ /\
  length posts_ <= Z.to_nat (POSTS_PER_PAGE cfg).
Proof.
  intros (featured & sorted & [Pf Sf] & Hd & [Ps Ss] & ->).
  assert (Mem : forall g, In g featured <->
                          In g (posts d) /\ is_published g = true /\ is_featured g = true).
  { intros g. rewrite <- (Permutation_in' eq_refl Pf), filter_In, andb_true_iff.
    destruct (is_published g), (is_featured g); simpl; intuition congruence. }
  destruct (paginate_page
              (fun a b => null_first_le (published_at b) (published_at a))
              page (POSTS_PER_PAGE cfg) sorted) as (Sub & Srt & Len).
  split; [|split; [|split; [|split]]].
  - intros f E. rewrite E in Hd. destruct featured as [|f0 rest]; [discriminate|].
    injection Hd as <-. destruct (proj1 (Mem f) (or_introl eq_refl)) as (Hin & Hp & Hf).
    repeat split; try assumption.
    intros g Hg Gp Gf. assert (Hg' : In g (f :: rest)) by (apply Mem; auto).
    destruct Hg' as [<-|Hg'].
    + destruct (published_at f); simpl; [lia | exact I].
    + inversion Sf as [|? ? _ All]; subst. rewrite Forall_forall in All. now apply All.
  - intros E g Hg Gp. rewrite E in Hd. destruct featured as [|f0 rest]; [|discriminate].
    destruct (is_featured g) eqn:Gf; [|reflexivity].
    exfalso. apply (proj2 (Mem g)). now repeat split.
  - intros p Hin. apply Sub in Hin.
    apply (Permutation_in _ (Permutation_sym Ps)) in Hin.
    apply filter_In in Hin. destruct Hin as [Hin W].
    apply andb_true_iff in W. destruct W as [Wp Wf].
    destruct (is_published p); [|discriminate].
    repeat split; [exact Hin|].
    intros f ->. apply negb_true_iff, Z.eqb_neq in Wf. exact Wf.
  - now apply Srt.
  - exact Len.
Qed.

(* ------------------------------------------------------------------ *)
(** ** The further properties at work on the sample site *)
(* ------------------------------------------------------------------ *)

Lemma sample_schema_holds : schema_holds Sample.site.
Proof.
  split.
  - unfold keys_unique. simpl.
    repeat split; (constructor; [intros [] | constructor]).
  - intros a [<-|[]]. simpl. split; now left.
Defined.

Lemma admin_handlers_reject_others_witness :
  @create_post Sample.external Sample.cfg 50 "u" Sample.with_tags Sample.as_reader
  = (Abort 403, Sample.as_reader) /\
  delete_post Sample.cfg 1 Sample.as_reader = (Abort 403, Sample.as_reader) /\
  fst (delete_post Sample.cfg 1 Sample.as_anonymous) = Redirect "auth.login" /\
  db (snd (delete_post Sample.cfg 1 Sample.as_anonymous)) = Sample.site.
Proof.
  destruct (@admin_handlers_reject_others Sample.external Sample.cfg 50 Sample.clock
              "u" 1 Sample.with_tags Sample.about_form Sample.as_reader) as [Reader _].
  destruct (Reader Sample.reader eq_refl eq_refl) as (C & _ & D & _).
  destruct (@admin_handlers_reject_others Sample.external Sample.cfg 50 Sample.clock
              "u" 1 Sample.with_tags Sample.about_form Sample.as_anonymous) as [_ Anon].
  destruct (Anon eq_refl) as (_ & _ & D' & _).
  split; [exact C | split; [exact D | split]]; now rewrite D'.
Defined.

Lemma login_admin_opens_session_witness :
  let r := @login Sample.external (mkLoginForm "admin" "admin123" false true)
             (Some "/admin/posts") Sample.as_anonymous in
  session_user_id (snd r) = Some 1%Z /\ fst r = RedirectUrl "/admin/posts".
Proof.
  destruct (@login_admin_opens_session Sample.external
              (mkLoginForm "admin" "admin123" false true) (Some "/admin/posts")
              Sample.as_anonymous Sample.admin eq_refl eq_refl eq_refl eq_refl eq_refl)
    as (_ & S & R).
  split; [exact S | exact R].
Defined.

Lemma login_redirect_is_local_witness :
  startswith_slash "/admin/posts" = true.
Proof.
  exact (proj2 (@login_redirect_is_local Sample.external
                  (mkLoginForm "admin" "admin123" false true) (Some "/admin/posts")
                  Sample.as_anonymous "/admin/posts" eq_refl)).
Defined.

Lemma login_bad_credentials_alike_witness :
  @login Sample.external (mkLoginForm "nobody" "x" false true) None Sample.as_anonymous
  = @login Sample.external (mkLoginForm "admin" "wrong" false true) None
      Sample.as_anonymous.
Proof.
  destruct (@login_bad_credentials_alike Sample.external
              (mkLoginForm "nobody" "x" false true) None Sample.as_anonymous
              eq_refl eq_refl (or_introl eq_refl)) as [-> _].
  destruct (@login_bad_credentials_alike Sample.external
              (mkLoginForm "admin" "wrong" false true) None Sample.as_anonymous
              eq_refl eq_refl
              (or_intror (ex_intro _ Sample.admin (conj eq_refl eq_refl)))) as [-> _].
  reflexivity.
Defined.

Lemma logout_closes_session_witness :
  current_user (snd (logout Sample.as_admin)) = None /\
  db (snd (delete_post Sample.cfg 1 (snd (logout Sample.as_admin)))) = Sample.site.
Proof.
  destruct (@logout_closes_session Sample.external Sample.cfg 50 "u" 1
              Sample.with_tags Sample.as_admin Sample.admin eq_refl)
    as (_ & C & _ & _ & _ & _ & _ & _ & D).
  split; [exact C | exact D].
Defined.

Lemma change_password_needs_current_password_witness :
  @change_password Sample.external
    (mkChangePasswordForm "guess" "new" "new" true) Sample.as_admin
  = (Redirect "auth.change_password",
     flash "Current password is incorrect." "error" Sample.as_admin).
Proof.
  destruct (@change_password_needs_current_password Sample.external
              (mkChangePasswordForm "guess" "new" "new" true) Sample.as_admin)
    as (_ & Wrong & _).
  exact (Wrong Sample.admin eq_refl eq_refl eq_refl).
Defined.

Lemma change_password_sets_new_hash_witness :
  let r := @change_password Sample.external
             (mkChangePasswordForm "admin123" "new" "new" true) Sample.as_admin in
  option_map password_hash (current_user (snd r)) = Some "plain$new" /\
  @User_check_password Sample.external
    (@User_set_password Sample.external Sample.admin "new") "new" = true.
Proof.
  destruct (@change_password_sets_new_hash Sample.external
              (mkChangePasswordForm "admin123" "new" "new" true) Sample.as_admin
              Sample.admin eq_refl eq_refl eq_refl eq_refl)
    as (_ & C & _ & _ & _ & V).
  split.
  - now rewrite C.
  - apply V. intros p. apply String.eqb_refl.
Defined.

Lemma SiteSettings_set_touches_one_key_witness :
  let d := snd (SiteSettings_set 5 Sample.site "about_title" (Some "Hi")) in
  SiteSettings_get (snd (SiteSettings_set 6 d "about_intro" (Some "Intro")))
                   "about_title" None
  = SiteSettings_get d "about_title" None /\
  setting_keys_unique (snd (SiteSettings_set 6 d "about_intro" (Some "Intro"))).
Proof.
  cbn zeta.
  destruct (SiteSettings_set_touches_one_key 6
              (snd (SiteSettings_set 5 Sample.site "about_title" (Some "Hi")))
              "about_intro" (Some "Intro")) as (Other & Keys & _).
  split.
  - apply Other. discriminate.
  - apply Keys. unfold setting_keys_unique. simpl.
    constructor; [intros [] | constructor].
Defined.

Lemma admin_about_then_about_witness :
  about_data (db (snd (admin_about Sample.clock Sample.about_form Sample.as_admin)))
  = [ ("about_title", Some "About me"); ("about_intro", Some "Hi");
      ("about_content", Some ""); ("twitter_url", Some "");
      ("github_url", Some ""); ("linkedin_url", Some "") ].
Proof.
  exact (proj2 (admin_about_then_about Sample.clock Sample.about_form Sample.as_admin
                  Sample.admin eq_refl eq_refl eq_refl)).
Defined.

Lemma view_post_hides_drafts_witness :
  view_post 5 "missing" Sample.as_anonymous = (Abort 404, Sample.as_anonymous).
Proof.
  apply view_post_hides_drafts. intros p [<-|[]]. discriminate.
Defined.

Lemma view_post_writes_one_row_witness :
  let w' := snd (view_post 5 "hello-world" Sample.as_anonymous) in
  option_map views (Post_query_get (db w') 1) = Some (Some 1%Z) /\
  tags (db w') = [Sample.python] /\ flashes w' = [].
Proof.
  destruct (view_post_writes_one_row 5 "hello-world" Sample.as_anonymous Sample.hello)
    as (Q & _ & _ & T & _ & _ & _ & _ & F).
  - unfold posts_primary_key. simpl. constructor; [intros [] | constructor].
  - reflexivity.
  - cbn zeta. split; [|split; [exact T | exact F]].
    change (post_id Sample.hello) with 1%Z in Q. now rewrite Q.
Defined.

Lemma view_post_raises_total_views_witness :
  total_views (db (snd (view_post 5 "hello-world" Sample.as_anonymous)))
  = (total_views Sample.site + 1)%Z.
Proof.
  apply (view_post_raises_total_views 5 "hello-world" Sample.as_anonymous Sample.hello).
  - unfold posts_primary_key. simpl. constructor; [intros [] | constructor].
  - reflexivity.
Defined.

Lemma handlers_keep_schema_witness :
  schema_holds
    (db (snd (@create_post Sample.external Sample.cfg 50 "u" Sample.with_tags
                Sample.as_admin))) /\
  schema_holds
    (db (snd (@edit_post Sample.external Sample.cfg 50 "u" 1 Sample.with_tags
                Sample.as_admin))).
Proof.
  destruct (@handlers_keep_schema Sample.external Sample.cfg 50 "u" 1 "hello-world"
              Sample.with_tags Sample.as_admin sample_schema_holds) as (C & E & _).
  split; [exact C | exact E].
Defined.

Lemma handlers_keep_published_stamped_witness :
  published_stamped (db (snd (toggle_publish 50 1 Sample.as_admin))) /\
  published_stamped
    (db (snd (@create_post Sample.external Sample.cfg 50 "u" Sample.with_tags
                Sample.as_admin))).
Proof.
  destruct (@handlers_keep_published_stamped Sample.external Sample.cfg 50 "u" 1
              "hello-world" Sample.with_tags Sample.as_admin) as (C & _ & _ & T & _).
  - intros p [<-|[]] _. reflexivity.
  - split; [exact T | exact C].
Defined.

Lemma toggle_publish_twice_witness :
  let w2 := snd (toggle_publish 60 1 (snd (toggle_publish 50 1 Sample.as_admin))) in
  option_map is_published (Post_query_get (db w2) 1) = Some true /\
  option_map published_at (Post_query_get (db w2) 1) = Some (Some 10%Z).
Proof.
  pose proof (toggle_publish_twice 50 60 1 Sample.as_admin Sample.admin Sample.hello
                eq_refl eq_refl eq_refl) as Q.
  cbn zeta in *. rewrite Q. split; reflexivity.
Defined.

Lemma create_post_stores_one_post_witness :
  let r := @create_post Sample.external Sample.cfg 50 "u" Sample.with_tags
             Sample.as_admin in
  exists post,
    posts (db (snd r)) = [Sample.hello; post] /\
    views post = Some 0%Z /\ published_at post = Some 50%Z.
Proof.
  destruct (@create_post_stores_one_post Sample.external Sample.cfg 50 "u"
              Sample.with_tags Sample.as_admin) as [_ Stored].
  destruct (Stored eq_refl) as (post & P & _ & _ & _ & _ & _ & V & _ & T & _).
  exists post. split; [exact P | split; [exact V | exact T]].
Defined.


Lemma validated_cover_is_saved_witness :
  exists name,
    fst (save_image (base_config "/srv/blog") "0123abcd" (Some Sample.photo) [])
    = Some name.
Proof.
  destruct (validated_cover_is_saved "/srv/blog" "0123abcd" Sample.with_photo []
              Sample.photo eq_refl eq_refl) as [_ Saved].
  destruct (Saved eq_refl) as [name S]. exists name. now rewrite S.
Defined.

Lemma delete_post_removes_cover_file_witness :
  os_path_exists (files (snd (delete_post Sample.cfg 1 Sample.gallery)))
                 "/srv/blog/app/static/uploads/old.png" = false.
Proof.
  destruct (delete_post_removes_cover_file Sample.cfg 1 Sample.gallery Sample.admin
              Sample.illustrated eq_refl eq_refl eq_refl) as [Gone _].
  destruct (Gone "old.png" eq_refl) as [G _]; [discriminate | exact G].
Defined.

Lemma edit_post_replaces_cover_witness :
  let r := @edit_post Sample.external Sample.cfg 50 "0123abcd" 1 Sample.with_photo
             Sample.gallery in
  option_map cover_image (Post_query_get (db (snd r)) 1) = Some (Some "0123abcd.png") /\
  os_path_exists (files (snd r)) "/srv/blog/app/static/uploads/old.png" = false /\
  In ("/srv/blog/app/static/uploads/0123abcd.png", "bytes") (files (snd r)) /\
  @edit_post Sample.external Sample.cfg 50 "0123abcd" 1
    (Sample.submission "Hello World" "Body" true) Sample.gallery
  = (InternalServerError "AttributeError", Sample.gallery).
Proof.
  destruct (@edit_post_replaces_cover Sample.external Sample.cfg 50 "0123abcd" 1
              Sample.with_photo Sample.gallery Sample.illustrated eq_refl)
    as [_ Accepted].
  destruct (Accepted eq_refl) as [_ New].
  destruct (New Sample.photo "0123abcd.png" _ eq_refl eq_refl eq_refl) as (C & Old & _).
  destruct (Old "old.png" eq_refl) as [G S]; try discriminate.
  destruct (@edit_post_replaces_cover Sample.external Sample.cfg 50 "0123abcd" 1
              (Sample.submission "Hello World" "Body" true) Sample.gallery
              Sample.illustrated eq_refl)
    as [Raised _].
  split; [exact C | split; [exact G | split; [exact S|]]].
  apply (Raised Sample.admin "old.png"); try reflexivity; discriminate.
Defined.

Lemma parse_tag_names_clean_witness :
  parse_tag_names " Python, web ,, " = ["Python"; "web"] /\
  (forall name, In name (parse_tag_names " Python, web ,, ") -> name <> "") /\
  parse_tag_names " , ,," = [].
Proof.
  destruct (parse_tag_names_clean " Python, web ,, ") as [Clean _].
  destruct (parse_tag_names_clean " , ,,") as [_ Blank].
  split; [reflexivity | split].
  - intros name Hin. exact (proj1 (Clean name Hin)).
  - apply Blank. intros piece Hin. simpl in Hin.
    destruct Hin as [<-|[<-|[<-|[<-|[]]]]]; reflexivity.
Defined.

Lemma reading_time_bounds_witness :
  Post_reading_time Sample.hello = 1%Z /\
  (Post_reading_time Sample.hello <= Post_reading_time Sample.draft)%Z.
Proof.
  destruct (reading_time_bounds Sample.hello Sample.draft) as (_ & One & _ & Mono & _).
  split.
  - apply One. vm_compute. reflexivity.
  - apply Mono. vm_compute. discriminate.
Defined.

Lemma create_admin_if_absent_once_witness :
  exists d1,
    @create_admin_if_absent Sample.external 0 empty_db = Ok d1 /\
    map username (users d1) = ["admin"] /\
    @create_admin_if_absent Sample.external 7 d1 = Ok d1.
Proof.
  destruct (@create_admin_if_absent_once Sample.external 0 7 empty_db) as [Once _].
  eexists. split; [reflexivity|].
  destruct (Once _ eq_refl) as (_ & Again & _ & New & _).
  split; [|exact Again].
  now rewrite (New eq_refl).
Defined.

Lemma generate_slug_suffix_bounded_witness :
  option_map slug (@Post_generate_slug Sample.external empty_db Sample.draft)
  = Some "fresh-post".
Proof.
  destruct (@generate_slug_suffix_bounded Sample.external empty_db Sample.draft)
    as (k & _ & _ & Empty).
  exact (Empty eq_refl).
Defined.


Lemma search_pattern_is_substring_witness :
  ilike (Some "Hello World") ("%" ++ "WORLD" ++ "%") = true /\
  ilike (Some "Hello World") ("%" ++ "%" ++ "%") = true.
Proof.
  destruct (search_pattern_is_substring "WORLD" "Hello World") as (Sub & Any & _).
  split; [|exact Any].
  apply Sub; [reflexivity | reflexivity |].
  now exists "hello ", "".
Defined.

Lemma index_shows_published_witness :
  index Sample.cfg 1 Sample.site None [Sample.hello] /\
  forall p, In p [Sample.hello] -> In p (posts Sample.site) /\ is_published p = true.
Proof.
  assert (I : index Sample.cfg 1 Sample.site None [Sample.hello]).
  { exists [], [Sample.hello]. repeat split; try apply Permutation_refl;
      repeat constructor. }
  split; [exact I|].
  destruct (index_shows_published Sample.cfg 1 Sample.site None [Sample.hello] I)
    as (_ & _ & Shown & _).
  intros p Hin. destruct (Shown p Hin) as (A & B & _). now split.
Defined.
